(** * rapid-front: the Swagger-to-module mapper, the types file and the
      template registry

    A shallow embedding of [src/mapper/swagger-mapper.ts], of the types-file
    part of [src/generator/code-generator.ts] and of
    [TemplateEngine.generateModule] in [src/generator/template-engine.ts].

    Conventions of the embedding.
    - A JavaScript string is a [string]; the alphabet is ASCII, so
      [toUpperCase] and [toLowerCase] move the 26 letters and nothing else.
    - A JavaScript object read with [Object.entries] or [Object.keys], and a
      [Map] or [Set] read with [forEach], is an association list in the order
      in which the engine enumerates it; a [Map.set] on a key that is already
      there keeps the key's place.
    - The document is taken in the shape OpenAPI 3 and Swagger 2 prescribe:
      every field the mapper reads is either absent ([None], the JavaScript
      [undefined] or [null]) or holds a value of the prescribed kind.  The
      truthiness tests of the source are kept: an absent field and an empty
      string are falsy, an object or an array is truthy.  The [type] of a
      schema node, when present, is a type name of the standard or any other
      string that is not the name of a member that every JavaScript object
      inherits.
    - [this.schemas] of the mapper is threaded explicitly. *)

From Stdlib Require Import String Ascii List Bool Arith ZArith Lia.
From stdpp Require Import base strings gmap.
Import ListNotations.
Open Scope string_scope.

(** ** JavaScript strings *)

Module JS.

Definition isLowerLetter (c : ascii) : bool :=
  let n := nat_of_ascii c in (97 <=? n)%nat && (n <=? 122)%nat.

Definition isUpperLetter (c : ascii) : bool :=
  let n := nat_of_ascii c in (65 <=? n)%nat && (n <=? 90)%nat.

Definition upperChar (c : ascii) : ascii :=
  if isLowerLetter c then ascii_of_nat (nat_of_ascii c - 32) else c.

Definition lowerChar (c : ascii) : ascii :=
  if isUpperLetter c then ascii_of_nat (nat_of_ascii c + 32) else c.

Fixpoint mapChars (f : ascii -> ascii) (s : string) : string :=
  match s with
  | EmptyString => EmptyString
  | String c r => String (f c) (mapChars f r)
  end.

(** [str.toUpperCase()], [str.toLowerCase()] on strings of ASCII characters:
    the 26 letters move and every other character stays.  Outside ASCII the
    functions of the source move other cased characters too and may change
    the length of the string; such strings are outside the embedding. *)
Definition toUpperCase : string -> string := mapChars upperChar.
Definition toLowerCase : string -> string := mapChars lowerChar.

(** [str.charAt(0)]: the first character as a string, or the empty string. *)
Definition charAt0 (s : string) : string :=
  match s with
  | EmptyString => EmptyString
  | String c _ => String c EmptyString
  end.

(** [str.slice(from, to)] with JavaScript's treatment of negative and
    out-of-range indices. *)
Definition sliceIndex (len i : Z) : Z :=
  if (i <? 0)%Z then Z.max (len + i) 0 else Z.min i len.

Definition slice (s : string) (from to : Z) : string :=
  let len := Z.of_nat (String.length s) in
  let a := sliceIndex len from in
  let b := sliceIndex len to in
  substring (Z.to_nat a) (Z.to_nat (Z.max (b - a) 0)) s.

(** [str.slice(from)] *)
Definition sliceFrom (s : string) (from : Z) : string :=
  slice s from (Z.of_nat (String.length s)).

(** [str.startsWith(p)], [str.endsWith(p)] *)
Definition startsWith (s p : string) : bool := String.prefix p s.

Definition endsWith (s p : string) : bool :=
  (String.length p <=? String.length s)%nat
  && String.eqb (substring (String.length s - String.length p) (String.length p) s) p.

(** [str.split(sep)] for a one-character separator: never the empty list,
    and the empty string splits into one empty piece. *)
Fixpoint split (sep : ascii) (s : string) : list string :=
  match s with
  | EmptyString => [EmptyString]
  | String c r =>
      if Ascii.eqb c sep then EmptyString :: split sep r
      else match split sep r with
           | h :: t => String c h :: t
           | [] => [String c EmptyString]
           end
  end.

(** [arr.join('')] *)
Fixpoint join (l : list string) : string :=
  match l with
  | [] => EmptyString
  | x :: r => x ++ join r
  end.

(** [arr.pop()] read as a value: the last element, if any. *)
Fixpoint pop (l : list string) : option string :=
  match l with
  | [] => None
  | [x] => Some x
  | _ :: r => pop r
  end.

(** Truthiness of a string: the empty string is falsy. *)
Definition truthy (s : string) : bool := negb (String.eqb s EmptyString).

(** [a || b] on strings. *)
Definition orElse (a b : string) : string := if truthy a then a else b.

End JS.

(** ** Naming helpers of the mapper *)

Module Naming.
Import JS.

(** [capitalize]: [str.charAt(0).toUpperCase() + str.slice(1)] *)
Definition capitalize (str : string) : string :=
  toUpperCase (charAt0 str) ++ sliceFrom str 1.

(** The class [[-_]] of the regular expression of [toCamelCase]. *)
Definition isDashOrUnderscore (c : ascii) : bool :=
  Ascii.eqb c "-" || Ascii.eqb c "_".

(** What [.] refuses in a JavaScript regular expression without the [s]
    flag: the line terminators (line feed and carriage return in ASCII). *)
Definition isLineTerminator (c : ascii) : bool :=
  Ascii.eqb c "010" || Ascii.eqb c "013".

(** [toCamelCase]: [str.replace(/[-_](.)/g, (_, char) => char.toUpperCase())].
    The matches are taken from left to right and do not overlap: a dash or
    underscore followed by a character that [.] accepts is replaced,
    together with that character, by the character in upper case. *)
Fixpoint toCamelCase (str : string) : string :=
  match str with
  | EmptyString => EmptyString
  | String c r =>
      if isDashOrUnderscore c then
        match r with
        | String d r' =>
            if isLineTerminator d then String c (toCamelCase r)
            else String (upperChar d) (toCamelCase r')
        | EmptyString => String c EmptyString
        end
      else String c (toCamelCase r)
  end.

(** [path.split('/').filter(s => s.length > 0)] *)
Definition pathSegments (path : string) : list string :=
  List.filter (fun s => (0 <? String.length s)%nat) (split "/" path).

(** [pathToFunctionName] *)
Definition pathToFunctionName (path method : string) : string :=
  let segments :=
    map (fun segment =>
           if startsWith segment "{" && endsWith segment "}" then
             let paramName := slice segment 1 (-1) in
             "By" ++ capitalize (toCamelCase paramName)
           else toCamelCase segment)
        (pathSegments path) in
  let methodPrefix := toLowerCase method in
  let functionName := join (map (fun s => capitalize s) segments) in
  methodPrefix ++ functionName.

End Naming.

(** ** Maps and sets in insertion order *)

Module JSMap.

(** A [Map<string, V>]: the entries in insertion order, one per key. *)
Definition t (V : Type) : Type := list (string * V).

Fixpoint get {V} (m : t V) (k : string) : option V :=
  match m with
  | [] => None
  | (k', v) :: r => if String.eqb k' k then Some v else get r k
  end.

Definition has {V} (m : t V) (k : string) : bool :=
  match get m k with Some _ => true | None => false end.

(** [m.set(k, v)]: a key that is already there keeps its place. *)
Fixpoint set {V} (m : t V) (k : string) (v : V) : t V :=
  match m with
  | [] => [(k, v)]
  | (k', v') :: r =>
      if String.eqb k' k then (k', v) :: r else (k', v') :: set r k v
  end.

(** The effect on the map of a mutation [f] of the object stored under [k]
    (the map holds a reference, so the stored value changes with it). *)
Fixpoint update {V} (m : t V) (k : string) (f : V -> V) : t V :=
  match m with
  | [] => []
  | (k', v') :: r =>
      if String.eqb k' k then (k', f v') :: r else (k', v') :: update r k f
  end.

Definition keys {V} (m : t V) : list string := map fst m.

End JSMap.

Module JSSet.

(** A [Set<string>]: the members in insertion order, each once. *)
Definition t : Type := list string.

Definition has (s : t) (x : string) : bool := existsb (String.eqb x) s.

Definition add (s : t) (x : string) : t := if has s x then s else (s ++ [x])%list.

End JSSet.

(** ** The document that the mapper reads *)

Module Doc.

(** A schema node: a reference, an array, a primitive, or a named
    definition with properties. *)
#[warnings="-register-all"]
Inductive Schema : Type :=
  mkSchema {
      ref : option string;           (* [$ref] *)
      type : option string;
      items : option Schema;
      properties : option (list (string * Schema));
      required : option (list string)
    }.

Module MediaType.
Record t := mk { schema : option Schema }.
End MediaType.

Module Param.
Record t := mk {
    name : string;
    in_ : string;
    required : option bool;
    schema : option Schema;
    description : option string
  }.
End Param.

Module RequestBody.
Record t := mk {
    required : option bool;
    content : option (list (string * MediaType.t))
  }.
End RequestBody.

Module Response.
Record t := mk {
    description : option string;
    content : option (list (string * MediaType.t))
  }.
End Response.

Module Operation.
Record t := mk {
    operationId : option string;
    summary : option string;
    description : option string;
    parameters : option (list Param.t);
    requestBody : option RequestBody.t;
    responses : option (list (string * Response.t));
    tags : option (list string)
  }.
End Operation.

Module PathItem.
Record t := mk {
    get : option Operation.t;
    post : option Operation.t;
    put : option Operation.t;
    delete : option Operation.t;
    patch : option Operation.t
  }.

(** [pathItem[method]] for the five method keys the mapper reads. *)
Definition at_ (pathItem : t) (method : string) : option Operation.t :=
  if String.eqb method "get" then get pathItem
  else if String.eqb method "post" then post pathItem
  else if String.eqb method "put" then put pathItem
  else if String.eqb method "delete" then delete pathItem
  else if String.eqb method "patch" then patch pathItem
  else None.
End PathItem.

Module Components.
Record t := mk { schemas : option (list (string * Schema)) }.
End Components.

Module Api.
Record t := mk {
    paths : option (list (string * option PathItem.t));
    components : option Components.t;
    definitions : option (list (string * Schema))
  }.
End Api.

End Doc.

(** ** The metadata records of [types.ts] *)

Module ParameterMetadata.
Record t := mk {
    name : string;
    in_ : string;
    required : bool;
    type : string;
    description : option string
  }.
End ParameterMetadata.

Module RequestBodyMetadata.
Record t := mk {
    required : bool;
    contentType : string;
    schema : string
  }.
End RequestBodyMetadata.

Module ResponseMetadata.
Record t := mk {
    statusCode : string;
    description : option string;
    schema : option string
  }.
End ResponseMetadata.

Module EndpointMetadata.
Record t := mk {
    operationId : string;
    functionName : string;
    method : string;
    path : string;
    summary : option string;
    description : option string;
    parameters : list ParameterMetadata.t;
    requestBody : option RequestBodyMetadata.t;
    responses : list ResponseMetadata.t;
    tags : list string
  }.
End EndpointMetadata.

Module SchemaMetadata.
Record t := mk {
    name : string;
    properties : list (string * Doc.Schema);
    required : option (list string)
  }.
End SchemaMetadata.

Module ModuleMetadata.
Record t := mk {
    moduleName : string;
    tag : string;
    endpoints : list EndpointMetadata.t;
    schemas : list SchemaMetadata.t
  }.
End ModuleMetadata.

(** ** [SwaggerMapper] *)

Module SwaggerMapper.
Import JS Naming.

(** The mapper object: its one field, [schemas]. *)
Record t := mk { schemas : JSMap.t SchemaMetadata.t }.

(** [new SwaggerMapper()] *)
Definition new : t := mk [].

(** [getSchemas] *)
Definition getSchemas (this : t) : JSMap.t SchemaMetadata.t := schemas this.

(** [a || b] where [a] may be absent. *)
Definition orDefault (a : option string) (b : string) : string :=
  match a with
  | Some s => orElse s b
  | None => b
  end.

(** [schema.$ref] is truthy: present and not the empty string. *)
Definition truthyRef (schema : Doc.Schema) : option string :=
  match Doc.ref schema with
  | Some r => if truthy r then Some r else None
  | None => None
  end.

(** [ref.split('/').pop() || 'any'] *)
Definition refName (ref : string) : string :=
  orDefault (pop (split "/" ref)) "any".

(** The table [typeMap] of [getTypeFromSchema], read by its own entries.
    A [type] that names a member every object inherits ([constructor],
    [toString] and the like) is outside the shape of the document: there the
    source finds the inherited member, which is no string. *)
Definition typeMap : JSMap.t string :=
  [ ("string", "string");
    ("number", "number");
    ("integer", "number");
    ("boolean", "boolean");
    ("array", "any[]");
    ("object", "any") ].

(** [typeMap[schema.type]]: an absent [type] finds nothing. *)
Definition typeMapAt (type : option string) : option string :=
  match type with
  | Some ty => JSMap.get typeMap ty
  | None => None
  end.

(** [getTypeFromSchema] *)
Definition getTypeFromSchema (schema : option Doc.Schema) : string :=
  match schema with
  | None => "any"
  | Some schema =>
      match truthyRef schema with
      | Some ref => refName ref
      | None => orDefault (typeMapAt (Doc.type schema)) "any"
      end
  end.

(** [schema.type === 'array'] *)
Definition isArrayType (schema : Doc.Schema) : bool :=
  match Doc.type schema with
  | Some ty => String.eqb ty "array"
  | None => false
  end.

(** [getSchemaName] *)
Fixpoint getSchemaName (schema : Doc.Schema) : string :=
  match truthyRef schema with
  | Some ref => refName ref
  | None =>
      match isArrayType schema, Doc.items schema with
      | true, Some items => getSchemaName items ++ "[]"
      | _, _ => getTypeFromSchema (Some schema)
      end
  end.

(** [x || false] where [x] may be absent. *)
Definition orFalse (x : option bool) : bool :=
  match x with Some b => b | None => false end.

(** [mapParameters] *)
Definition mapParameters (parameters : list Doc.Param.t) : list ParameterMetadata.t :=
  map (fun param =>
         {| ParameterMetadata.name := Doc.Param.name param;
            ParameterMetadata.in_ := Doc.Param.in_ param;
            ParameterMetadata.required := orFalse (Doc.Param.required param);
            ParameterMetadata.type := getTypeFromSchema (Doc.Param.schema param);
            ParameterMetadata.description := Doc.Param.description param |})
      parameters.

(** [Object.keys(content)[0]] *)
Definition firstKey {V} (content : list (string * V)) : option string :=
  match content with
  | [] => None
  | (k, _) :: _ => Some k
  end.

(** [mapRequestBody] *)
Definition mapRequestBody (requestBody : option Doc.RequestBody.t)
  : option RequestBodyMetadata.t :=
  match requestBody with
  | None => None
  | Some requestBody =>
      let content :=
        match Doc.RequestBody.content requestBody with
        | Some c => c
        | None => []
        end in
      let contentType := orDefault (firstKey content) "application/json" in
      let schema :=
        match JSMap.get content contentType with
        | Some mediaType => Doc.MediaType.schema mediaType
        | None => None
        end in
      Some {| RequestBodyMetadata.required :=
                orFalse (Doc.RequestBody.required requestBody);
              RequestBodyMetadata.contentType := contentType;
              RequestBodyMetadata.schema :=
                match schema with
                | Some schema => getSchemaName schema
                | None => "any"
                end |}
  end.

(** [getResponseSchema] *)
Definition getResponseSchema (response : Doc.Response.t) : option string :=
  match Doc.Response.content response with
  | None => None
  | Some responseContent =>
      let content :=
        match JSMap.get responseContent "application/json" with
        | Some mediaType => Some mediaType
        | None =>
            match firstKey responseContent with
            | Some k => JSMap.get responseContent k
            | None => None
            end
        end in
      match content with
      | Some mediaType =>
          match Doc.MediaType.schema mediaType with
          | Some schema => Some (getSchemaName schema)
          | None => None
          end
      | None => None
      end
  end.

(** [mapResponses] *)
Definition mapResponses (responses : list (string * Doc.Response.t))
  : list ResponseMetadata.t :=
  map (fun '(statusCode, response) =>
         {| ResponseMetadata.statusCode := statusCode;
            ResponseMetadata.description := Doc.Response.description response;
            ResponseMetadata.schema := getResponseSchema response |})
      responses.

(** [x || []] where [x] may be absent. *)
Definition orEmpty {A} (x : option (list A)) : list A :=
  match x with Some l => l | None => [] end.

(** [mapEndpoint] *)
Definition mapEndpoint (path method : string) (operation : Doc.Operation.t)
  : EndpointMetadata.t :=
  let functionName := pathToFunctionName path method in
  {| EndpointMetadata.operationId :=
       orDefault (Doc.Operation.operationId operation) functionName;
EndpointMetadata.functionName := functionName;
EndpointMetadata.method := method;
EndpointMetadata.path := path;
EndpointMetadata.summary := Doc.Operation.summary operation;
EndpointMetadata.description := Doc.Operation.description operation;
EndpointMetadata.parameters :=
  mapParameters (orEmpty (Doc.Operation.parameters operation));
EndpointMetadata.requestBody :=
  mapRequestBody (Doc.Operation.requestBody operation);
EndpointMetadata.responses :=
  mapResponses (orEmpty (Doc.Operation.responses operation));
EndpointMetadata.tags := orEmpty (Doc.Operation.tags operation) |}.

(** The record that both loops of [extractSchemas] store for a definition. *)
Definition schemaRecord (name : string) (schema : Doc.Schema) : SchemaMetadata.t :=
  {| SchemaMetadata.name := name;
     SchemaMetadata.properties := orEmpty (Doc.properties schema);
     SchemaMetadata.required := Doc.required schema |}.

(** One pass of [Object.entries(container).forEach] in [extractSchemas]. *)
Definition indexSchemas (container : list (string * Doc.Schema))
  (schemas : JSMap.t SchemaMetadata.t) : JSMap.t SchemaMetadata.t :=
  fold_left
    (fun schemas '(name, schema) => JSMap.set schemas name (schemaRecord name schema))
    container schemas.

(** [api.components?.schemas] *)
Definition componentsSchemas (api : Doc.Api.t) : option (list (string * Doc.Schema)) :=
  match Doc.Api.components api with
  | Some components => Doc.Components.schemas components
  | None => None
  end.

(** [extractSchemas] *)
Definition extractSchemas (this : t) (api : Doc.Api.t) : t :=
  let schemas := schemas this in
  let schemas :=
    match componentsSchemas api with
    | Some container => indexSchemas container schemas
    | None => schemas
    end in
  let schemas :=
    match Doc.Api.definitions api with
    | Some container => indexSchemas container schemas
    | None => schemas
    end in
  mk schemas.

(** The class [[\s-_]] of the regular expression of [tagToModuleName]:
    white space (tab, line feed, vertical tab, form feed, carriage return
    and space in ASCII), the dash and the underscore. *)
Definition isTagSeparator (c : ascii) : bool :=
  let n := nat_of_ascii c in
  ((9 <=? n)%nat && (n <=? 13)%nat) || Ascii.eqb c " "
  || Ascii.eqb c "-" || Ascii.eqb c "_".

(** [str.split(/[\s-_]+/)]: the pieces between the maximal runs of
    separators; [afterSeparator] says that the previous character was one. *)
Fixpoint splitRuns (afterSeparator : bool) (str : string) : list string :=
  match str with
  | EmptyString => [EmptyString]
  | String c r =>
      if isTagSeparator c then
        if afterSeparator then splitRuns true r
        else EmptyString :: splitRuns true r
      else match splitRuns false r with
           | h :: t => String c h :: t
           | [] => [String c EmptyString]
           end
  end.

(** [tagToModuleName] *)
Definition tagToModuleName (tag : string) : string :=
  join (map (fun word => capitalize word) (splitRuns false tag)).

(** [str.replace(/[{}]/g, '')] *)
Fixpoint removeBraces (str : string) : string :=
  match str with
  | EmptyString => EmptyString
  | String c r =>
      if Ascii.eqb c "{" || Ascii.eqb c "}" then removeBraces r
      else String c (removeBraces r)
  end.

(** [getTagFromPath] *)
Definition getTagFromPath (path : string) : string :=
  let segments := pathSegments path in
  match segments with
  | [] => "Default"
  | segment0 :: _ =>
      let firstSegment := removeBraces segment0 in
      capitalize firstSegment
  end.

(** [str.replace(pattern, replacement)] with a string pattern: the first
    occurrence only. *)
Fixpoint replaceFirst (str pattern replacement : string) : string :=
  if String.prefix pattern str then
    replacement ++ substring (String.length pattern) (String.length str) str
  else match str with
       | EmptyString => EmptyString
       | String c r => String c (replaceFirst r pattern replacement)
       end.

(** The body of both branches of [getSchemasForModule]: strip the array
    suffix, keep the name if the catalog has it. *)
Definition noteSchema (this : t) (schemaNames : JSSet.t) (schema : string) : JSSet.t :=
  if truthy schema then
    let baseName := replaceFirst schema "[]" "" in
    if JSMap.has (schemas this) baseName then JSSet.add schemaNames baseName
    else schemaNames
  else schemaNames.

(** [getSchemasForModule] *)
Definition getSchemasForModule (this : t) (endpoints : list EndpointMetadata.t)
  : list SchemaMetadata.t :=
  let schemaNames :=
    fold_left
      (fun schemaNames endpoint =>
         let schemaNames :=
           match EndpointMetadata.requestBody endpoint with
           | Some requestBody =>
               noteSchema this schemaNames (RequestBodyMetadata.schema requestBody)
           | None => schemaNames
           end in
         fold_left
           (fun schemaNames response =>
              match ResponseMetadata.schema response with
              | Some schema => noteSchema this schemaNames schema
              | None => schemaNames
              end)
           (EndpointMetadata.responses endpoint) schemaNames)
      endpoints ([] : JSSet.t) in
  flat_map
    (fun name =>
       match JSMap.get (schemas this) name with
       | Some record => [record]
       | None => []   (* not reached: only names the catalog has are noted *)
       end)
    schemaNames.

(** The method keys that [mapToModules] tries on each path item. *)
Definition httpMethods : list string := ["get"; "post"; "put"; "delete"; "patch"].

(** [selectedTags && !selectedTags.includes(tag)]: an array, empty or not,
    is truthy. *)
Definition skipped (selectedTags : option (list string)) (tag : string) : bool :=
  match selectedTags with
  | Some selected => negb (existsb (String.eqb tag) selected)
  | None => false
  end.

(** The body of [tags.forEach] in [mapToModules]. *)
Definition addToModule (selectedTags : option (list string))
  (endpoint : EndpointMetadata.t)
  (moduleMap : JSMap.t (list EndpointMetadata.t)) (tag : string)
  : JSMap.t (list EndpointMetadata.t) :=
  if skipped selectedTags tag then moduleMap
  else
    let moduleMap :=
      if negb (JSMap.has moduleMap tag) then JSMap.set moduleMap tag []
      else moduleMap in
    JSMap.update moduleMap tag (fun endpoints => (endpoints ++ [endpoint])%list).

(** The tags an endpoint is filed under: its own, or the one inferred from
    the path when it declares none. *)
Definition effectiveTags (path : string) (endpoint : EndpointMetadata.t) : list string :=
  if (0 <? length (EndpointMetadata.tags endpoint))%nat
  then EndpointMetadata.tags endpoint
  else [getTagFromPath path].

(** The loops of [mapToModules] over paths, methods and tags. *)
Definition groupEndpoints (api : Doc.Api.t) (selectedTags : option (list string))
  : JSMap.t (list EndpointMetadata.t) :=
  match Doc.Api.paths api with
  | None => []
  | Some paths =>
      fold_left
        (fun moduleMap '(path, pathItem) =>
           match pathItem with
           | None => moduleMap
           | Some pathItem =>
               fold_left
                 (fun moduleMap method =>
                    match Doc.PathItem.at_ pathItem method with
                    | None => moduleMap
                    | Some operation =>
                        let endpoint :=
                          mapEndpoint path (toUpperCase method) operation in
                        let tags := effectiveTags path endpoint in
                        fold_left (addToModule selectedTags endpoint) tags moduleMap
                    end)
                 httpMethods moduleMap
           end)
        paths []
  end.

(** [mapToModules]: the mapper after the call, and the modules returned. *)
Definition mapToModules (this : t) (api : Doc.Api.t)
  (selectedTags : option (list string)) : t * list ModuleMetadata.t :=
  let this := extractSchemas this api in
  let moduleMap := groupEndpoints api selectedTags in
  let modules :=
    map (fun '(tag, endpoints) =>
           {| ModuleMetadata.moduleName := tagToModuleName tag;
ModuleMetadata.tag := tag;
ModuleMetadata.endpoints := endpoints;
ModuleMetadata.schemas := getSchemasForModule this endpoints |})
moduleMap in
(this, modules).

End SwaggerMapper.

(** ** [CodeGenerator]: the types file *)

Inductive LanguageChoice : Type := typescript | javascript.

Module CodeGenerator.
Import JS.

(** The line feed of the template literals. *)
Definition LF : string := String "010" EmptyString.

(** The table [typeMap] of [getTypeScriptType], read by its own entries,
    with the same proviso as for the table of the mapper. *)
Definition typeMap : JSMap.t string :=
  [ ("string", "string");
    ("number", "number");
    ("integer", "number");
    ("boolean", "boolean");
    ("object", "any");
    ("array", "any[]") ].

(** [getTypeScriptType] on a property that is there. *)
Fixpoint typeOfProperty (property : Doc.Schema) : string :=
  if SwaggerMapper.isArrayType property then
    let itemType :=
      match Doc.items property with
      | Some items => typeOfProperty items
      | None => "any"
      end in
    itemType ++ "[]"
  else
    SwaggerMapper.orDefault
      (match Doc.type property with
       | Some ty => JSMap.get typeMap ty
       | None => None
       end)
      "any".

(** [getTypeScriptType] *)
Definition getTypeScriptType (property : option Doc.Schema) : string :=
  match property with
  | None => "any"
  | Some property => typeOfProperty property
  end.

(** [schema.required?.includes(propName)], read as a condition. *)
Definition isRequired (schema : SchemaMetadata.t) (propName : string) : bool :=
  match SchemaMetadata.required schema with
  | Some required => existsb (String.eqb propName) required
  | None => false
  end.

(** The text [typesContent] that [generateTypesFile] builds and hands to
    the formatter. *)
Definition typesContent (schemas : JSMap.t SchemaMetadata.t) : string :=
  fold_left
    (fun typesContent '(name, schema) =>
       let typesContent := typesContent ++ "export interface " ++ name ++ " {" ++ LF in
       let typesContent :=
         fold_left
           (fun typesContent '(propName, propValue) =>
              let optional := if isRequired schema propName then "" else "?" in
              let type := getTypeScriptType (Some propValue) in
              typesContent ++ "  " ++ propName ++ optional ++ ": " ++ type ++ ";" ++ LF)
           (SchemaMetadata.properties schema) typesContent in
       typesContent ++ "}" ++ LF ++ LF)
    schemas
    ("// Auto-generated type definitions" ++ LF ++ LF).

Section Formatting.

(** [prettier.format(code, {parser, ...})]: [None] when it throws. *)
Variable prettierFormat : string -> string -> option string.

(** [formatCode] *)
Definition formatCode (code : string) (language : LanguageChoice) : string :=
  let parser :=
    match language with typescript => "typescript" | javascript => "babel" end in
  match prettierFormat code parser with
  | Some formatted => formatted
  | None => code
  end.

(** [generateTypesFile]: the text written to the types file. *)
Definition generateTypesFile (language : LanguageChoice)
  (schemas : JSMap.t SchemaMetadata.t) : string :=
  formatCode (typesContent schemas) language.

(** The types-file step of [generate]: the file is written for TypeScript
    only. *)
Definition typesFileOfRun (language : LanguageChoice)
  (schemas : JSMap.t SchemaMetadata.t) : option string :=
  match language with
  | typescript => Some (generateTypesFile language schemas)
  | javascript => None
  end.

End Formatting.

End CodeGenerator.

(** ** [TemplateEngine]: the registry of templates *)

Module TemplateEngine.

(** A compiled Handlebars template: the text it renders for a module, or
    [None] when rendering throws. *)
Definition HandlebarsTemplateDelegate : Type := ModuleMetadata.t -> option string.

(** What a call can throw. *)
Inductive Error : Type :=
| TemplateNotFound (library : string)   (* [Template not found for library: ...] *)
| RenderFailure                         (* thrown by the template *)
| ReadFailure (filename : string).      (* [fs.readFile] rejected *)

Inductive Outcome (A : Type) : Type :=
| Return (a : A)
| Throw (e : Error).
Arguments Return {A} a.
Arguments Throw {A} e.

(** The engine object: its one field, [templates]. *)
Record t := mk { templates : gmap string HandlebarsTemplateDelegate }.

(** [new TemplateEngine()] *)
Definition new : t := mk ∅.

(** [templateFiles] of [loadTemplates], in the order of its entries. *)
Definition templateFiles : list (string * string) :=
  [ ("zustand", "zustand.hbs");
    ("redux-toolkit", "redux-toolkit.hbs");
    ("axios-hooks", "axios-hooks.hbs");
    ("fetch-api", "fetch-api.hbs") ].

Section Engine.

(** [fs.readFile] of a file of the template directory: [None] when it
    rejects. *)
Variable readFile : string -> option string.
(** [Handlebars.compile] *)
Variable compile : string -> HandlebarsTemplateDelegate.
(** [convertToJavaScript], a text-to-text pass that cannot throw. *)
Variable convertToJavaScript : string -> string.

(** The loop of [loadTemplates] over the entries that are left: the
    engine as the loop leaves it, and what it threw, if anything. *)
Fixpoint loadEntries (entries : list (string * string)) (this : t)
  : t * option Error :=
  match entries with
  | [] => (this, None)
  | (library, filename) :: rest =>
      match readFile filename with
      | None => (this, Some (ReadFailure filename))
      | Some templateContent =>
          loadEntries rest
            (mk (<[library := compile templateContent]> (templates this)))
      end
  end.

(** [loadTemplates] *)
Definition loadTemplates (this : t) : t * option Error :=
  loadEntries templateFiles this.

(** [generateModule] *)
Definition generateModule (this : t) (module : ModuleMetadata.t)
  (library : string) (language : LanguageChoice) : Outcome string :=
  match templates this !! library with
  | None => Throw (TemplateNotFound library)
  | Some template =>
      match template module with
      | None => Throw RenderFailure
      | Some code =>
          match language with
          | javascript => Return (convertToJavaScript code)
          | typescript => Return code
          end
      end
  end.

End Engine.

End TemplateEngine.

(** ** The specification's vocabulary *)

Module Spec.
Import JS Naming.

(** The HTTP methods of an endpoint record, as [EndpointMetadata.method]
    spells them. *)
Inductive HttpMethod : Type := GET | POST | PUT | DELETE | PATCH.

Definition methodName (m : HttpMethod) : string :=
  match m with
  | GET => "GET"
  | POST => "POST"
  | PUT => "PUT"
  | DELETE => "DELETE"
  | PATCH => "PATCH"
  end.

(** The method in lower case, as the call name starts. *)
Definition methodPrefix (m : HttpMethod) : string :=
  match m with
  | GET => "get"
  | POST => "post"
  | PUT => "put"
  | DELETE => "delete"
  | PATCH => "patch"
  end.

(** [stripSuffixChar c s] is [x] when [s] is [x] followed by [c]. *)
Fixpoint stripSuffixChar (c : ascii) (s : string) : option string :=
  match s with
  | EmptyString => None
  | String d EmptyString => if Ascii.eqb d c then Some EmptyString else None
  | String d r => option_map (String d) (stripSuffixChar c r)
  end.

(** A parameter segment is an opening brace, a name [x] and a closing
    brace; [parameterOf] gives its [x]. *)
Definition parameterOf (segment : string) : option string :=
  match segment with
  | String c r => if Ascii.eqb c "{" then stripSuffixChar "}" r else None
  | EmptyString => None
  end.

(** The token of a segment: [By] and the capitalized camelCase name for a
    parameter segment, the capitalized camelCase segment for a literal. *)
Definition token (segment : string) : string :=
  match parameterOf segment with
  | Some x => "By" ++ capitalize (toCamelCase x)
  | None => capitalize (toCamelCase segment)
  end.

(** The call name as the specification words it. *)
Definition callName (m : HttpMethod) (path : string) : string :=
  methodPrefix m ++ join (map token (pathSegments path)).

(** Identifier characters (ASCII): a letter, a dollar sign or an
    underscore starts an identifier, and digits may follow. *)
Definition isLetter (c : ascii) : bool := isLowerLetter c || isUpperLetter c.

Definition isDigit (c : ascii) : bool :=
  let n := nat_of_ascii c in (48 <=? n)%nat && (n <=? 57)%nat.

Definition isIdentifierStart (c : ascii) : bool :=
  isLetter c || Ascii.eqb c "$" || Ascii.eqb c "_".

Definition isIdentifierPart (c : ascii) : bool :=
  isIdentifierStart c || isDigit c.

Fixpoint allChars (p : ascii -> bool) (s : string) : bool :=
  match s with
  | EmptyString => true
  | String c r => p c && allChars p r
  end.

(** A non-empty string that reads as one identifier name. *)
Definition identifierName (s : string) : bool :=
  match s with
  | EmptyString => false
  | String c r => isIdentifierStart c && allChars isIdentifierPart r
  end.

(** The reserved words of ECMAScript, strict mode and modules included. *)
Definition reservedWords : list string :=
  [ "await"; "break"; "case"; "catch"; "class"; "const"; "continue"; "debugger";
    "default"; "delete"; "do"; "else"; "enum"; "export"; "extends"; "false";
    "finally"; "for"; "function"; "if"; "implements"; "import"; "in";
    "instanceof"; "interface"; "let"; "new"; "null"; "package"; "private";
    "protected"; "public"; "return"; "static"; "super"; "switch"; "this";
    "throw"; "true"; "try"; "typeof"; "var"; "void"; "while"; "with"; "yield" ].

Definition isReserved (s : string) : bool := existsb (String.eqb s) reservedWords.

(** A string that can name a binding: an identifier name that is not a
    reserved word. *)
Definition identifierSafe (s : string) : bool :=
  identifierName s && negb (isReserved s).

(** Words of letters, digits and dollar signs in which every dash and
    every underscore is directly followed by a letter or a digit. *)
Fixpoint plainWord (s : string) : bool :=
  match s with
  | EmptyString => true
  | String c r =>
      if isDashOrUnderscore c then
        match r with
        | String d _ => (isLetter d || isDigit d) && plainWord r
        | EmptyString => false
        end
      else (isLetter c || isDigit c || Ascii.eqb c "$") && plainWord r
  end.

(** A segment that is a plain word, or a plain word between braces. *)
Definition plainSegment (segment : string) : bool :=
  match parameterOf segment with
  | Some x => plainWord x
  | None => plainWord segment
  end.

(** The one call name that is nothing but its method: DELETE on a path
    without segments. *)
Definition deleteWithoutSegments (m : HttpMethod) (path : string) : bool :=
  match m, pathSegments path with
  | DELETE, [] => true
  | _, _ => false
  end.

(** *** Schema nodes *)

(** A node that only refers to [target]. *)
Definition referenceTo (target : string) : Doc.Schema :=
  Doc.mkSchema (Some target) None None None None.

(** A node of type array over [items]. *)
Definition arrayOf (items : Doc.Schema) : Doc.Schema :=
  Doc.mkSchema None (Some "array") (Some items) None None.

Definition noSlash (s : string) : bool :=
  allChars (fun c => negb (Ascii.eqb c "/")) s.

(** [name] is the final path segment of [target]: what follows the last
    slash, or the whole target when it has no slash. *)
Definition finalSegmentOf (target name : string) : Prop :=
  noSlash name = true
  /\ (target = name \/ exists before, target = before ++ "/" ++ name).

(** The three places where the mapper names a schema node. *)
Definition parameterWith (schema : Doc.Schema) : Doc.Param.t :=
  Doc.Param.mk "p" "query" None (Some schema) None.

Definition requestBodyWith (schema : Doc.Schema) : Doc.RequestBody.t :=
  Doc.RequestBody.mk None
    (Some [("application/json", Doc.MediaType.mk (Some schema))]).

Definition responseWith (schema : Doc.Schema) : Doc.Response.t :=
  Doc.Response.mk None
    (Some [("application/json", Doc.MediaType.mk (Some schema))]).

(** A node that the two resolvers of the mapper name differently: not a
    reference, of type array, with items. *)
Definition arrayWithItems (schema : Doc.Schema) : bool :=
  match SwaggerMapper.truthyRef schema, Doc.items schema with
  | None, Some _ => SwaggerMapper.isArrayType schema
  | _, _ => false
  end.

(** *** Grouping *)

(** The endpoints of a document with their paths, in document order. *)
Definition endpointsOf (api : Doc.Api.t) : list (string * EndpointMetadata.t) :=
  flat_map
    (fun '(path, pathItem) =>
       match pathItem with
       | None => []
       | Some pathItem =>
           flat_map
             (fun method =>
                match Doc.PathItem.at_ pathItem method with
                | None => []
                | Some operation =>
                    [(path, SwaggerMapper.mapEndpoint path (toUpperCase method) operation)]
                end)
             SwaggerMapper.httpMethods
       end)
    (SwaggerMapper.orEmpty (Doc.Api.paths api)).

(** Every endpoint once per tag it is filed under, in document order. *)
Definition taggedEndpoints (api : Doc.Api.t) : list (string * EndpointMetadata.t) :=
  flat_map
    (fun '(path, endpoint) =>
       map (fun tag => (tag, endpoint)) (SwaggerMapper.effectiveTags path endpoint))
    (endpointsOf api).

(** Membership of a tag in a filter. *)
Definition selects (filter : list string) (tag : string) : bool :=
  existsb (String.eqb tag) filter.

(** The distinct strings of a list, in the order of their first
    appearance. *)
Definition distinct (l : list string) : list string :=
  fold_left JSSet.add l [].

(** The endpoints filed under [tag], in document order. *)
Definition endpointsTagged (api : Doc.Api.t) (tag : string) : list EndpointMetadata.t :=
  map snd (List.filter (fun '(t, _) => String.eqb t tag) (taggedEndpoints api)).

(** Filing an endpoint under a tag: at the end of the tag's module, or as a
    new last module. *)
Fixpoint fileUnder (moduleMap : JSMap.t (list EndpointMetadata.t)) (tag : string)
  (endpoint : EndpointMetadata.t) : JSMap.t (list EndpointMetadata.t) :=
  match moduleMap with
  | [] => [(tag, [endpoint])]
  | (tag', endpoints) :: rest =>
      if String.eqb tag' tag then (tag', (endpoints ++ [endpoint])%list) :: rest
      else (tag', endpoints) :: fileUnder rest tag endpoint
  end.

(** One step of the grouping, on an endpoint paired with one of its tags. *)
Definition fileStep (selectedTags : option (list string))
  (moduleMap : JSMap.t (list EndpointMetadata.t))
  (entry : string * EndpointMetadata.t) : JSMap.t (list EndpointMetadata.t) :=
  SwaggerMapper.addToModule selectedTags (snd entry) moduleMap (fst entry).

(** The entries of a map whose key passes a test. *)
Definition keepKeys {V} (test : string -> bool) (m : JSMap.t V) : JSMap.t V :=
  List.filter (fun entry => test (fst entry)) m.

(** The module that [mapToModules] makes of a tag, given the catalog. *)
Definition moduleOf (this : SwaggerMapper.t) (api : Doc.Api.t) (tag : string)
  : ModuleMetadata.t :=
  {| ModuleMetadata.moduleName := SwaggerMapper.tagToModuleName tag;
     ModuleMetadata.tag := tag;
     ModuleMetadata.endpoints := endpointsTagged api tag;
     ModuleMetadata.schemas :=
       SwaggerMapper.getSchemasForModule this (endpointsTagged api tag) |}.

(** A run of slashes. *)
Fixpoint slashes (n : nat) : string :=
  match n with
  | O => EmptyString
  | S n => String "/" (slashes n)
  end.

(** *** Referenced schemas *)

(** A run of array suffixes. *)
Fixpoint arraySuffixes (s : string) : bool :=
  match s with
  | EmptyString => true
  | String c (String d r) => Ascii.eqb c "[" && Ascii.eqb d "]" && arraySuffixes r
  | String _ EmptyString => false
  end.

(** The base name of a type name: the name without its array suffixes. *)
Fixpoint baseName (typeName : string) : string :=
  match typeName with
  | EmptyString => EmptyString
  | String c r =>
      if arraySuffixes typeName then EmptyString else String c (baseName r)
  end.

(** The schema type names of an endpoint: its request body's, then its
    responses'. *)
Definition schemaRefs (endpoint : EndpointMetadata.t) : list string :=
  (match EndpointMetadata.requestBody endpoint with
   | Some requestBody => [RequestBodyMetadata.schema requestBody]
   | None => []
   end
   ++ flat_map
        (fun response =>
           match ResponseMetadata.schema response with
           | Some schema => [schema]
           | None => []
           end)
        (EndpointMetadata.responses endpoint))%list.

(** *** The types file *)

(** The names a record requires; none when [required] is absent. *)
Definition requiredSet (schema : SchemaMetadata.t) : list string :=
  match SchemaMetadata.required schema with
  | Some required => required
  | None => []
  end.

(** One property of a declaration: optional exactly when its name is not
    required. *)
Definition propertyLine (schema : SchemaMetadata.t)
  (property : string * Doc.Schema) : string :=
  "  " ++ fst property
  ++ (if existsb (String.eqb (fst property)) (requiredSet schema) then "" else "?")
  ++ ": " ++ CodeGenerator.getTypeScriptType (Some (snd property)) ++ ";"
  ++ CodeGenerator.LF.

(** The declaration of one record. *)
Definition declaration (entry : string * SchemaMetadata.t) : string :=
  "export interface " ++ fst entry ++ " {" ++ CodeGenerator.LF
  ++ join (map (propertyLine (snd entry)) (SchemaMetadata.properties (snd entry)))
  ++ "}" ++ CodeGenerator.LF ++ CodeGenerator.LF.

(** The types file that declares the records [records], one each. *)
Definition typesFileDeclaring (records : list (string * SchemaMetadata.t)) : string :=
  "// Auto-generated type definitions" ++ CodeGenerator.LF ++ CodeGenerator.LF
  ++ join (map declaration records).

(** The records that the modules reference, each once, by name. *)
Definition referencedRecords (modules : list ModuleMetadata.t)
  : list (string * SchemaMetadata.t) :=
  fold_left
    (fun seen record =>
       if JSMap.has seen (SchemaMetadata.name record) then seen
       else (seen ++ [(SchemaMetadata.name record, record)])%list)
    (flat_map ModuleMetadata.schemas modules) [].

(** *** Template errors *)

(** The call threw the error of a library without a template. *)
Definition isUnknownLibrary (outcome : TemplateEngine.Outcome string) : bool :=
  match outcome with
  | TemplateEngine.Throw (TemplateEngine.TemplateNotFound _) => true
  | _ => false
  end.

(** The four library choices. *)
Definition supportedLibraries : list string :=
  ["zustand"; "redux-toolkit"; "axios-hooks"; "fetch-api"].

End Spec.


(** ** Documents used as examples *)

Module Examples.

(** An operation that declares tags and, for status 200, a JSON response
    with the given schema. *)
Definition operationReturning (tags : option (list string)) (schema : option Doc.Schema)
  : Doc.Operation.t :=
  Doc.Operation.mk None None None None None
    (match schema with
     | Some schema => Some [("200", Spec.responseWith schema)]
     | None => None
     end)
    tags.

(** A path item with a GET operation only. *)
Definition getOnly (operation : Doc.Operation.t) : Doc.PathItem.t :=
  Doc.PathItem.mk (Some operation) None None None None.

(** One schema T; GET /items returns an array of arrays of T. *)
Definition nestedArrayApi : Doc.Api.t :=
  Doc.Api.mk
    (Some [("/items",
            Some (getOnly
                    (operationReturning (Some ["Items"])
                       (Some (Spec.arrayOf
                                (Spec.arrayOf
                                   (Spec.referenceTo "#/components/schemas/T")))))))])
    (Some (Doc.Components.mk
             (Some [("T", Doc.mkSchema None (Some "object") None None None)])))
    None.

(** The same with an array of T. *)
Definition arrayApi : Doc.Api.t :=
  Doc.Api.mk
    (Some [("/items",
            Some (getOnly
                    (operationReturning (Some ["Items"])
                       (Some (Spec.arrayOf
                                (Spec.referenceTo "#/components/schemas/T"))))))])
    (Some (Doc.Components.mk
             (Some [("T", Doc.mkSchema None (Some "object") None None None)])))
    None.

(** One schema that no operation refers to; GET /ping returns nothing. *)
Definition unusedSchemaApi : Doc.Api.t :=
  Doc.Api.mk
    (Some [("/ping", Some (getOnly (operationReturning None None)))])
    (Some (Doc.Components.mk
             (Some [("Unused",
                     Doc.mkSchema None (Some "object") None
                       (Some [("id", Doc.mkSchema None (Some "integer") None None None)])
                       None)])))
    None.

(** GET /users/{id} tagged Users and returning User; POST /products without
    tags. *)
Definition shopApi : Doc.Api.t :=
  Doc.Api.mk
    (Some [("/users/{id}",
            Some (getOnly
                    (operationReturning (Some ["Users"])
                       (Some (Spec.referenceTo "#/components/schemas/User")))));
           ("/products",
            Some (Doc.PathItem.mk None (Some (operationReturning None None))
                    None None None))])
    (Some (Doc.Components.mk
             (Some [("User", Doc.mkSchema None (Some "object") None None None)])))
    None.

End Examples.

(** ** The words of a name, as the specification has them *)

Module Words.
Import JS.

(** The two boundaries between the words of a name. *)
Inductive Separator : Type := Hyphen | Underscore.

Definition separatorChar (s : Separator) : ascii :=
  match s with
  | Hyphen => "-"
  | Underscore => "_"
  end.


(** A name in words: a first word, and the words that each follow a
    boundary. *)
Record Name := mkName {
    first : string;
    others : list (Separator * string)
  }.

(** The name as it is written in a path. *)
Fixpoint joined (first : string) (others : list (Separator * string)) : string :=
  match others with
  | [] => first
  | (s, w) :: others => first ++ String (separatorChar s) (joined w others)
  end.

Definition text (name : Name) : string := joined (first name) (others name).


(** A word with its first letter in upper case. *)
Definition upperFirst (w : string) : string :=
  match w with
  | EmptyString => EmptyString
  | String c r => String (upperChar c) r
  end.

(** The capitalized camelCase form of a name: its words, each with its first
    letter in upper case, with nothing between them. *)
Definition capitalizedCamelCase (name : Name) : string :=
  upperFirst (first name)
  ++ fold_right String.append EmptyString
       (map (fun '(_, w) => upperFirst w) (others name)).

(** A segment of a path template: a literal name, or a parameter, which is
    a name between braces. *)
Inductive Segment : Type :=
| Literal (name : Name)
| PathParameter (name : Name).



(** The token of a segment in a call name. *)
Definition segmentToken (segment : Segment) : string :=
  match segment with
  | Literal name => capitalizedCamelCase name
  | PathParameter name => "By" ++ capitalizedCamelCase name
  end.


(** The call name of a method and the segments of a template. *)
Definition callName (m : Spec.HttpMethod) (segments : list (nat * Segment)) : string :=
  Spec.methodPrefix m
  ++ fold_right String.append EmptyString
       (map (fun '(_, segment) => segmentToken segment) segments).

(** A string with its braces taken out: the characters that are not a brace,
    in their order. *)
Definition isBrace (c : ascii) : bool := Ascii.eqb c "{" || Ascii.eqb c "}".

Definition withoutBraces (s : string) : string :=
  string_of_list_ascii
    (List.filter (fun c => negb (isBrace c)) (list_ascii_of_string s)).

End Words.


(** ** [SwaggerParserService]: the tags offered for selection *)

Module SwaggerParserService.

(** [Array.prototype.sort()] without a comparator orders strings by their
    code units.  The strings sorted here are the members of a set, so they
    are distinct and every correct sort returns the same list; it is computed
    by insertion. *)
Fixpoint insertSorted (x : string) (sorted : list string) : list string :=
  match sorted with
  | [] => [x]
  | y :: rest => if String.leb x y then x :: sorted else y :: insertSorted x rest
  end.

Definition sort (l : list string) : list string := fold_right insertSorted [] l.

(** [extractTags] *)
Definition extractTags (api : Doc.Api.t) : list string :=
  let tags :=
    match Doc.Api.paths api with
    | None => []
    | Some paths =>
        fold_left
          (fun (tags : JSSet.t) '(_, pathItem) =>
             match pathItem with
             | None => tags
             | Some pathItem =>
                 fold_left
                   (fun (tags : JSSet.t) method =>
                      match Doc.PathItem.at_ pathItem method with
                      | Some operation =>
                          match Doc.Operation.tags operation with
                          | Some operationTags => fold_left JSSet.add operationTags tags
                          | None => tags
                          end
                      | None => tags
                      end)
                   SwaggerMapper.httpMethods tags
             end)
          paths ([] : JSSet.t)
    end in
  sort tags.

End SwaggerParserService.

(** ** [initCommand]: which tags reach the mapper *)

Module InitCommand.

(** [selectionMode] of the wizard's answers. *)
Inductive SelectionMode : Type := generateAll | selective.

Section Run.

(** [runTagSelection]: the tags the user ticks among the ones offered. *)
Variable runTagSelection : list string -> list string.

(** [finalAnswers.selectedTags]: the wizard leaves it undefined, and the tag
    selection runs in selective mode when there are tags to offer. *)
Definition selectedTags (selectionMode : SelectionMode) (api : Doc.Api.t)
  : option (list string) :=
  let availableTags := SwaggerParserService.extractTags api in
  match selectionMode with
  | selective =>
      if (0 <? length availableTags)%nat then Some (runTagSelection availableTags)
      else None
  | generateAll => None
  end.

(** Step 3 of [initCommand]: the modules of a fresh mapper. *)
Definition modules (selectionMode : SelectionMode) (api : Doc.Api.t)
  : list ModuleMetadata.t :=
  snd (SwaggerMapper.mapToModules SwaggerMapper.new api (selectedTags selectionMode api)).

End Run.

End InitCommand.

(** ** File and folder names *)

Module Output.
Import JS.

(** [TemplateEngine.getFileExtension] *)
Definition getFileExtension (language : LanguageChoice) : string :=
  match language with
  | typescript => ".ts"
  | javascript => ".js"
  end.

(** [moduleName.charAt(0).toLowerCase() + moduleName.slice(1)] *)
Definition lowerFirst (moduleName : string) : string :=
  toLowerCase (charAt0 moduleName) ++ sliceFrom moduleName 1.

(** [TemplateEngine.getModuleFileName] *)
Definition getModuleFileName (moduleName library : string) (language : LanguageChoice)
  : string :=
  let ext := getFileExtension language in
  if String.eqb library "zustand" then "use" ++ moduleName ++ "Store" ++ ext
  else if String.eqb library "redux-toolkit" then lowerFirst moduleName ++ "Slice" ++ ext
  else if String.eqb library "axios-hooks" || String.eqb library "fetch-api"
       then "use" ++ moduleName ++ ext
  else moduleName ++ ext.

(** [fileName] of [CodeGenerator.generateIndexFile]: the module's file name
    after [.replace(ext, '')]. *)
Definition indexFileName (moduleName library : string) (language : LanguageChoice)
  : string :=
  SwaggerMapper.replaceFirst (getModuleFileName moduleName library language)
    (getFileExtension language) "".

(** The class [[\s_]] of [toKebabCase]: white space (ASCII) and underscore. *)
Definition isSpaceOrUnderscore (c : ascii) : bool :=
  let n := nat_of_ascii c in
  ((9 <=? n)%nat && (n <=? 13)%nat) || Ascii.eqb c " " || Ascii.eqb c "_".

(** [str.replace(/([a-z])([A-Z])/g, '$1-$2')]: a dash between a lower-case
    letter and the upper-case letter that follows it. *)
Fixpoint dashBetweenCases (str : string) : string :=
  match str with
  | EmptyString => EmptyString
  | String c r =>
      match r with
      | String d r' =>
          if isLowerLetter c && isUpperLetter d
          then String c (String "-" (String d (dashBetweenCases r')))
          else String c (dashBetweenCases r)
      | EmptyString => String c EmptyString
      end
  end.

(** [str.replace(/[\s_]+/g, '-')]: one dash for each maximal run;
    [inRun] says that the previous character was in the class. *)
Fixpoint dashForRuns (inRun : bool) (str : string) : string :=
  match str with
  | EmptyString => EmptyString
  | String c r =>
      if isSpaceOrUnderscore c then
        if inRun then dashForRuns true r else String "-" (dashForRuns true r)
      else String c (dashForRuns false r)
  end.

(** [CodeGenerator.toKebabCase] *)
Definition toKebabCase (str : string) : string :=
  toLowerCase (dashForRuns false (dashBetweenCases str)).

End Output.

(** ** The helpers registered for the templates *)

Module Helpers.
Import JS.

(** The test of [responses.find] in the helper [getResponseType]. *)
Definition isSuccess (r : ResponseMetadata.t) : bool :=
  String.eqb (ResponseMetadata.statusCode r) "200"
  || String.eqb (ResponseMetadata.statusCode r) "201".

(** The helper [getResponseType]; [None] is an absent argument. *)
Definition getResponseType (responses : option (list ResponseMetadata.t)) : string :=
  match responses with
  | None => "any"
  | Some responses =>
      if (length responses =? 0)%nat then "any"
      else
        match find isSuccess responses with
        | Some successResponse =>
            SwaggerMapper.orDefault (ResponseMetadata.schema successResponse) "any"
        | None => "any"
        end
  end.

(** The helper [lowerCase] *)
Definition lowerCase (str : string) : string :=
  toLowerCase (charAt0 str) ++ sliceFrom str 1.

(** The helper [capitalize] *)
Definition capitalize (str : string) : string :=
  toUpperCase (charAt0 str) ++ sliceFrom str 1.

End Helpers.

(** ** [CodeGenerator.generate]: the calls of a run on the file system *)

Module Generate.
Import JS Output.

(** The answers of the wizard that the generator reads. *)
Module WizardAnswers.
Record t := mk {
    library : string;
    language : LanguageChoice;
    outputDirectory : string
  }.
End WizardAnswers.

(** [GenerationContext] *)
Module GenerationContext.
Record t := mk {
    answers : WizardAnswers.t;
    modules : list ModuleMetadata.t;
    schemas : JSMap.t SchemaMetadata.t
  }.
End GenerationContext.

(** A path below the output directory: the components that [path.join] is
    given after [outputDir], none for the output directory itself. *)
Definition Path : Type := list string.

(** The calls that [generate] awaits on [fs]. *)
Inductive FsCall : Type :=
| EnsureDir (path : Path)
| WriteFile (path : Path) (content : string).

(** What [generate] can throw: what the template engine threw, or the
    rejection of a call on [fs]. *)
Inductive Thrown : Type :=
| TemplateError (e : TemplateEngine.Error)
| FsError (call : FsCall).

(** [answers.language] in a template literal. *)
Definition languageName (language : LanguageChoice) : string :=
  match language with
  | typescript => "typescript"
  | javascript => "javascript"
  end.

(** A number in a template literal: its decimal digits. *)
Fixpoint digits (fuel n : nat) (acc : string) : string :=
  match fuel with
  | O => acc
  | S fuel =>
      let acc := String (ascii_of_nat (48 + n mod 10)) acc in
      if (n / 10 =? 0)%nat then acc else digits fuel (n / 10) acc
  end.

Definition decimal (n : nat) : string := digits (S n) n EmptyString.

(** [modules[0]?.moduleName] in a template literal: an undefined value
    prints as [undefined]. *)
Definition firstModuleName (modules : list ModuleMetadata.t) : string :=
  match modules with
  | m :: _ => ModuleMetadata.moduleName m
  | [] => "undefined"
  end.

(** [modules[0]?.endpoints[0]?.functionName] in a template literal. *)
Definition firstFunctionName (modules : list ModuleMetadata.t) : string :=
  match modules with
  | m :: _ =>
      match ModuleMetadata.endpoints m with
      | e :: _ => EndpointMetadata.functionName e
      | [] => "undefined"
      end
  | [] => "undefined"
  end.

(** [modules[0]?.moduleName.charAt(0).toLowerCase() +
    modules[0]?.moduleName.slice(1)] in a template literal: the sum of two
    undefined values prints as [NaN]. *)
Definition firstModuleNameLowerFirst (modules : list ModuleMetadata.t) : string :=
  match modules with
  | m :: _ => lowerFirst (ModuleMetadata.moduleName m)
  | [] => "NaN"
  end.

(** [modules[0]?.endpoints[0]?.functionName.charAt(0).toUpperCase() +
    modules[0]?.endpoints[0]?.functionName.slice(1)] in a template
    literal. *)
Definition firstFunctionNameCapitalized (modules : list ModuleMetadata.t) : string :=
  match modules with
  | m :: _ =>
      match ModuleMetadata.endpoints m with
      | e :: _ =>
          toUpperCase (charAt0 (EndpointMetadata.functionName e))
          ++ sliceFrom (EndpointMetadata.functionName e) 1
      | [] => "NaN"
      end
  | [] => "NaN"
  end.

(** [answers.library === 'fetch-api' ? ', execute' : ''] *)
Definition executeBinding (library : string) : string :=
  if String.eqb library "fetch-api" then ", execute" else "".

(** The effect that the hook example shows for [fetch-api] only. *)
Definition executeEffect (library : string) : string :=
  let LF := CodeGenerator.LF in
  if String.eqb library "fetch-api"
  then "useEffect(() => {" ++ LF ++ "    execute();" ++ LF ++ "  }, []);"
  else "".

(** [lines.join('\n')] *)
Fixpoint joinLines (lines : list string) : string :=
  match lines with
  | [] => EmptyString
  | [line] => line
  | line :: rest => line ++ CodeGenerator.LF ++ joinLines rest
  end.

(** [readme] of [generateReadme]. *)
Definition readme (answers : WizardAnswers.t) (modules : list ModuleMetadata.t)
  : string :=
  let library := WizardAnswers.library answers in
  let language := WizardAnswers.language answers in
  let LF := CodeGenerator.LF in
  let readme :=
    "# API Modules" ++ LF ++ LF ++
    "Auto-generated API modules from Swagger/OpenAPI specification." ++ LF ++ LF ++
    "## Configuration" ++ LF ++ LF ++ "- **Library**: " ++ library ++ LF ++
    "- **Language**: " ++ languageName language ++ LF ++ "- **Generated Modules**: " ++
    decimal (length modules) ++ LF ++ LF ++ "## Usage" ++ LF ++ LF in
  let readme :=
    if String.eqb library "zustand" then
      readme ++
      "### Zustand Store Example" ++ LF ++ LF ++ "```" ++ languageName language ++ LF ++
      "import { use" ++ firstModuleName modules ++ "Store } from './api';" ++ LF ++ LF ++
      "function MyComponent() {" ++ LF ++ "  const { data, loading, error, " ++
      firstFunctionName modules ++ " } = use" ++ firstModuleName modules ++
      "Store();" ++ LF ++ LF ++ "  useEffect(() => {" ++ LF ++ "    " ++
      firstFunctionName modules ++ "();" ++ LF ++ "  }, []);" ++ LF ++ LF ++
      "  if (loading) return <div>Loading...</div>;" ++ LF ++
      "  if (error) return <div>Error: {error}</div>;" ++ LF ++ LF ++
      "  return <div>{JSON.stringify(data)}</div>;" ++ LF ++ "}" ++ LF ++ "```" ++ LF
    else if String.eqb library "redux-toolkit" then
      readme ++
      "### Redux Toolkit Example" ++ LF ++ LF ++ "```" ++ languageName language ++ LF ++
      "import { " ++ firstFunctionName modules ++ " } from './api';" ++ LF ++
      "import { useDispatch, useSelector } from 'react-redux';" ++ LF ++ LF ++
      "function MyComponent() {" ++ LF ++ "  const dispatch = useDispatch();" ++ LF ++
      "  const { data, loading, error } = useSelector((state) => state." ++
      firstModuleNameLowerFirst modules ++ ");" ++ LF ++ LF ++ "  useEffect(() => {" ++
      LF ++ "    dispatch(" ++ firstFunctionName modules ++ "());" ++ LF ++
      "  }, []);" ++ LF ++ LF ++ "  if (loading) return <div>Loading...</div>;" ++ LF ++
      "  if (error) return <div>Error: {error}</div>;" ++ LF ++ LF ++
      "  return <div>{JSON.stringify(data)}</div>;" ++ LF ++ "}" ++ LF ++ "```" ++ LF
    else if String.eqb library "axios-hooks" || String.eqb library "fetch-api" then
      readme ++
      "### Hook Example" ++ LF ++ LF ++ "```" ++ languageName language ++ LF ++
      "import { use" ++ firstFunctionNameCapitalized modules ++ " } from './api';" ++
      LF ++ LF ++ "function MyComponent() {" ++ LF ++ "  const { data, loading, error" ++
      executeBinding library ++ " } = use" ++ firstFunctionNameCapitalized modules ++
      "();" ++ LF ++ LF ++ "  " ++ executeEffect library ++
      LF ++ LF ++ "  if (loading) return <div>Loading...</div>;" ++ LF ++
      "  if (error) return <div>Error: {error}</div>;" ++ LF ++ LF ++
      "  return <div>{JSON.stringify(data)}</div>;" ++ LF ++ "}" ++ LF ++ "```" ++ LF
    else readme in
  readme ++
  LF ++ "## Environment Variables" ++ LF ++ LF ++
  "Make sure to set your API base URL:" ++ LF ++ LF ++ "```" ++ LF ++
  "REACT_APP_API_BASE_URL=https://your-api-url.com" ++ LF ++ "```" ++ LF ++ LF ++
  "## Modules" ++ LF ++ LF ++
  joinLines
    (map (fun m =>
            "- **" ++ ModuleMetadata.moduleName m ++ "**: "
            ++ decimal (length (ModuleMetadata.endpoints m)) ++ " endpoint(s)")
         modules) ++
  LF ++ LF ++ "---" ++ LF ++ LF ++
  "Generated by [rapid-front](https://github.com/yourusername/rapid-front)" ++ LF.

(** [indexContent] of [generateIndexFile] before formatting. *)
Definition indexContent (answers : WizardAnswers.t) (modules : list ModuleMetadata.t)
  : string :=
  let library := WizardAnswers.library answers in
  let language := WizardAnswers.language answers in
  let LF := CodeGenerator.LF in
  let indexContent :=
    fold_left
      (fun indexContent module =>
         let moduleName := ModuleMetadata.moduleName module in
         let folderName := toKebabCase moduleName in
         let fileName := indexFileName moduleName library language in
         let modulePath := "./" ++ folderName ++ "/" ++ fileName in
         if String.eqb library "zustand" then
           indexContent ++ "export { use" ++ moduleName ++ "Store } from '"
             ++ modulePath ++ "';" ++ LF
         else if String.eqb library "redux-toolkit" then
           let indexContent :=
             indexContent ++ "export { default as " ++ lowerFirst moduleName
               ++ "Reducer } from '" ++ modulePath ++ "';" ++ LF in
           indexContent ++ "export * from '" ++ modulePath ++ "';" ++ LF
         else if String.eqb library "axios-hooks" || String.eqb library "fetch-api" then
           indexContent ++ "export * from '" ++ modulePath ++ "';" ++ LF
         else indexContent)
      modules ("// Auto-generated index file" ++ LF ++ LF) in
  match language with
  | typescript => indexContent ++ LF ++ "export * from './types';" ++ LF
  | javascript => indexContent
  end.

Section Run.

(** The state of the file system, and the two calls of [fs] that [generate]
    awaits: the state after the call, or [None] when the call rejects. *)
Variable FS : Type.
Variable ensureDir : Path -> FS -> option FS.
Variable writeFile : Path -> string -> FS -> option FS.

Variable prettierFormat : string -> string -> option string.
Variable convertToJavaScript : string -> string.

(** [this.templateEngine], as [initialize] left it. *)
Variable templateEngine : TemplateEngine.t.

(** A run so far: the file system, and the calls on it that resolved, in
    their order. *)
Record World := mkWorld {
    fs : FS;
    calls : list FsCall
  }.

(** How an asynchronous step ends: it resolves, or it rejects with what was
    thrown, the calls that resolved before being kept for the record. *)
Inductive Result (A : Type) : Type :=
| Resolved (a : A) (world : World)
| Rejected (e : Thrown) (done : list FsCall).
Arguments Resolved {A} a world.
Arguments Rejected {A} e done.

(** An asynchronous step. *)
Definition M (A : Type) : Type := World -> Result A.

#[local] Instance M_ret : MRet M := fun A a world => Resolved a world.

#[local] Instance M_bind : MBind M :=
  fun A B f m world =>
    match m world with
    | Resolved a world => f a world
    | Rejected e done => Rejected e done
    end.

Definition throw {A} (e : Thrown) : M A := fun world => Rejected e (calls world).

Definition perform (call : FsCall) (files : FS) : option FS :=
  match call with
  | EnsureDir path => ensureDir path files
  | WriteFile path content => writeFile path content files
  end.

(** [await] of a call on [fs]. *)
Definition await (call : FsCall) : M unit :=
  fun world =>
    match perform call (fs world) with
    | Some files => Resolved tt (mkWorld files (calls world ++ [call])%list)
    | None => Rejected (FsError call) (calls world)
    end.

(** [for (const x of l) await body(x)] *)
Fixpoint forEach {A} (l : list A) (body : A -> M unit) : M unit :=
  match l with
  | [] => mret tt
  | x :: rest => body x ;; forEach rest body
  end.

(** [CodeGenerator.generateModule] *)
Definition generateModule (module : ModuleMetadata.t) (context : GenerationContext.t)
  : M unit :=
  let answers := GenerationContext.answers context in
  match
    TemplateEngine.generateModule convertToJavaScript templateEngine module
      (WizardAnswers.library answers) (WizardAnswers.language answers)
  with
  | TemplateEngine.Throw e => throw (TemplateError e)
  | TemplateEngine.Return code =>
      let code :=
        CodeGenerator.formatCode prettierFormat code (WizardAnswers.language answers) in
      let fileName :=
        getModuleFileName (ModuleMetadata.moduleName module)
          (WizardAnswers.library answers) (WizardAnswers.language answers) in
      let folderName := toKebabCase (ModuleMetadata.moduleName module) in
      await (EnsureDir [folderName]) ;;
      await (WriteFile [folderName; fileName] code)
  end.

(** [generateIndexFile] *)
Definition generateIndexFile (modules : list ModuleMetadata.t)
  (context : GenerationContext.t) : M unit :=
  let answers := GenerationContext.answers context in
  let ext := getFileExtension (WizardAnswers.language answers) in
  let indexContent :=
    CodeGenerator.formatCode prettierFormat (indexContent answers modules)
      (WizardAnswers.language answers) in
  await (WriteFile ["index" ++ ext] indexContent).

(** [generateTypesFile] *)
Definition generateTypesFile (context : GenerationContext.t) : M unit :=
  let answers := GenerationContext.answers context in
  let ext := getFileExtension (WizardAnswers.language answers) in
  await
    (WriteFile ["types" ++ ext]
       (CodeGenerator.generateTypesFile prettierFormat (WizardAnswers.language answers)
          (GenerationContext.schemas context))).

(** [generateReadme] *)
Definition generateReadme (context : GenerationContext.t) : M unit :=
  await
    (WriteFile ["README.md"]
       (readme (GenerationContext.answers context) (GenerationContext.modules context))).

(** [generate]: what it throws is thrown again by its [catch]. *)
Definition generate (context : GenerationContext.t) : M unit :=
  let answers := GenerationContext.answers context in
  let modules := GenerationContext.modules context in
  await (EnsureDir []) ;;
  forEach modules (fun module => generateModule module context) ;;
  generateIndexFile modules context ;;
  match WizardAnswers.language answers with
  | typescript => generateTypesFile context
  | javascript => mret tt
  end ;;
  generateReadme context.

(** *** The calls of a run in which nothing rejects *)

(** What the template engine gives for a module. *)
Definition render (module : ModuleMetadata.t) (context : GenerationContext.t)
  : TemplateEngine.Outcome string :=
  TemplateEngine.generateModule convertToJavaScript templateEngine module
    (WizardAnswers.library (GenerationContext.answers context))
    (WizardAnswers.language (GenerationContext.answers context)).

(** Every module of [modules] renders. *)
Definition allRender (context : GenerationContext.t) (modules : list ModuleMetadata.t)
  : Prop :=
  forall module,
    In module modules -> exists code, render module context = TemplateEngine.Return code.

(** The calls for a module that rendered [code]: its folder, then its
    file with the formatted code. *)
Definition moduleCalls (module : ModuleMetadata.t) (context : GenerationContext.t)
  (code : string) : list FsCall :=
  let answers := GenerationContext.answers context in
  let folderName := toKebabCase (ModuleMetadata.moduleName module) in
  [ EnsureDir [folderName];
    WriteFile
      [folderName;
       getModuleFileName (ModuleMetadata.moduleName module)
         (WizardAnswers.library answers) (WizardAnswers.language answers)]
      (CodeGenerator.formatCode prettierFormat code (WizardAnswers.language answers)) ].

(** The calls for the modules of a list that render, in the order of the
    list. *)
Definition renderedCalls (context : GenerationContext.t)
  (modules : list ModuleMetadata.t) : list FsCall :=
  flat_map
    (fun module =>
       match render module context with
       | TemplateEngine.Return code => moduleCalls module context code
       | TemplateEngine.Throw _ => []
       end)
    modules.

(** The calls after the modules: the index file, for TypeScript the types
    file, and the README. *)
Definition closingCalls (context : GenerationContext.t) : list FsCall :=
  let answers := GenerationContext.answers context in
  let modules := GenerationContext.modules context in
  let ext := getFileExtension (WizardAnswers.language answers) in
  [ WriteFile ["index" ++ ext]
      (CodeGenerator.formatCode prettierFormat (indexContent answers modules)
         (WizardAnswers.language answers)) ]
  ++ match WizardAnswers.language answers with
     | typescript =>
         [ WriteFile ["types" ++ ext]
             (CodeGenerator.generateTypesFile prettierFormat
                (WizardAnswers.language answers) (GenerationContext.schemas context)) ]
     | javascript => []
     end
  ++ [ WriteFile ["README.md"] (readme answers modules) ].

(** All the calls of a run in which no module throws and no call
    rejects. *)
Definition allCalls (context : GenerationContext.t) : list FsCall :=
  EnsureDir []
  :: renderedCalls context (GenerationContext.modules context) ++ closingCalls context.

End Run.

Arguments Resolved {FS A} a world.
Arguments Rejected {FS A} e done.

End Generate.

(** ** Vocabulary of the further properties *)

Module Props.
Import JS.

(** No [$ref] on a node or on the items below it. *)
Fixpoint referenceFree (schema : Doc.Schema) : bool :=
  match SwaggerMapper.truthyRef schema with
  | Some _ => false
  | None =>
      match Doc.items schema with
      | Some items => referenceFree items
      | None => true
      end
  end.

(** Every record of a catalog is stored under its own name. *)
Definition keyedByName (catalog : JSMap.t SchemaMetadata.t) : Prop :=
  forall name record, In (name, record) catalog -> SchemaMetadata.name record = name.

(** [l] starts with [prefix]. *)
Definition startsWithList {A} (prefix l : list A) : Prop :=
  exists rest, l = (prefix ++ rest)%list.

(** The method strings of endpoint records. *)
Definition methodNames : list string := ["GET"; "POST"; "PUT"; "DELETE"; "PATCH"].

Definition noDot (s : string) : bool :=
  Spec.allChars (fun c => negb (Ascii.eqb c ".")) s.

(** A string of ASCII characters: every code unit is below 128.  On such
    strings [toUpperCase] and [toLowerCase] of the source move the 26 letters
    and nothing else. *)
Definition sevenBit (s : string) : bool :=
  Spec.allChars (fun c => (nat_of_ascii c <? 128)%nat) s.

(** A character that [toKebabCase] leaves in place. *)
Definition kebabChar (c : ascii) : bool :=
  negb (isUpperLetter c) && negb (Output.isSpaceOrUnderscore c).

(** A character that is not a separator of [tagToModuleName]. *)
Definition wordChar (c : ascii) : bool := negb (SwaggerMapper.isTagSeparator c).

(** The names that [getSchemasForModule] looks up and finds, in the order
    of their first appearance. *)
Definition foundNames (this : SwaggerMapper.t) (endpoints : list EndpointMetadata.t)
  : list string :=
  Spec.distinct
    (List.filter (JSMap.has (SwaggerMapper.schemas this))
       (map (fun schema => SwaggerMapper.replaceFirst schema "[]" "")
          (List.filter JS.truthy (flat_map Spec.schemaRefs endpoints)))).

(** Strictly ascending in the order of [String.compare], the order of the
    code units. *)
Fixpoint ascending (l : list string) : bool :=
  match l with
  | [] => true
  | x :: rest =>
      match rest with
      | [] => true
      | y :: _ => String.ltb x y
      end && ascending rest
  end.

(** The tags that the operations of a document declare, in document order. *)
Definition declaredTags (api : Doc.Api.t) : list string :=
  flat_map (fun '(_, endpoint) => EndpointMetadata.tags endpoint) (Spec.endpointsOf api).

End Props.

(** * Theorems *)

(** ** Facts about strings *)

Section StringFacts.
Import JS.
#[local] Arguments String.append : simpl nomatch.

Lemma append_nil_r (s : string) : s ++ "" = s.
Proof. induction s as [|c s IH]; simpl; [reflexivity | now rewrite IH]. Qed.

Lemma append_assoc (a b c : string) : (a ++ b) ++ c = a ++ (b ++ c).
Proof. induction a as [|x a IH]; simpl; [reflexivity | now rewrite IH]. Qed.

Lemma length_append (a b : string) :
  String.length (a ++ b) = String.length a + String.length b.
Proof. induction a as [|x a IH]; simpl; [reflexivity | now rewrite IH]. Qed.

Lemma substring_whole (s : string) : substring 0 (String.length s) s = s.
Proof. induction s as [|c s IH]; simpl; [reflexivity | now rewrite IH]. Qed.

Lemma substring_front (x y : string) : substring 0 (String.length x) (x ++ y) = x.
Proof.
  induction x as [|c x IH]; simpl.
  - now destruct y.
  - now rewrite IH.
Qed.

Lemma substring_past (x y : string) (n : nat) :
  substring (String.length x) n (x ++ y) = substring 0 n y.
Proof. induction x as [|c x IH]; simpl; [reflexivity | exact IH]. Qed.

(** A string is empty or ends in a character. *)
Lemma snoc_cases (s : string) :
  s = "" \/ exists x d, s = x ++ String d "".
Proof.
  induction s as [|c s IH]; [now left | right].
  destruct IH as [-> | (x & d & ->)].
  - now exists "", c.
  - now exists (String c x), d.
Qed.

Lemma sliceFrom_cons (c : ascii) (r : string) : sliceFrom (String c r) 1 = r.
Proof.
  unfold sliceFrom, slice, sliceIndex.
  set (len := Z.of_nat (String.length (String c r))).
  assert (Hlen : len = (Z.of_nat (String.length r) + 1)%Z) by (subst len; simpl; lia).
  replace (1 <? 0)%Z with false by reflexivity.
  destruct (len <? 0)%Z eqn:E; [lia|].
  replace (Z.to_nat (Z.min 1 len)) with 1 by lia.
  replace (Z.to_nat (Z.max (Z.min len len - Z.min 1 len) 0)) with (String.length r) by lia.
  simpl. apply substring_whole.
Qed.

Lemma slice_inner (c d : ascii) (x : string) :
  slice (String c (x ++ String d "")) 1 (-1) = x.
Proof.
  unfold slice, sliceIndex.
  set (len := Z.of_nat (String.length (String c (x ++ String d "")))).
  assert (Hlen : len = (Z.of_nat (String.length x) + 2)%Z).
  { subst len. simpl. rewrite length_append. simpl. lia. }
  replace (1 <? 0)%Z with false by reflexivity.
  replace (-1 <? 0)%Z with true by reflexivity.
  replace (Z.to_nat (Z.min 1 len)) with 1 by lia.
  replace (Z.to_nat (Z.max (Z.max (len + -1) 0 - Z.min 1 len) 0))
    with (String.length x) by lia.
  simpl. apply substring_front.
Qed.

Lemma endsWith_snoc (x : string) (d e : ascii) :
  endsWith (x ++ String d "") (String e "") = Ascii.eqb d e.
Proof.
  unfold endsWith. rewrite length_append. simpl String.length.
  replace (1 <=? String.length x + 1)%nat with true by (symmetry; apply Nat.leb_le; lia).
  replace (String.length x + 1 - 1) with (String.length x) by lia.
  rewrite substring_past. simpl.
  now destruct (Ascii.eqb d e).
Qed.

End StringFacts.

(** ** Call names *)

Section CallNames.
Import JS Naming.
#[local] Arguments String.append : simpl nomatch.

Lemma capitalize_cons (c : ascii) (r : string) :
  capitalize (String c r) = String (upperChar c) r.
Proof. unfold capitalize. now rewrite sliceFrom_cons. Qed.

Lemma capitalize_By (s : string) : capitalize ("By" ++ s) = "By" ++ s.
Proof. apply capitalize_cons. Qed.

Lemma stripSuffixChar_snoc (c d : ascii) (x : string) :
  Spec.stripSuffixChar c (x ++ String d "")
  = if Ascii.eqb d c then Some x else None.
Proof.
  induction x as [|a x IH]; [reflexivity|].
  simpl. rewrite IH.
  destruct (x ++ String d "") eqn:E.
  - now destruct x.
  - now destruct (Ascii.eqb d c).
Qed.

(** [parameterOf] finds exactly the segments written [{x}]. *)
Lemma parameterOf_spec (segment x : string) :
  Spec.parameterOf segment = Some x <-> segment = "{" ++ x ++ "}".
Proof.
  split.
  - destruct segment as [|c r]; [discriminate|]. simpl.
    destruct (Ascii.eqb_spec c "{") as [-> | ]; [|discriminate].
    destruct (snoc_cases r) as [-> | (y & d & ->)]; [discriminate|].
    rewrite stripSuffixChar_snoc.
    destruct (Ascii.eqb_spec d "}") as [-> | ]; [|discriminate].
    now intros [= ->].
  - intros ->. simpl. now rewrite stripSuffixChar_snoc.
Qed.

Lemma startsWith_char (c a : ascii) (r : string) :
  startsWith (String c r) (String a "") = Ascii.eqb c a.
Proof.
  unfold startsWith. cbn [String.prefix].
  destruct (ascii_dec a c) as [-> | Hne].
  - rewrite Ascii.eqb_refl. now destruct r.
  - destruct (Ascii.eqb_spec c a); [congruence | reflexivity].
Qed.

(** The test and the slice of [pathToFunctionName] find the same [x] as
    [parameterOf], and a segment in the same cases. *)
Lemma braces_test (segment : string) :
  (if startsWith segment "{" && endsWith segment "}"
   then Some (slice segment 1 (-1)) else None)
  = Spec.parameterOf segment.
Proof.
  destruct segment as [|c r]; [reflexivity|].
  rewrite startsWith_char. cbn [Spec.parameterOf].
  destruct (Ascii.eqb_spec c "{") as [-> | Hc]; [|reflexivity].
  destruct (snoc_cases r) as [-> | (y & d & ->)]; [reflexivity|].
  change (String "{" (y ++ String d "")) with (String "{" y ++ String d "") at 1.
  rewrite endsWith_snoc, stripSuffixChar_snoc. cbn [andb].
  destruct (Ascii.eqb d "}"); [|reflexivity].
  now rewrite slice_inner.
Qed.

Lemma segment_token (segment : string) :
  capitalize
    (if startsWith segment "{" && endsWith segment "}"
     then "By" ++ capitalize (toCamelCase (slice segment 1 (-1)))
     else toCamelCase segment)
  = Spec.token segment.
Proof.
  unfold Spec.token. rewrite <- braces_test.
  destruct (startsWith segment "{" && endsWith segment "}").
  - apply capitalize_By.
  - reflexivity.
Qed.

Lemma toLowerCase_methodName (m : Spec.HttpMethod) :
  toLowerCase (Spec.methodName m) = Spec.methodPrefix m.
Proof. now destruct m. Qed.

(** The call name, whatever the method string: its lower case, then the
    tokens of the segments. *)
Lemma pathToFunctionName_tokens (path method : string) :
  pathToFunctionName path method
  = toLowerCase method ++ join (map Spec.token (pathSegments path)).
Proof.
  unfold pathToFunctionName. f_equal. rewrite map_map. f_equal.
  apply map_ext. intros segment. apply segment_token.
Qed.

(** For each of the five methods and every path, the call name that
    [pathToFunctionName] builds is the method in lower case followed by the
    tokens of the non-empty segments in order, a token being written with
    the mapper's own [toCamelCase] and [capitalize]: after [By] for a
    parameter segment [{x}], on the whole segment for a literal one. *)
Lemma pathToFunctionName_callName (m : Spec.HttpMethod) (path : string) :
  pathToFunctionName path (Spec.methodName m)
  = toLowerCase (Spec.methodName m) ++ join (map Spec.token (pathSegments path))
  /\ pathToFunctionName path (Spec.methodName m) = Spec.callName m path
  /\ (forall x, Spec.token ("{" ++ x ++ "}") = "By" ++ capitalize (toCamelCase x))
  /\ (forall segment,
        Spec.token segment = capitalize (toCamelCase segment)
        \/ exists x, segment = "{" ++ x ++ "}")
  /\ pathToFunctionName "/order-history/{id}" (Spec.methodName Spec.GET)
     = "getOrderHistoryById".
Proof.
  pose proof (pathToFunctionName_tokens path (Spec.methodName m)) as H.
  split; [exact H | split; [| split; [| split]]].
  - rewrite H. unfold Spec.callName. now rewrite toLowerCase_methodName.
  - intros x. unfold Spec.token.
    now rewrite (proj2 (parameterOf_spec ("{" ++ x ++ "}") x) eq_refl).
  - intros segment. unfold Spec.token.
    destruct (Spec.parameterOf segment) as [x|] eqn:E; [right | now left].
    exists x. now apply parameterOf_spec.
  - reflexivity.
Qed.


(** A fact about one character is checked on the 256 of them. *)
Ltac by_character c :=
  destruct c as [[] [] [] [] [] [] [] []]; vm_compute;
  try (let H := fresh in intros H; first [discriminate H | clear H]);
  first [reflexivity | repeat split].

(** Identifier characters through the steps of the tokenizer. *)
Lemma upperChar_identifierPart (c : ascii) :
  Spec.isIdentifierPart c = true -> Spec.isIdentifierPart (upperChar c) = true.
Proof.
  by_character c.
Qed.

Lemma alnum_facts (d : ascii) :
  Spec.isLetter d || Spec.isDigit d = true ->
  isLineTerminator d = false /\ isDashOrUnderscore d = false
  /\ Spec.isIdentifierPart d = true.
Proof.
  by_character d.
Qed.

Lemma plain_char_identifierPart (c : ascii) :
  Spec.isLetter c || Spec.isDigit c || Ascii.eqb c "$" = true ->
  Spec.isIdentifierPart c = true.
Proof.
  by_character c.
Qed.

Lemma allChars_app (p : ascii -> bool) (a b : string) :
  Spec.allChars p (a ++ b) = Spec.allChars p a && Spec.allChars p b.
Proof.
  induction a as [|c a IH]; simpl; [reflexivity|].
  rewrite IH. now destruct (p c).
Qed.

Lemma allChars_capitalize (s : string) :
  Spec.allChars Spec.isIdentifierPart s = true ->
  Spec.allChars Spec.isIdentifierPart (capitalize s) = true.
Proof.
  destruct s as [|c r]; [intros _; reflexivity|].
  rewrite capitalize_cons. simpl.
  intros [Hc Hr]%andb_prop.
  now rewrite upperChar_identifierPart, Hr.
Qed.

(** [toCamelCase] turns a plain word into identifier characters.  The
    recursion of [toCamelCase] skips two characters at a match, so the
    induction is on a bound of the length. *)
Lemma toCamelCase_plainWord_bounded (n : nat) :
  forall s, String.length s <= n ->
    Spec.plainWord s = true ->
    Spec.allChars Spec.isIdentifierPart (toCamelCase s) = true.
Proof.
  induction n as [|n IH]; intros s Hlen Hs.
  - destruct s; [reflexivity | simpl in Hlen; lia].
  - destruct s as [|c r]; [reflexivity|].
    simpl in Hlen. cbn [Spec.plainWord] in Hs. cbn [toCamelCase].
    destruct (isDashOrUnderscore c) eqn:Ec.
    + destruct r as [|d r']; [discriminate Hs|].
      apply andb_prop in Hs as [Hd Hr].
      destruct (alnum_facts d Hd) as (Hlt & Hsep & Hpart).
      rewrite Hlt. cbn [Spec.allChars].
      rewrite (upperChar_identifierPart d Hpart). cbn [andb].
      cbn [Spec.plainWord] in Hr. rewrite Hsep in Hr.
      apply andb_prop in Hr as [_ Hr'].
      apply IH; [simpl in Hlen; lia | exact Hr'].
    + apply andb_prop in Hs as [Hc Hr].
      cbn [Spec.allChars].
      rewrite (plain_char_identifierPart c Hc). cbn [andb].
      apply IH; [lia | exact Hr].
Qed.

Lemma toCamelCase_plainWord (s : string) :
  Spec.plainWord s = true ->
  Spec.allChars Spec.isIdentifierPart (toCamelCase s) = true.
Proof. apply (toCamelCase_plainWord_bounded (String.length s)). lia. Qed.

Lemma token_plainSegment (segment : string) :
  Spec.plainSegment segment = true ->
  Spec.allChars Spec.isIdentifierPart (Spec.token segment) = true.
Proof.
  unfold Spec.plainSegment, Spec.token.
  destruct (Spec.parameterOf segment) as [x|]; intros H.
  - change ("By" ++ capitalize (toCamelCase x))
      with (String "B" (String "y" (capitalize (toCamelCase x)))).
    cbn [Spec.allChars].
    now rewrite allChars_capitalize by now apply toCamelCase_plainWord.
  - now apply allChars_capitalize, toCamelCase_plainWord.
Qed.

Lemma tokens_plainSegments (segments : list string) :
  forallb Spec.plainSegment segments = true ->
  Spec.allChars Spec.isIdentifierPart (join (map Spec.token segments)) = true.
Proof.
  induction segments as [|seg rest IH]; [reflexivity|].
  cbn [forallb map join]. intros [Hseg Hrest]%andb_prop.
  rewrite allChars_app, token_plainSegment by assumption.
  now apply IH.
Qed.

(** Reserved words are made of lower-case letters, and a call name with a
    segment has a character that is not one. *)
Lemma reserved_all_lower (s : string) :
  Spec.isReserved s = true -> Spec.allChars isLowerLetter s = true.
Proof.
  unfold Spec.isReserved. rewrite existsb_exists.
  intros (w & Hw & ->%String.eqb_eq).
  repeat (destruct Hw as [<- | Hw]; [reflexivity|]). destruct Hw.
Qed.

Lemma upperChar_not_lower (c : ascii) : isLowerLetter (upperChar c) = false.
Proof. by_character c. Qed.

Lemma toCamelCase_nonempty (s : string) : s <> "" -> toCamelCase s <> "".
Proof.
  destruct s as [|c r]; [congruence|]. intros _. cbn [toCamelCase].
  destruct (isDashOrUnderscore c); [|discriminate].
  destruct r as [|d r']; [discriminate|].
  destruct (isLineTerminator d); discriminate.
Qed.

Lemma token_not_lower (segment : string) :
  segment <> "" -> Spec.allChars isLowerLetter (Spec.token segment) = false.
Proof.
  intros Hne. unfold Spec.token.
  destruct (Spec.parameterOf segment) as [x|]; [reflexivity|].
  pose proof (toCamelCase_nonempty segment Hne) as Hcamel.
  destruct (toCamelCase segment) as [|c r]; [congruence|].
  rewrite capitalize_cons. cbn [Spec.allChars].
  now rewrite upperChar_not_lower.
Qed.

Lemma pathSegments_nonempty (path segment : string) :
  In segment (pathSegments path) -> segment <> "".
Proof.
  unfold pathSegments. intros [_ Hlen]%filter_In. now destruct segment.
Qed.

Lemma callName_not_reserved (m : Spec.HttpMethod) (path : string) :
  Spec.deleteWithoutSegments m path = false ->
  Spec.isReserved (pathToFunctionName path (Spec.methodName m)) = false.
Proof.
  intros Hdelete.
  rewrite pathToFunctionName_tokens, toLowerCase_methodName.
  unfold Spec.deleteWithoutSegments in Hdelete.
  destruct (pathSegments path) as [|segment rest] eqn:Hsegments.
  - destruct m; cbn [map join]; try reflexivity. discriminate Hdelete.
  - apply not_true_is_false. intros Hreserved%reserved_all_lower.
    rewrite allChars_app in Hreserved. apply andb_prop in Hreserved as [_ Htokens].
    cbn [map join] in Htokens. rewrite allChars_app in Htokens.
    apply andb_prop in Htokens as [Htoken _].
    rewrite token_not_lower in Htoken; [discriminate|].
    apply (pathSegments_nonempty path). rewrite Hsegments. now left.
Qed.

(** C8, as amended.  The call name is never empty, whatever the path
    (the empty path and paths without parameters included).  It can name a
    binding when every non-empty segment of the path is a plain word or a
    plain word between braces (letters, digits and dollar signs, with every
    dash and every underscore directly followed by a letter or a digit) and
    the call is not DELETE on a path without segments, whose name is the
    reserved word delete. *)
Theorem callName_nonempty_and_identifier_on_plain_paths
  (m : Spec.HttpMethod) (path : string) :
  pathToFunctionName path (Spec.methodName m) <> ""
  /\ (forallb Spec.plainSegment (pathSegments path) = true ->
      Spec.deleteWithoutSegments m path = false ->
      Spec.identifierSafe (pathToFunctionName path (Spec.methodName m)) = true).
Proof.
  split.
  - rewrite pathToFunctionName_tokens, toLowerCase_methodName. now destruct m.
  - intros Hplain Hdelete. unfold Spec.identifierSafe.
    rewrite (callName_not_reserved m path Hdelete), andb_true_r.
    rewrite pathToFunctionName_tokens, toLowerCase_methodName.
    pose proof (tokens_plainSegments _ Hplain) as Htok.
    destruct m; cbn [Spec.methodPrefix String.append Spec.identifierName Spec.allChars];
      exact Htok.
Qed.

Lemma callName_identifier_witness :
  pathToFunctionName "/order-history/{id}" (Spec.methodName Spec.GET) <> ""
  /\ Spec.identifierSafe
       (pathToFunctionName "/order-history/{id}" (Spec.methodName Spec.GET)) = true.
Proof.
  destruct (callName_nonempty_and_identifier_on_plain_paths
              Spec.GET "/order-history/{id}") as [Hne Hsafe].
  split; [exact Hne | apply Hsafe; reflexivity].
Defined.

(** C8 as stated fails: a dot in a segment reaches the call name, and DELETE
    on the empty path is named by a reserved word. *)
Lemma callName_not_identifier_safe :
  (pathToFunctionName "/a.b" (Spec.methodName Spec.GET) = "getA.b"
   /\ Spec.identifierSafe (pathToFunctionName "/a.b" (Spec.methodName Spec.GET)) = false)
  /\ (pathToFunctionName "" (Spec.methodName Spec.DELETE) = "delete"
      /\ Spec.identifierSafe (pathToFunctionName "" (Spec.methodName Spec.DELETE))
         = false).
Proof. repeat split. Qed.

End CallNames.

(** ** Type names of schema nodes *)

Section TypeNames.
Import JS SwaggerMapper.
#[local] Arguments String.append : simpl nomatch.

Lemma split_nonempty (sep : ascii) (s : string) : split sep s <> [].
Proof.
  destruct s as [|c r]; simpl; [discriminate|].
  destruct (Ascii.eqb c sep); [discriminate|].
  destruct (split sep r); discriminate.
Qed.

(** Splitting at a separator splits the two sides. *)
Lemma split_app_sep (sep : ascii) (before after : string) :
  split sep (before ++ String sep after)
  = (split sep before ++ split sep after)%list.
Proof.
  induction before as [|c p IH]; simpl.
  - now rewrite Ascii.eqb_refl.
  - rewrite IH. destruct (Ascii.eqb c sep); [reflexivity|].
    pose proof (split_nonempty sep p) as Hne.
    destruct (split sep p) as [|h t]; [congruence | reflexivity].
Qed.

Lemma split_noSlash (name : string) :
  Spec.noSlash name = true -> split "/" name = [name].
Proof.
  unfold Spec.noSlash.
  induction name as [|c r IH]; simpl; [reflexivity|].
  intros [Hc Hr]%andb_prop.
  apply negb_true_iff in Hc. rewrite Hc, (IH Hr). reflexivity.
Qed.

Lemma pop_last (l : list string) (x : string) : pop (l ++ [x])%list = Some x.
Proof.
  induction l as [|y l IH]; [reflexivity|].
  simpl. rewrite IH. now destruct (l ++ [x])%list eqn:E; [destruct l|].
Qed.

(** [refName] finds the final path segment, and turns an empty one into
    [any]. *)
Lemma refName_finalSegment (target name : string) :
  Spec.finalSegmentOf target name ->
  refName target = if String.eqb name "" then "any" else name.
Proof.
  intros [Hname [-> | [before ->]]]; unfold refName.
  - rewrite (split_noSlash _ Hname). simpl. unfold orElse, truthy.
    now destruct (String.eqb name "").
  - change (before ++ "/" ++ name) with (before ++ String "/" name).
    rewrite split_app_sep, (split_noSlash _ Hname), pop_last.
    simpl. unfold orElse, truthy. now destruct (String.eqb name "").
Qed.

Lemma getSchemaName_unfold (schema : Doc.Schema) :
  getSchemaName schema
  = match truthyRef schema with
    | Some ref => refName ref
    | None =>
        match isArrayType schema, Doc.items schema with
        | true, Some items => getSchemaName items ++ "[]"
        | _, _ => getTypeFromSchema (Some schema)
        end
    end.
Proof. now destruct schema. Qed.

Lemma truthyRef_some (schema : Doc.Schema) (target : string) :
  Doc.ref schema = Some target -> target <> "" -> truthyRef schema = Some target.
Proof.
  intros Href Hne. unfold truthyRef, truthy. rewrite Href.
  now destruct (String.eqb_spec target "").
Qed.

(** C5, as amended.  For a node whose reference is a non-empty string, the
    resolver returns the final path segment of the target, whatever comes
    before it, when that segment is not empty, and [any] when it is empty.
    For a node that is not such a reference and declares type array with
    items, it returns the resolution of the items followed by the array
    suffix; so an array of arrays of references to T resolves to T with the
    suffix twice. *)
Theorem getSchemaName_reference_and_array :
  (forall schema target name,
      Doc.ref schema = Some target -> target <> "" ->
      Spec.finalSegmentOf target name ->
      getSchemaName schema = if String.eqb name "" then "any" else name)
  /\ (forall schema items,
         truthyRef schema = None ->
         Doc.type schema = Some "array" ->
         Doc.items schema = Some items ->
         getSchemaName schema = getSchemaName items ++ "[]")
  /\ (forall target name,
         target <> "" -> Spec.finalSegmentOf target name -> name <> "" ->
         getSchemaName (Spec.arrayOf (Spec.arrayOf (Spec.referenceTo target)))
         = name ++ "[][]").
Proof.
  split; [| split].
  - intros schema target name Href Hne Hfinal.
    rewrite getSchemaName_unfold, (truthyRef_some _ _ Href Hne).
    now apply refName_finalSegment.
  - intros schema items Hnoref Htype Hitems.
    rewrite getSchemaName_unfold, Hnoref. unfold isArrayType.
    now rewrite Htype, Hitems.
  - intros target name Hne Hfinal Hname.
    rewrite getSchemaName_unfold. cbn -[getSchemaName String.append].
    rewrite getSchemaName_unfold. cbn -[getSchemaName String.append].
    rewrite getSchemaName_unfold,
      (truthyRef_some (Spec.referenceTo target) target eq_refl Hne),
      (refName_finalSegment _ _ Hfinal).
    destruct (String.eqb_spec name ""); [congruence|].
    now rewrite append_assoc.
Qed.

Lemma getSchemaName_reference_and_array_witness :
  getSchemaName (Spec.referenceTo "#/components/schemas/User") = "User"
  /\ getSchemaName (Spec.arrayOf (Spec.referenceTo "#/components/schemas/User"))
     = getSchemaName (Spec.referenceTo "#/components/schemas/User") ++ "[]"
  /\ getSchemaName
       (Spec.arrayOf (Spec.arrayOf (Spec.referenceTo "#/components/schemas/User")))
     = "User[][]".
Proof.
  destruct getSchemaName_reference_and_array as (Href & Harray & Hnested).
  assert (Hfinal : Spec.finalSegmentOf "#/components/schemas/User" "User").
  { split; [reflexivity | right; now exists "#/components/schemas"]. }
  split; [| split].
  - apply (Href (Spec.referenceTo "#/components/schemas/User")
             "#/components/schemas/User" "User");
      [reflexivity | discriminate | exact Hfinal].
  - apply Harray; reflexivity.
  - apply (Hnested "#/components/schemas/User" "User");
      [discriminate | exact Hfinal | discriminate].
Defined.

(** C5 as stated fails in two places: a target that ends in a slash has an
    empty final segment and resolves to [any], and a node that is both a
    reference and an array with items resolves as the reference. *)
Lemma getSchemaName_not_always_final_segment :
  (Spec.finalSegmentOf "#/components/schemas/" ""
   /\ getSchemaName (Spec.referenceTo "#/components/schemas/") = "any")
  /\ (getSchemaName
        (Doc.mkSchema (Some "#/components/schemas/T") (Some "array")
           (Some (Spec.referenceTo "#/components/schemas/U")) None None)
      = "T"
      /\ getSchemaName (Spec.referenceTo "#/components/schemas/U") ++ "[]" = "U[]").
Proof.
  repeat split.
  right. now exists "#/components/schemas".
Qed.

(** The two resolvers of the mapper differ on arrays with items, and only
    there. *)
Lemma getTypeFromSchema_vs_getSchemaName (schema : Doc.Schema) :
  getTypeFromSchema (Some schema)
  = if Spec.arrayWithItems schema then "any[]" else getSchemaName schema.
Proof.
  rewrite getSchemaName_unfold. unfold Spec.arrayWithItems, getTypeFromSchema.
  destruct (truthyRef schema) as [ref|]; [reflexivity|].
  unfold isArrayType.
  destruct (Doc.items schema) as [items|].
  - destruct (Doc.type schema) as [ty|]; [|reflexivity].
    destruct (String.eqb_spec ty "array") as [-> | Hne]; reflexivity.
  - destruct (Doc.type schema) as [ty|]; [|reflexivity].
    now destruct (String.eqb ty "array").
Qed.

(** A request body is named after the schema of its first content type. *)
Lemma mapRequestBody_first_entry (required : option bool) (contentType : string)
  (schema : Doc.Schema) (rest : list (string * Doc.MediaType.t)) :
  contentType <> "" ->
  option_map RequestBodyMetadata.schema
    (mapRequestBody
       (Some (Doc.RequestBody.mk required
                (Some ((contentType, Doc.MediaType.mk (Some schema)) :: rest)))))
  = Some (getSchemaName schema).
Proof.
  intros Hne. unfold mapRequestBody.
  cbn [Doc.RequestBody.content firstKey orDefault option_map RequestBodyMetadata.schema].
  unfold orElse, truthy.
  destruct (String.eqb_spec contentType ""); [congruence|].
  cbn [negb JSMap.get]. now rewrite String.eqb_refl.
Qed.

(** A response is named after the schema of its JSON content. *)
Lemma getResponseSchema_json (description : option string)
  (content : list (string * Doc.MediaType.t)) (schema : Doc.Schema) :
  JSMap.get content "application/json" = Some (Doc.MediaType.mk (Some schema)) ->
  getResponseSchema (Doc.Response.mk description (Some content))
  = Some (getSchemaName schema).
Proof.
  intros Hjson. unfold getResponseSchema. cbn [Doc.Response.content].
  now rewrite Hjson.
Qed.

(** Where the resolvers of the three positions agree.  A request-body
    schema and a response schema are named by [getSchemaName]; a parameter
    type is named by [getTypeFromSchema], which does not descend into the
    items of an array.  The two agree on every node that is not an array
    with items outside a reference; on such a node the parameter type is the
    fallback array type while the other two positions carry the name of the
    items followed by the array suffix. *)
Lemma type_names_by_position :
  (forall param,
      map ParameterMetadata.type (mapParameters [param])
      = [getTypeFromSchema (Doc.Param.schema param)])
  /\ (forall required contentType schema rest,
         contentType <> "" ->
         option_map RequestBodyMetadata.schema
           (mapRequestBody
              (Some (Doc.RequestBody.mk required
                       (Some ((contentType, Doc.MediaType.mk (Some schema)) :: rest)))))
         = Some (getSchemaName schema))
  /\ (forall description content schema,
         JSMap.get content "application/json" = Some (Doc.MediaType.mk (Some schema)) ->
         getResponseSchema (Doc.Response.mk description (Some content))
         = Some (getSchemaName schema))
  /\ (forall schema,
         getTypeFromSchema (Some schema)
         = if Spec.arrayWithItems schema then "any[]" else getSchemaName schema)
  /\ (forall target,
         getSchemaName (Spec.arrayOf (Spec.referenceTo target))
         = getSchemaName (Spec.referenceTo target) ++ "[]"
         /\ getTypeFromSchema (Some (Spec.arrayOf (Spec.referenceTo target))) = "any[]").
Proof.
  split; [| split; [| split; [| split]]].
  - reflexivity.
  - apply mapRequestBody_first_entry.
  - apply getResponseSchema_json.
  - apply getTypeFromSchema_vs_getSchemaName.
  - intros target. split.
    + now rewrite getSchemaName_unfold.
    + reflexivity.
Qed.

Lemma type_names_by_position_witness :
  option_map RequestBodyMetadata.schema
    (mapRequestBody
       (Some (Spec.requestBodyWith (Spec.referenceTo "#/components/schemas/T"))))
  = Some (getSchemaName (Spec.referenceTo "#/components/schemas/T"))
  /\ getResponseSchema (Spec.responseWith (Spec.referenceTo "#/components/schemas/T"))
     = Some (getSchemaName (Spec.referenceTo "#/components/schemas/T"))
  /\ map ParameterMetadata.type
       (mapParameters [Spec.parameterWith (Spec.referenceTo "#/components/schemas/T")])
     = [getSchemaName (Spec.referenceTo "#/components/schemas/T")].
Proof.
  destruct type_names_by_position as (Hparam & Hbody & Hresponse & Hagree & _).
  split; [| split].
  - apply Hbody. discriminate.
  - apply Hresponse. reflexivity.
  - rewrite Hparam. cbn [Spec.parameterWith Doc.Param.schema].
    now rewrite Hagree.
Defined.

(** C3.  The three positions do not name a node alike: for a node of type
    array whose items refer to schema T, [mapParameters] gives the parameter
    type any[], having called the resolver that does not descend into the
    items, while [mapRequestBody] and [getResponseSchema] give T[] for the
    same node. *)
Theorem array_of_references_named_differently :
  map ParameterMetadata.type
    (mapParameters
       [Spec.parameterWith (Spec.arrayOf (Spec.referenceTo "#/components/schemas/T"))])
  = ["any[]"]
  /\ option_map RequestBodyMetadata.schema
       (mapRequestBody
          (Some (Spec.requestBodyWith
                   (Spec.arrayOf (Spec.referenceTo "#/components/schemas/T")))))
     = Some "T[]"
  /\ getResponseSchema
       (Spec.responseWith (Spec.arrayOf (Spec.referenceTo "#/components/schemas/T")))
     = Some "T[]".
Proof. repeat split. Qed.

End TypeNames.

(** ** The schema catalog *)

Section Catalog.
Import JS SwaggerMapper.
#[local] Arguments String.append : simpl nomatch.

Lemma get_set_eq {V} (m : JSMap.t V) (k : string) (v : V) :
  JSMap.get (JSMap.set m k v) k = Some v.
Proof.
  induction m as [|[k' v'] m IH]; simpl.
  - now rewrite String.eqb_refl.
  - destruct (String.eqb k' k) eqn:E; simpl; rewrite E; [reflexivity | exact IH].
Qed.

Lemma get_set_ne {V} (m : JSMap.t V) (k k' : string) (v : V) :
  k <> k' -> JSMap.get (JSMap.set m k v) k' = JSMap.get m k'.
Proof.
  intros Hne. induction m as [|[k0 v0] m IH]; simpl.
  - now destruct (String.eqb_spec k k').
  - destruct (String.eqb_spec k0 k) as [-> | Hk]; simpl.
    + now destruct (String.eqb_spec k k').
    + now rewrite IH.
Qed.

(** A map keeps one entry per key. *)
Lemma keys_set {V} (m : JSMap.t V) (k : string) (v : V) :
  JSMap.keys (JSMap.set m k v)
  = if JSMap.has m k then JSMap.keys m else (JSMap.keys m ++ [k])%list.
Proof.
  unfold JSMap.has, JSMap.keys.
  induction m as [|[k' v'] m IH]; simpl; [reflexivity|].
  destruct (String.eqb k' k); simpl; [reflexivity|].
  rewrite IH. now destruct (JSMap.get m k).
Qed.

Lemma has_in_keys {V} (m : JSMap.t V) (k : string) :
  JSMap.has m k = true <-> In k (JSMap.keys m).
Proof.
  unfold JSMap.has, JSMap.keys.
  induction m as [|[k' v'] m IH]; simpl.
  - split; [discriminate | tauto].
  - destruct (String.eqb_spec k' k) as [-> | Hne].
    + split; [now left | reflexivity].
    + rewrite IH. split; [now right | now intros [|]].
Qed.

Lemma NoDup_keys_set {V} (m : JSMap.t V) (k : string) (v : V) :
  List.NoDup (JSMap.keys m) -> List.NoDup (JSMap.keys (JSMap.set m k v)).
Proof.
  intros Hm. rewrite keys_set.
  destruct (JSMap.has m k) eqn:E; [exact Hm|].
  apply List.NoDup_app; [exact Hm | repeat constructor; intros [] |].
  intros x Hx [<- | []]. apply has_in_keys in Hx. congruence.
Qed.

Lemma NoDup_keys_indexSchemas (container : list (string * Doc.Schema))
  (catalog : JSMap.t SchemaMetadata.t) :
  List.NoDup (JSMap.keys catalog) -> List.NoDup (JSMap.keys (indexSchemas container catalog)).
Proof.
  unfold indexSchemas. revert catalog.
  induction container as [|[name raw] rest IH]; intros catalog Hc; simpl.
  - exact Hc.
  - apply IH. now apply NoDup_keys_set.
Qed.

(** A name that a container does not define keeps what the catalog had. *)
Lemma get_indexSchemas_other (container : list (string * Doc.Schema))
  (catalog : JSMap.t SchemaMetadata.t) (name : string) :
  ~ In name (map fst container) ->
  JSMap.get (indexSchemas container catalog) name = JSMap.get catalog name.
Proof.
  unfold indexSchemas. revert catalog.
  induction container as [|[k raw] rest IH]; intros catalog Hnotin; simpl.
  - reflexivity.
  - rewrite IH by (intros H; apply Hnotin; now right).
    apply get_set_ne. intros ->. apply Hnotin. now left.
Qed.

(** A definition of a container is indexed under its name, as the record
    built from it. *)
Lemma get_indexSchemas_defined (container : list (string * Doc.Schema))
  (catalog : JSMap.t SchemaMetadata.t) (name : string) (raw : Doc.Schema) :
  List.NoDup (map fst container) ->
  In (name, raw) container ->
  JSMap.get (indexSchemas container catalog) name = Some (schemaRecord name raw).
Proof.
  revert catalog.
  induction container as [|[k v] rest IH]; intros catalog Hnodup Hin; [destruct Hin|].
  inversion Hnodup as [|? ? Hk Hrest]; subst.
  destruct Hin as [[= -> ->] | Hin].
  - change (indexSchemas ((name, raw) :: rest) catalog)
      with (indexSchemas rest (JSMap.set catalog name (schemaRecord name raw))).
    rewrite get_indexSchemas_other by exact Hk.
    apply get_set_eq.
  - change (indexSchemas ((k, v) :: rest) catalog)
      with (indexSchemas rest (JSMap.set catalog k (schemaRecord k v))).
    now apply IH.
Qed.

(** C7, as amended.  Every definition of [definitions], and every definition
    of [components.schemas] that [definitions] does not define again, is
    indexed as the record built from it.  In that record a missing
    [properties] is the empty mapping; a missing [required] stays absent (no
    default is put in its place), and then no property name counts as
    required.  A document with neither container leaves the catalog as it
    was, so a fresh mapper has no entries.  [extractSchemas] is a total
    function: on a document of the expected shape indexing does not fail. *)
Theorem extractSchemas_records (this : SwaggerMapper.t) (api : Doc.Api.t) :
  (forall container name raw,
      Doc.Api.definitions api = Some container ->
      List.NoDup (map fst container) ->
      In (name, raw) container ->
      JSMap.get (schemas (extractSchemas this api)) name
      = Some (schemaRecord name raw))
  /\ (forall container name raw,
         componentsSchemas api = Some container ->
         List.NoDup (map fst container) ->
         In (name, raw) container ->
         ~ In name (map fst (orEmpty (Doc.Api.definitions api))) ->
         JSMap.get (schemas (extractSchemas this api)) name
         = Some (schemaRecord name raw))
  /\ (forall name raw,
         Doc.properties raw = None ->
         SchemaMetadata.properties (schemaRecord name raw) = [])
  /\ (forall name raw,
         Doc.required raw = None ->
         SchemaMetadata.required (schemaRecord name raw) = None
         /\ forall propName,
             CodeGenerator.isRequired (schemaRecord name raw) propName = false)
  /\ (componentsSchemas api = None ->
      Doc.Api.definitions api = None ->
      extractSchemas this api = this
      /\ schemas (extractSchemas SwaggerMapper.new api) = []).
Proof.
  split; [| split; [| split; [| split]]].
  - intros container name raw Hdef Hnodup Hin.
    unfold extractSchemas. rewrite Hdef. cbn [schemas].
    now apply get_indexSchemas_defined.
  - intros container name raw Hcomp Hnodup Hin Hnotin.
    unfold extractSchemas. rewrite Hcomp. cbn [schemas].
    destruct (Doc.Api.definitions api) as [defs|]; cbn [orEmpty] in Hnotin.
    + rewrite get_indexSchemas_other by exact Hnotin.
      now apply get_indexSchemas_defined.
    + now apply get_indexSchemas_defined.
  - intros name raw Hprops. unfold schemaRecord. cbn. now rewrite Hprops.
  - intros name raw Hreq. unfold CodeGenerator.isRequired, schemaRecord. cbn.
    now rewrite Hreq.
  - intros Hcomp Hdef. unfold extractSchemas. rewrite Hcomp, Hdef.
    split; [now destruct this | reflexivity].
Qed.

Lemma extractSchemas_records_witness :
  JSMap.get
    (schemas
       (extractSchemas SwaggerMapper.new
          (Doc.Api.mk None
             (Some (Doc.Components.mk
                      (Some [("Pet", Doc.mkSchema None (Some "object") None None None)])))
             (Some [("User", Doc.mkSchema None (Some "object") None None None)]))))
    "User"
  = Some (schemaRecord "User" (Doc.mkSchema None (Some "object") None None None))
  /\ JSMap.get
       (schemas
          (extractSchemas SwaggerMapper.new
             (Doc.Api.mk None
                (Some (Doc.Components.mk
                         (Some [("Pet", Doc.mkSchema None (Some "object") None None None)])))
                (Some [("User", Doc.mkSchema None (Some "object") None None None)]))))
       "Pet"
     = Some (schemaRecord "Pet" (Doc.mkSchema None (Some "object") None None None))
  /\ SchemaMetadata.properties
       (schemaRecord "Pet" (Doc.mkSchema None (Some "object") None None None)) = []
  /\ (SchemaMetadata.required
         (schemaRecord "Pet" (Doc.mkSchema None (Some "object") None None None)) = None
      /\ forall propName,
          CodeGenerator.isRequired
            (schemaRecord "Pet" (Doc.mkSchema None (Some "object") None None None))
            propName = false)
  /\ (extractSchemas SwaggerMapper.new (Doc.Api.mk None None None) = SwaggerMapper.new
      /\ schemas (extractSchemas SwaggerMapper.new (Doc.Api.mk None None None)) = []).
Proof.
  destruct (extractSchemas_records SwaggerMapper.new
              (Doc.Api.mk None
                 (Some (Doc.Components.mk
                          (Some [("Pet", Doc.mkSchema None (Some "object")
                                           None None None)])))
                 (Some [("User", Doc.mkSchema None (Some "object") None None None)])))
    as (Hdefinitions & Hcomponents & Hproperties & Hrequired & _).
  destruct (extractSchemas_records SwaggerMapper.new (Doc.Api.mk None None None))
    as (_ & _ & _ & _ & Hneither).
  split; [| split; [| split; [| split]]].
  - apply (Hdefinitions [("User", Doc.mkSchema None (Some "object") None None None)]).
    + reflexivity.
    + repeat constructor. intros [].
    + now left.
  - apply (Hcomponents [("Pet", Doc.mkSchema None (Some "object") None None None)]).
    + reflexivity.
    + repeat constructor. intros [].
    + now left.
    + cbn. intros [H | []]. discriminate H.
  - apply Hproperties. reflexivity.
  - apply Hrequired. reflexivity.
  - apply Hneither; reflexivity.
Defined.

(** C7 as stated fails: a definition without [required] is indexed with
    [required] absent, not with an empty list. *)
Lemma missing_required_stays_absent :
  option_map SchemaMetadata.required
    (JSMap.get
       (schemas
          (extractSchemas SwaggerMapper.new
             (Doc.Api.mk None
                (Some (Doc.Components.mk
                         (Some [("User",
                                 Doc.mkSchema None (Some "object") None None None)])))
                None)))
       "User")
  = Some None
  /\ Some (@None (list string)) <> Some (Some []).
Proof. split; [reflexivity | discriminate]. Qed.

End Catalog.

(** ** Referenced schemas and the types file *)

Section TypesFile.
Import JS SwaggerMapper.
#[local] Arguments String.append : simpl nomatch.

(** *** What [getSchemasForModule] collects *)

(** The name that [getSchemasForModule] looks up for a type name. *)
Lemma noteSchema_add (this : SwaggerMapper.t) (schemaNames : JSSet.t) (schema : string) :
  noteSchema this schemaNames schema
  = if truthy schema && JSMap.has (schemas this) (replaceFirst schema "[]" "")
    then JSSet.add schemaNames (replaceFirst schema "[]" "")
    else schemaNames.
Proof. unfold noteSchema. now destruct (truthy schema). Qed.

Lemma fold_noteSchema (this : SwaggerMapper.t) (refs : list string) :
  forall schemaNames,
    fold_left (noteSchema this) refs schemaNames
    = fold_left JSSet.add
        (List.filter (JSMap.has (schemas this))
           (map (fun schema => replaceFirst schema "[]" "")
              (List.filter truthy refs)))
        schemaNames.
Proof.
  induction refs as [|schema rest IH]; intros schemaNames; simpl; [reflexivity|].
  rewrite IH, noteSchema_add.
  destruct (truthy schema); simpl; [|reflexivity].
  now destruct (JSMap.has (schemas this) (replaceFirst schema "[]" "")).
Qed.

Lemma responses_fold (this : SwaggerMapper.t) (responses : list ResponseMetadata.t) :
  forall schemaNames,
    fold_left
      (fun schemaNames response =>
         match ResponseMetadata.schema response with
         | Some schema => noteSchema this schemaNames schema
         | None => schemaNames
         end)
      responses schemaNames
    = fold_left (noteSchema this)
        (flat_map
           (fun response =>
              match ResponseMetadata.schema response with
              | Some schema => [schema]
              | None => []
              end)
           responses)
        schemaNames.
Proof.
  induction responses as [|response rest IH]; intros schemaNames; simpl; [reflexivity|].
  rewrite IH, fold_left_app. now destruct (ResponseMetadata.schema response).
Qed.

(** The two loops of [getSchemasForModule] are one pass over the schema type
    names of the endpoints, the request body's before the responses'. *)
Lemma schemaNames_fold (this : SwaggerMapper.t) (endpoints : list EndpointMetadata.t) :
  forall schemaNames,
    fold_left
      (fun schemaNames endpoint =>
         let schemaNames :=
           match EndpointMetadata.requestBody endpoint with
           | Some requestBody =>
               noteSchema this schemaNames (RequestBodyMetadata.schema requestBody)
           | None => schemaNames
           end in
         fold_left
           (fun schemaNames response =>
              match ResponseMetadata.schema response with
              | Some schema => noteSchema this schemaNames schema
              | None => schemaNames
              end)
           (EndpointMetadata.responses endpoint) schemaNames)
      endpoints schemaNames
    = fold_left (noteSchema this) (flat_map Spec.schemaRefs endpoints) schemaNames.
Proof.
  induction endpoints as [|endpoint rest IH]; intros schemaNames; simpl; [reflexivity|].
  rewrite IH, fold_left_app, responses_fold. f_equal.
  unfold Spec.schemaRefs. rewrite fold_left_app.
  now destruct (EndpointMetadata.requestBody endpoint).
Qed.

(** The referenced schemas of a module: the catalog's records for the
    distinct names, in order, that remain when the first array suffix is cut
    from each schema type name of the endpoints. *)
Lemma getSchemasForModule_collects (this : SwaggerMapper.t)
  (endpoints : list EndpointMetadata.t) :
  getSchemasForModule this endpoints
  = flat_map
      (fun name =>
         match JSMap.get (schemas this) name with
         | Some record => [record]
         | None => []
         end)
      (Spec.distinct
         (List.filter (JSMap.has (schemas this))
            (map (fun schema => replaceFirst schema "[]" "")
               (List.filter truthy (flat_map Spec.schemaRefs endpoints))))).
Proof.
  unfold getSchemasForModule, Spec.distinct.
  now rewrite schemaNames_fold, fold_noteSchema.
Qed.

(** With at most one array suffix the name that is looked up is the base
    name. *)
Lemma replaceFirst_no_brackets (name : string) :
  Spec.allChars (fun c => negb (Ascii.eqb c "[")) name = true ->
  replaceFirst name "[]" "" = name /\ replaceFirst (name ++ "[]") "[]" "" = name.
Proof.
  induction name as [|c r IH]; [now split|].
  cbn [Spec.allChars]. intros [Hc Hr]%andb_prop.
  apply negb_true_iff in Hc. destruct (IH Hr) as [IH1 IH2].
  assert (Hprefix : forall rest, String.prefix "[]" (String c rest) = false).
  { intros rest. cbn [String.prefix].
    destruct (ascii_dec "[" c) as [<- | _]; [discriminate Hc | reflexivity]. }
  split.
  - cbn [replaceFirst]. now rewrite Hprefix, IH1.
  - change (String c r ++ "[]") with (String c (r ++ "[]")).
    cbn [replaceFirst]. now rewrite Hprefix, IH2.
Qed.

(** C6 fails on the code.  [getSchemasForModule] returns the catalog's
    records for the distinct names that remain when the first array suffix,
    and only the first, is cut from each schema type name of the endpoints.
    On the example the catalog has T and the response of the one endpoint is
    an array of arrays of T; its base name is T, but the name looked up still
    carries one suffix, and the module is left without T.  With one suffix
    the record is found. *)
Theorem nested_array_reference_is_left_out :
  (forall this endpoints,
      getSchemasForModule this endpoints
      = flat_map
          (fun name =>
             match JSMap.get (schemas this) name with
             | Some record => [record]
             | None => []
             end)
          (Spec.distinct
             (List.filter (JSMap.has (schemas this))
                (map (fun schema => replaceFirst schema "[]" "")
                   (List.filter truthy (flat_map Spec.schemaRefs endpoints))))))
  /\ JSMap.has
       (schemas (fst (mapToModules SwaggerMapper.new Examples.nestedArrayApi None)))
       "T" = true
  /\ map (fun m => flat_map Spec.schemaRefs (ModuleMetadata.endpoints m))
       (snd (mapToModules SwaggerMapper.new Examples.nestedArrayApi None))
     = [["T[][]"]]
  /\ Spec.baseName "T[][]" = "T"
  /\ replaceFirst "T[][]" "[]" "" = "T[]"
  /\ map ModuleMetadata.schemas
       (snd (mapToModules SwaggerMapper.new Examples.nestedArrayApi None))
     = [[]]
  /\ map ModuleMetadata.schemas
       (snd (mapToModules SwaggerMapper.new Examples.arrayApi None))
     = [[schemaRecord "T" (Doc.mkSchema None (Some "object") None None None)]].
Proof.
  split; [apply getSchemasForModule_collects|].
  repeat split.
Qed.

Lemma fold_left_pointwise {A B} (f g : A -> B -> A) (l : list B) (a : A) :
  (forall a x, f a x = g a x) -> fold_left f l a = fold_left g l a.
Proof.
  intros Hfg. revert a. induction l as [|x l IH]; intros a; simpl.
  - reflexivity.
  - now rewrite Hfg, IH.
Qed.

(** Appending a piece of text per element is appending the joined pieces. *)
Lemma fold_left_append {A} (piece : A -> string) (l : list A) (text : string) :
  fold_left (fun text x => text ++ piece x) l text = text ++ join (map piece l).
Proof.
  revert text. induction l as [|x l IH]; intros text; simpl.
  - now rewrite append_nil_r.
  - now rewrite IH, append_assoc.
Qed.

Lemma isRequired_requiredSet (schema : SchemaMetadata.t) (propName : string) :
  CodeGenerator.isRequired schema propName
  = existsb (String.eqb propName) (Spec.requiredSet schema).
Proof.
  unfold CodeGenerator.isRequired, Spec.requiredSet.
  now destruct (SchemaMetadata.required schema).
Qed.

Lemma isRequired_In (schema : SchemaMetadata.t) (propName : string) :
  CodeGenerator.isRequired schema propName = true
  <-> In propName (Spec.requiredSet schema).
Proof.
  rewrite isRequired_requiredSet, existsb_exists. split.
  - intros (x & Hx & ->%String.eqb_eq). exact Hx.
  - intros H. exists propName. split; [exact H | apply String.eqb_refl].
Qed.

(** The text that [generateTypesFile] builds declares the records it is
    given, one after the other. *)
Lemma typesContent_declarations (catalog : JSMap.t SchemaMetadata.t) :
  CodeGenerator.typesContent catalog = Spec.typesFileDeclaring catalog.
Proof.
  unfold CodeGenerator.typesContent, Spec.typesFileDeclaring.
  rewrite (fold_left_pointwise _ (fun text x => text ++ Spec.declaration x)).
  - rewrite fold_left_append. now rewrite !append_assoc.
  - intros text [name schema].
    rewrite (fold_left_pointwise _ (fun text x => text ++ Spec.propertyLine schema x)).
    + rewrite fold_left_append. unfold Spec.declaration. cbn [fst snd].
      now rewrite !append_assoc.
    + intros t [propName propValue]. unfold Spec.propertyLine. cbn [fst snd].
      now rewrite isRequired_requiredSet.
Qed.

Lemma get_In {V} (m : JSMap.t V) (k : string) (v : V) :
  JSMap.get m k = Some v -> In (k, v) m.
Proof.
  induction m as [|[k' v'] m IH]; simpl; [discriminate|].
  destruct (String.eqb_spec k' k) as [-> | _].
  - intros [= ->]. now left.
  - intros H. right. now apply IH.
Qed.

(** Every record that a module refers to is an entry of the catalog. *)
Lemma getSchemasForModule_in_catalog (this : SwaggerMapper.t)
  (endpoints : list EndpointMetadata.t) (record : SchemaMetadata.t) :
  In record (getSchemasForModule this endpoints) ->
  exists name, In (name, record) (schemas this).
Proof.
  rewrite getSchemasForModule_collects, in_flat_map.
  intros (name & _ & Hin). exists name. apply get_In.
  destruct (JSMap.get (schemas this) name) as [r|]; [|destruct Hin].
  destruct Hin as [-> | []]. reflexivity.
Qed.

(** C4, as amended.  For TypeScript the types file is the formatter's
    rendering of a text with exactly one declaration per record of the whole
    catalog of the mapper, in catalog order and one per name, whether or not a
    module refers to the record; the records that the modules refer to are
    among them.  For JavaScript there is no types file.  In a declaration a
    property is marked optional exactly when its name is not in the record's
    required names, an absent list requiring nothing. *)
Theorem types_file_declares_every_catalog_record
  (prettierFormat : string -> string -> option string)
  (this : SwaggerMapper.t) (api : Doc.Api.t) (selectedTags : option (list string)) :
  let catalog := getSchemas (fst (mapToModules this api selectedTags)) in
  CodeGenerator.typesContent catalog = Spec.typesFileDeclaring catalog
  /\ CodeGenerator.typesFileOfRun prettierFormat typescript catalog
     = Some (CodeGenerator.formatCode prettierFormat
               (Spec.typesFileDeclaring catalog) typescript)
  /\ CodeGenerator.typesFileOfRun prettierFormat javascript catalog = None
  /\ (List.NoDup (JSMap.keys (schemas this)) -> List.NoDup (JSMap.keys catalog))
  /\ (forall m record,
         In m (snd (mapToModules this api selectedTags)) ->
         In record (ModuleMetadata.schemas m) ->
         exists name, In (name, record) catalog)
  /\ (forall schema propName,
         CodeGenerator.isRequired schema propName = true
         <-> In propName (Spec.requiredSet schema))
  /\ (forall schema propName node,
         Spec.propertyLine schema (propName, node)
         = "  " ++ propName
           ++ (if CodeGenerator.isRequired schema propName then "" else "?")
           ++ ": " ++ CodeGenerator.getTypeScriptType (Some node) ++ ";"
           ++ CodeGenerator.LF).
Proof.
  intros catalog.
  split; [| split; [| split; [| split; [| split; [| split]]]]].
  - apply typesContent_declarations.
  - unfold CodeGenerator.typesFileOfRun, CodeGenerator.generateTypesFile.
    now rewrite typesContent_declarations.
  - reflexivity.
  - intros Hnodup. subst catalog. unfold getSchemas, mapToModules, extractSchemas.
    cbn [fst schemas].
    destruct (componentsSchemas api) as [c|], (Doc.Api.definitions api) as [d|];
      repeat apply NoDup_keys_indexSchemas; exact Hnodup.
  - intros m record Hm Hrecord. subst catalog.
    unfold mapToModules in Hm. cbn [snd] in Hm.
    apply in_map_iff in Hm as ([tag endpoints] & <- & _).
    cbn [ModuleMetadata.schemas] in Hrecord.
    now apply getSchemasForModule_in_catalog in Hrecord.
  - apply isRequired_In.
  - intros schema propName node. unfold Spec.propertyLine. cbn [fst snd].
    now rewrite isRequired_requiredSet.
Qed.

Lemma types_file_declares_every_catalog_record_witness :
  CodeGenerator.typesContent
    (getSchemas (fst (mapToModules SwaggerMapper.new Examples.shopApi None)))
  = Spec.typesFileDeclaring
      (getSchemas (fst (mapToModules SwaggerMapper.new Examples.shopApi None)))
  /\ List.NoDup
       (JSMap.keys
          (getSchemas (fst (mapToModules SwaggerMapper.new Examples.shopApi None))))
  /\ exists name,
      In (name, schemaRecord "User" (Doc.mkSchema None (Some "object") None None None))
        (getSchemas (fst (mapToModules SwaggerMapper.new Examples.shopApi None))).
Proof.
  pose proof (types_file_declares_every_catalog_record
                (fun code _ => Some code) SwaggerMapper.new Examples.shopApi None)
    as (Htext & _ & _ & Hnodup & Hreferenced & _).
  split; [exact Htext | split; [apply Hnodup; constructor|]].
  apply (Hreferenced
           (Spec.moduleOf (extractSchemas SwaggerMapper.new Examples.shopApi)
              Examples.shopApi "Users")).
  - left. reflexivity.
  - left. reflexivity.
Defined.

(** C4 as stated fails: no module refers to the record Unused, and the types
    file declares it all the same. *)
Lemma unreferenced_record_is_declared :
  length (snd (mapToModules SwaggerMapper.new Examples.unusedSchemaApi None)) = 1
  /\ Spec.referencedRecords
       (snd (mapToModules SwaggerMapper.new Examples.unusedSchemaApi None)) = []
  /\ CodeGenerator.typesContent
       (getSchemas (fst (mapToModules SwaggerMapper.new Examples.unusedSchemaApi None)))
     = "// Auto-generated type definitions" ++ CodeGenerator.LF ++ CodeGenerator.LF
       ++ "export interface Unused {" ++ CodeGenerator.LF
       ++ "  id?: number;" ++ CodeGenerator.LF
       ++ "}" ++ CodeGenerator.LF ++ CodeGenerator.LF
  /\ String.eqb
       (CodeGenerator.typesContent
          (getSchemas (fst (mapToModules SwaggerMapper.new Examples.unusedSchemaApi None))))
       (Spec.typesFileDeclaring
          (Spec.referencedRecords
             (snd (mapToModules SwaggerMapper.new Examples.unusedSchemaApi None))))
     = false.
Proof. repeat split. Qed.

End TypesFile.

(** ** Grouping endpoints into modules *)

Section Grouping.
Import JS SwaggerMapper.
#[local] Arguments String.append : simpl nomatch.

(** The two steps of the source, [has]/[set] and then [push], file the
    endpoint under the tag. *)
Lemma update_after_set (moduleMap : JSMap.t (list EndpointMetadata.t))
  (tag : string) (endpoint : EndpointMetadata.t) :
  JSMap.update
    (if negb (JSMap.has moduleMap tag) then JSMap.set moduleMap tag [] else moduleMap)
    tag (fun endpoints => (endpoints ++ [endpoint])%list)
  = Spec.fileUnder moduleMap tag endpoint.
Proof.
  induction moduleMap as [|[k v] rest IH]; simpl.
  - now rewrite String.eqb_refl.
  - unfold JSMap.has in *. simpl.
    destruct (String.eqb k tag) eqn:E; simpl.
    + now rewrite E.
    + destruct (JSMap.get rest tag) eqn:G; simpl in *; rewrite E; now rewrite <- IH.
Qed.

Lemma addToModule_fileUnder (selectedTags : option (list string))
  (endpoint : EndpointMetadata.t)
  (moduleMap : JSMap.t (list EndpointMetadata.t)) (tag : string) :
  addToModule selectedTags endpoint moduleMap tag
  = if skipped selectedTags tag then moduleMap
    else Spec.fileUnder moduleMap tag endpoint.
Proof.
  unfold addToModule. destruct (skipped selectedTags tag); [reflexivity|].
  apply update_after_set.
Qed.

Lemma fold_left_flat_map {A B C} (f : A -> C -> A) (g : B -> list C)
  (l : list B) (a : A) :
  fold_left f (flat_map g l) a = fold_left (fun a x => fold_left f (g x) a) l a.
Proof.
  revert a. induction l as [|x l IH]; intros a; simpl; [reflexivity|].
  now rewrite fold_left_app, IH.
Qed.

Lemma fold_left_map {A B C} (f : A -> C -> A) (h : B -> C) (l : list B) (a : A) :
  fold_left f (map h l) a = fold_left (fun a x => f a (h x)) l a.
Proof.
  revert a. induction l as [|x l IH]; intros a; simpl; [reflexivity | apply IH].
Qed.

(** The three nested loops of [mapToModules] are one pass over the endpoints
    paired with their tags. *)
Lemma groupEndpoints_fold (api : Doc.Api.t) (selectedTags : option (list string)) :
  groupEndpoints api selectedTags
  = fold_left (Spec.fileStep selectedTags) (Spec.taggedEndpoints api) [].
Proof.
  unfold groupEndpoints, Spec.taggedEndpoints, Spec.endpointsOf.
  rewrite !fold_left_flat_map.
  destruct (Doc.Api.paths api) as [paths|]; [|reflexivity].
  cbn [orEmpty]. apply fold_left_pointwise.
  intros moduleMap [path [pathItem|]]; [|reflexivity].
  rewrite fold_left_flat_map. apply fold_left_pointwise.
  intros mm method.
  destruct (Doc.PathItem.at_ pathItem method) as [operation|]; [|reflexivity].
  cbn [fold_left]. now rewrite fold_left_map.
Qed.


Lemma skipped_selects (filter : list string) (tag : string) :
  skipped (Some filter) tag = negb (Spec.selects filter tag).
Proof. reflexivity. Qed.

Lemma fileStep_all (moduleMap : JSMap.t (list EndpointMetadata.t))
  (entry : string * EndpointMetadata.t) :
  Spec.fileStep None moduleMap entry
  = Spec.fileUnder moduleMap (fst entry) (snd entry).
Proof. unfold Spec.fileStep. now rewrite addToModule_fileUnder. Qed.

Lemma fileStep_filtered (filter : list string)
  (moduleMap : JSMap.t (list EndpointMetadata.t))
  (entry : string * EndpointMetadata.t) :
  Spec.fileStep (Some filter) moduleMap entry
  = if Spec.selects filter (fst entry)
    then Spec.fileUnder moduleMap (fst entry) (snd entry)
    else moduleMap.
Proof.
  unfold Spec.fileStep. rewrite addToModule_fileUnder, skipped_selects.
  now destruct (Spec.selects filter (fst entry)).
Qed.

(** Filing and then keeping the selected tags is keeping them and then
    filing, when the tag is selected, and changes nothing when it is not. *)
Lemma keepKeys_fileUnder (test : string -> bool)
  (moduleMap : JSMap.t (list EndpointMetadata.t))
  (tag : string) (endpoint : EndpointMetadata.t) :
  Spec.keepKeys test (Spec.fileUnder moduleMap tag endpoint)
  = if test tag then Spec.fileUnder (Spec.keepKeys test moduleMap) tag endpoint
    else Spec.keepKeys test moduleMap.
Proof.
  unfold Spec.keepKeys.
  induction moduleMap as [|[k v] rest IH]; simpl.
  - now destruct (test tag).
  - destruct (String.eqb_spec k tag) as [-> | Hne]; simpl.
    + destruct (test tag); simpl; [now rewrite String.eqb_refl | reflexivity].
    + rewrite IH. destruct (test k), (test tag); simpl; try reflexivity.
      now destruct (String.eqb_spec k tag).
Qed.

Lemma keepKeys_fold (filter : list string)
  (entries : list (string * EndpointMetadata.t)) :
  forall moduleMap,
    Spec.keepKeys (Spec.selects filter) (fold_left (Spec.fileStep None) entries moduleMap)
    = fold_left (Spec.fileStep (Some filter)) entries
        (Spec.keepKeys (Spec.selects filter) moduleMap).
Proof.
  induction entries as [|entry rest IH]; intros moduleMap; simpl; [reflexivity|].
  rewrite IH, fileStep_all, fileStep_filtered, keepKeys_fileUnder.
  now destruct (Spec.selects filter (fst entry)).
Qed.

(** The module map of a filtered run is the module map of the unfiltered
    run, restricted to the selected tags. *)
Lemma groupEndpoints_filtered (api : Doc.Api.t) (filter : list string) :
  groupEndpoints api (Some filter)
  = Spec.keepKeys (Spec.selects filter) (groupEndpoints api None).
Proof. now rewrite !groupEndpoints_fold, keepKeys_fold. Qed.

Lemma filter_map_commute {A B} (f : A -> B) (test : B -> bool) (l : list A) :
  List.filter test (map f l) = map f (List.filter (fun x => test (f x)) l).
Proof.
  induction l as [|x l IH]; simpl; [reflexivity|].
  rewrite IH. now destruct (test (f x)).
Qed.

(** The filter law on the modules themselves. *)
Lemma mapToModules_filtered (this : SwaggerMapper.t) (api : Doc.Api.t)
  (filter : list string) :
  snd (mapToModules this api (Some filter))
  = List.filter (fun m => Spec.selects filter (ModuleMetadata.tag m))
      (snd (mapToModules this api None)).
Proof.
  unfold mapToModules. cbn [snd].
  rewrite groupEndpoints_filtered, filter_map_commute. unfold Spec.keepKeys.
  f_equal. apply filter_ext. now intros [tag endpoints].
Qed.


(** *** What the module map holds *)

Lemma JSSet_has_In (s : JSSet.t) (x : string) : JSSet.has s x = true <-> In x s.
Proof.
  unfold JSSet.has. rewrite existsb_exists. split.
  - intros (y & Hy & ->%String.eqb_eq). exact Hy.
  - intros H. exists x. split; [exact H | apply String.eqb_refl].
Qed.

Lemma JSSet_add_In (s : JSSet.t) (x y : string) :
  In y (JSSet.add s x) <-> In y s \/ y = x.
Proof.
  unfold JSSet.add. destruct (JSSet.has s x) eqn:E.
  - apply JSSet_has_In in E. split; [now left | now intros [H | ->]].
  - rewrite in_app_iff. simpl. intuition auto.
Qed.

Lemma JSSet_add_NoDup (s : JSSet.t) (x : string) :
  List.NoDup s -> List.NoDup (JSSet.add s x).
Proof.
  intros Hs. unfold JSSet.add. destruct (JSSet.has s x) eqn:E; [exact Hs|].
  apply List.NoDup_app; [exact Hs | repeat constructor; intros [] |].
  intros a Ha [<- | []]. apply JSSet_has_In in Ha. congruence.
Qed.

Lemma fold_add_In (l : list string) :
  forall s y, In y (fold_left JSSet.add l s) <-> In y s \/ In y l.
Proof.
  induction l as [|x l IH]; intros s y; simpl.
  - tauto.
  - rewrite IH, JSSet_add_In. split; intros H; intuition auto.
Qed.

Lemma fold_add_NoDup (l : list string) :
  forall s, List.NoDup s -> List.NoDup (fold_left JSSet.add l s).
Proof.
  induction l as [|x l IH]; intros s Hs; simpl; [exact Hs|].
  now apply IH, JSSet_add_NoDup.
Qed.

Lemma distinct_In (l : list string) (y : string) : In y (Spec.distinct l) <-> In y l.
Proof. unfold Spec.distinct. rewrite fold_add_In. simpl. tauto. Qed.

Lemma distinct_NoDup (l : list string) : List.NoDup (Spec.distinct l).
Proof. apply fold_add_NoDup. constructor. Qed.

(** Filing under a tag adds the tag to the keys as [Set.add] would. *)
Lemma keys_fileUnder (moduleMap : JSMap.t (list EndpointMetadata.t))
  (tag : string) (endpoint : EndpointMetadata.t) :
  JSMap.keys (Spec.fileUnder moduleMap tag endpoint)
  = JSSet.add (JSMap.keys moduleMap) tag.
Proof.
  unfold JSMap.keys, JSSet.add, JSSet.has.
  induction moduleMap as [|[k v] rest IH]; simpl; [reflexivity|].
  rewrite (String.eqb_sym tag k).
  destruct (String.eqb k tag); simpl; [reflexivity|].
  rewrite IH. now destruct (existsb (String.eqb tag) (map fst rest)).
Qed.

Lemma keys_fold_fileStep (entries : list (string * EndpointMetadata.t)) :
  forall moduleMap,
    JSMap.keys (fold_left (Spec.fileStep None) entries moduleMap)
    = fold_left JSSet.add (map fst entries) (JSMap.keys moduleMap).
Proof.
  induction entries as [|entry rest IH]; intros moduleMap; simpl; [reflexivity|].
  now rewrite IH, fileStep_all, keys_fileUnder.
Qed.

(** The endpoints of [entries] filed under [tag]. *)
Lemma get_fileUnder (moduleMap : JSMap.t (list EndpointMetadata.t))
  (tag tag' : string) (endpoint : EndpointMetadata.t) :
  JSMap.get (Spec.fileUnder moduleMap tag endpoint) tag'
  = if String.eqb tag tag'
    then Some (match JSMap.get moduleMap tag with
               | Some endpoints => (endpoints ++ [endpoint])%list
               | None => [endpoint]
               end)
    else JSMap.get moduleMap tag'.
Proof.
  induction moduleMap as [|[k v] rest IH]; simpl.
  - reflexivity.
  - destruct (String.eqb_spec k tag) as [-> | Hk]; simpl.
    + now destruct (String.eqb_spec tag tag').
    + rewrite IH.
      destruct (String.eqb_spec tag tag') as [<- | Ht].
      * now destruct (String.eqb_spec k tag).
      * reflexivity.
Qed.

Lemma get_fold_fileStep (entries : list (string * EndpointMetadata.t)) (tag : string) :
  forall moduleMap,
    JSMap.get (fold_left (Spec.fileStep None) entries moduleMap) tag
    = match JSMap.get moduleMap tag,
            map snd (List.filter (fun '(t, _) => String.eqb t tag) entries) with
      | Some endpoints, more => Some (endpoints ++ more)%list
      | None, [] => None
      | None, more => Some more
      end.
Proof.
  induction entries as [|[t e] rest IH]; intros moduleMap; simpl.
  - destruct (JSMap.get moduleMap tag); [now rewrite app_nil_r | reflexivity].
  - rewrite IH, fileStep_all, get_fileUnder. cbn [fst snd].
    destruct (String.eqb_spec t tag) as [-> | Hne]; simpl.
    + destruct (JSMap.get moduleMap tag) as [endpoints|].
      * now rewrite <- app_assoc.
      * reflexivity.
    + reflexivity.
Qed.

(** A map with one entry per key is the list of its keys, each with what
    [get] finds. *)
Lemma map_from_keys {V} (m : JSMap.t V) (value : string -> V) :
  List.NoDup (JSMap.keys m) ->
  (forall k, In k (JSMap.keys m) -> JSMap.get m k = Some (value k)) ->
  m = map (fun k => (k, value k)) (JSMap.keys m).
Proof.
  unfold JSMap.keys.
  induction m as [|[k v] rest IH]; intros Hnodup Hget; simpl; [reflexivity|].
  inversion Hnodup as [|? ? Hk Hrest]; subst.
  f_equal.
  - specialize (Hget k (or_introl eq_refl)). simpl in Hget.
    rewrite String.eqb_refl in Hget. now injection Hget as ->.
  - apply IH; [exact Hrest|].
    intros k' Hk'. specialize (Hget k' (or_intror Hk')). simpl in Hget.
    destruct (String.eqb_spec k k') as [-> | _]; [contradiction | exact Hget].
Qed.

(** Without a filter the module map has one module per distinct tag, in the
    order of first appearance, each with the endpoints filed under the tag in
    document order. *)
Lemma groupEndpoints_all (api : Doc.Api.t) :
  groupEndpoints api None
  = map (fun tag => (tag, Spec.endpointsTagged api tag))
      (Spec.distinct (map fst (Spec.taggedEndpoints api))).
Proof.
  rewrite groupEndpoints_fold.
  assert (Hkeys : JSMap.keys (fold_left (Spec.fileStep None) (Spec.taggedEndpoints api) [])
                  = Spec.distinct (map fst (Spec.taggedEndpoints api)))
    by apply (keys_fold_fileStep (Spec.taggedEndpoints api) []).
  rewrite <- Hkeys.
  apply map_from_keys.
  - rewrite Hkeys. apply distinct_NoDup.
  - intros tag Htag. rewrite Hkeys in Htag.
    apply (proj1 (distinct_In _ _)) in Htag.
    rewrite get_fold_fileStep. cbn [JSMap.get].
    unfold Spec.endpointsTagged.
    destruct (map snd (List.filter (fun '(t, _) => String.eqb t tag)
                         (Spec.taggedEndpoints api))) eqn:E; [|reflexivity].
    exfalso. apply in_map_iff in Htag as ([t e] & <- & Hin).
    assert (Hin' : In e (map snd (List.filter (fun '(t', _) => String.eqb t' t)
                                    (Spec.taggedEndpoints api)))).
    { apply in_map_iff. exists (t, e). split; [reflexivity|].
      apply filter_In. split; [exact Hin | apply String.eqb_refl]. }
    cbn [fst] in E. rewrite E in Hin'. destruct Hin'.
Qed.

Lemma mapToModules_all (this : SwaggerMapper.t) (api : Doc.Api.t) :
  snd (mapToModules this api None)
  = map (Spec.moduleOf (extractSchemas this api) api)
      (Spec.distinct (map fst (Spec.taggedEndpoints api))).
Proof.
  unfold mapToModules. cbn [snd]. rewrite groupEndpoints_all, map_map. reflexivity.
Qed.


Lemma mapToModules_filtered_modules (this : SwaggerMapper.t) (api : Doc.Api.t)
  (filter : list string) :
  snd (mapToModules this api (Some filter))
  = map (Spec.moduleOf (extractSchemas this api) api)
      (List.filter (Spec.selects filter)
         (Spec.distinct (map fst (Spec.taggedEndpoints api)))).
Proof.
  rewrite mapToModules_filtered, mapToModules_all, filter_map_commute. reflexivity.
Qed.

(** *** Endpoints and their tags *)

Lemma endpointsOf_path (api : Doc.Api.t) (path : string) (endpoint : EndpointMetadata.t) :
  In (path, endpoint) (Spec.endpointsOf api) -> EndpointMetadata.path endpoint = path.
Proof.
  unfold Spec.endpointsOf. rewrite in_flat_map.
  intros ([p [pathItem|]] & _ & Hin); [|destruct Hin].
  apply in_flat_map in Hin as (method & _ & Hin).
  destruct (Doc.PathItem.at_ pathItem method) as [operation|]; [|destruct Hin].
  destruct Hin as [[= <- <-] | []]. reflexivity.
Qed.

Lemma In_taggedEndpoints (api : Doc.Api.t) (tag : string) (endpoint : EndpointMetadata.t) :
  In (tag, endpoint) (Spec.taggedEndpoints api)
  <-> exists path,
      In (path, endpoint) (Spec.endpointsOf api)
      /\ In tag (effectiveTags path endpoint).
Proof.
  unfold Spec.taggedEndpoints. rewrite in_flat_map. split.
  - intros ([path e] & Hin & Htag).
    apply in_map_iff in Htag as (t & [= -> ->] & Ht). now exists path.
  - intros (path & Hin & Htag). exists (path, endpoint). split; [exact Hin|].
    apply in_map_iff. now exists tag.
Qed.

Lemma In_endpointsTagged (api : Doc.Api.t) (tag : string) (endpoint : EndpointMetadata.t) :
  In endpoint (Spec.endpointsTagged api tag)
  <-> In (tag, endpoint) (Spec.taggedEndpoints api).
Proof.
  unfold Spec.endpointsTagged. rewrite in_map_iff. split.
  - intros ([t e] & Heq & [Hin Ht%String.eqb_eq]%filter_In).
    cbn in Heq. now subst.
  - intros Hin. exists (tag, endpoint). split; [reflexivity|].
    apply filter_In. split; [exact Hin | apply String.eqb_refl].
Qed.

Lemma effectiveTags_untagged (path : string) (endpoint : EndpointMetadata.t) :
  EndpointMetadata.tags endpoint = [] ->
  effectiveTags path endpoint = [getTagFromPath path].
Proof. unfold effectiveTags. now intros ->. Qed.

Lemma effectiveTags_nonempty (path : string) (endpoint : EndpointMetadata.t) :
  effectiveTags path endpoint <> [].
Proof.
  unfold effectiveTags.
  destruct (EndpointMetadata.tags endpoint) as [|t ts]; simpl; discriminate.
Qed.

(** An endpoint without tags is in the module of its inferred tag and in no
    other. *)
Lemma untagged_endpoint_module (api : Doc.Api.t) (path tag : string)
  (endpoint : EndpointMetadata.t) :
  In (path, endpoint) (Spec.endpointsOf api) ->
  EndpointMetadata.tags endpoint = [] ->
  In endpoint (Spec.endpointsTagged api tag) <-> tag = getTagFromPath path.
Proof.
  intros Hin Htags. rewrite In_endpointsTagged, In_taggedEndpoints. split.
  - intros (path' & Hin' & Htag).
    apply endpointsOf_path in Hin, Hin'. subst path'. subst path.
    rewrite (effectiveTags_untagged _ _ Htags) in Htag.
    destruct Htag as [<- | []]. reflexivity.
  - intros ->. exists path. split; [exact Hin|].
    rewrite (effectiveTags_untagged _ _ Htags). now left.
Qed.

(** *** The inferred tag *)

Lemma pathSegments_slashes (n : nat) (path : string) :
  Naming.pathSegments (Spec.slashes n ++ path) = Naming.pathSegments path.
Proof. induction n as [|n IH]; [reflexivity | exact IH]. Qed.

Lemma nonempty_length (s : string) : s <> "" -> (0 <? String.length s)%nat = true.
Proof. destruct s; [congruence | reflexivity]. Qed.

Lemma pathSegments_first (segment rest : string) :
  Spec.noSlash segment = true -> segment <> "" ->
  Naming.pathSegments (segment ++ "/" ++ rest) = segment :: Naming.pathSegments rest.
Proof.
  intros Hseg Hne. unfold Naming.pathSegments.
  change (segment ++ "/" ++ rest) with (segment ++ String "/" rest).
  rewrite split_app_sep, (split_noSlash _ Hseg). simpl.
  now rewrite (nonempty_length _ Hne).
Qed.

Lemma pathSegments_only (segment : string) :
  Spec.noSlash segment = true -> segment <> "" ->
  Naming.pathSegments segment = [segment].
Proof.
  intros Hseg Hne. unfold Naming.pathSegments.
  rewrite (split_noSlash _ Hseg). simpl. now rewrite (nonempty_length _ Hne).
Qed.

Lemma getTagFromPath_first_segment (n : nat) (segment rest : string) :
  Spec.noSlash segment = true -> segment <> "" ->
  getTagFromPath (Spec.slashes n ++ segment ++ "/" ++ rest)
  = Naming.capitalize (removeBraces segment)
  /\ getTagFromPath (Spec.slashes n ++ segment)
     = Naming.capitalize (removeBraces segment).
Proof.
  intros Hseg Hne. unfold getTagFromPath.
  rewrite !pathSegments_slashes, (pathSegments_first _ _ Hseg Hne),
    (pathSegments_only _ Hseg Hne).
  split; reflexivity.
Qed.

Lemma getTagFromPath_no_segment (n : nat) : getTagFromPath (Spec.slashes n) = "Default".
Proof.
  unfold getTagFromPath.
  rewrite <- (append_nil_r (Spec.slashes n)), pathSegments_slashes. reflexivity.
Qed.


(** The mapper's [replace(/[{}]/g, '')] leaves the characters that are not
    a brace, in their order. *)
Lemma removeBraces_withoutBraces (str : string) :
  removeBraces str = Words.withoutBraces str.
Proof.
  unfold Words.withoutBraces.
  induction str as [|c r IH]; [reflexivity|].
  cbn [removeBraces list_ascii_of_string List.filter]. unfold Words.isBrace at 1.
  destruct (Ascii.eqb c "{" || Ascii.eqb c "}"); cbn [negb string_of_list_ascii];
    now rewrite IH.
Qed.

Lemma capitalize_is_upperFirst (s : string) :
  Naming.capitalize s = Words.upperFirst s.
Proof.
  destruct s as [|c r]; [reflexivity|].
  unfold Naming.capitalize. now rewrite sliceFrom_cons.
Qed.

Lemma withoutBraces_app (a b : string) :
  Words.withoutBraces (a ++ b) = Words.withoutBraces a ++ Words.withoutBraces b.
Proof.
  rewrite <- !removeBraces_withoutBraces.
  induction a as [|c a IH]; [reflexivity|].
  cbn [String.append removeBraces].
  destruct (Ascii.eqb c "{" || Ascii.eqb c "}"); [exact IH|].
  cbn [String.append]. now rewrite IH.
Qed.

Lemma withoutBraces_none (x : string) :
  Spec.allChars (fun c => negb (Words.isBrace c)) x = true ->
  Words.withoutBraces x = x.
Proof.
  rewrite <- removeBraces_withoutBraces.
  induction x as [|c x IH]; [reflexivity|].
  cbn [Spec.allChars removeBraces]. unfold Words.isBrace at 1.
  intros [Hc Hx]%andb_prop. apply negb_true_iff in Hc. now rewrite Hc, (IH Hx).
Qed.

(** The inferred tag of a path whose first segment is given. *)
Lemma getTagFromPath_words (n : nat) (segment rest : string) :
  Spec.noSlash segment = true -> segment <> "" ->
  getTagFromPath (Spec.slashes n ++ segment ++ "/" ++ rest)
  = Words.upperFirst (Words.withoutBraces segment)
  /\ getTagFromPath (Spec.slashes n ++ segment)
     = Words.upperFirst (Words.withoutBraces segment).
Proof.
  intros Hseg Hne.
  destruct (getTagFromPath_first_segment n segment rest Hseg Hne) as [-> ->].
  now rewrite capitalize_is_upperFirst, removeBraces_withoutBraces.
Qed.

(** The inferred tag of a path that starts with a parameter. *)
Lemma getTagFromPath_parameter (x rest : string) :
  Spec.noSlash x = true ->
  Spec.allChars (fun c => negb (Words.isBrace c)) x = true ->
  getTagFromPath ("/" ++ "{" ++ x ++ "}" ++ "/" ++ rest) = Words.upperFirst x
  /\ getTagFromPath ("/" ++ "{" ++ x ++ "}") = Words.upperFirst x.
Proof.
  intros Hslash Hbraces.
  assert (Hsegment : Spec.noSlash ("{" ++ x ++ "}") = true).
  { unfold Spec.noSlash in *. cbn [String.append Spec.allChars].
    rewrite allChars_app, Hslash. reflexivity. }
  assert (Hne : "{" ++ x ++ "}" <> "") by discriminate.
  assert (Hstripped : Words.withoutBraces ("{" ++ x ++ "}") = x).
  { change ("{" ++ x ++ "}") with ("{" ++ (x ++ "}")).
    rewrite !withoutBraces_app, (withoutBraces_none x Hbraces).
    cbn. apply append_nil_r. }
  destruct (getTagFromPath_words 1 ("{" ++ x ++ "}") rest Hsegment Hne) as [H1 H2].
  rewrite Hstripped in H1, H2. split.
  - rewrite <- H1. cbn [Spec.slashes String.append]. now rewrite !append_assoc.
  - rewrite <- H2. reflexivity.
Qed.

(** C2.  For every document and every tag filter, the modules of the
    filtered run are the modules of the unfiltered run whose tag is in the
    filter, in the same order and with the same module names, endpoints and
    referenced schemas, and the catalog is the same.  An endpoint that
    declares no tags is filed under its one inferred tag, it is in the
    modules of that tag only, and it is in a module of the filtered run
    exactly when the inferred tag is in the filter.  The inferred tag is the
    first non-empty segment of the path without its braces, that is, its
    characters that are not a brace in their order, with the first of them
    in upper case, and Default for a path without segments; so a path that
    starts with a parameter [{x}] is filed under [x] with its first letter
    in upper case, /{id}/x under Id. *)
Theorem mapToModules_filter_law (this : SwaggerMapper.t) (api : Doc.Api.t)
  (filter : list string) :
  snd (mapToModules this api (Some filter))
  = List.filter (fun m => Spec.selects filter (ModuleMetadata.tag m))
      (snd (mapToModules this api None))
  /\ fst (mapToModules this api (Some filter)) = fst (mapToModules this api None)
  /\ (forall path endpoint,
         In (path, endpoint) (Spec.endpointsOf api) ->
         EndpointMetadata.tags endpoint = [] ->
         effectiveTags path endpoint = [getTagFromPath path]
         /\ (forall m,
                In m (snd (mapToModules this api (Some filter))) ->
                In endpoint (ModuleMetadata.endpoints m)
                <-> ModuleMetadata.tag m = getTagFromPath path)
         /\ ((exists m,
                 In m (snd (mapToModules this api (Some filter)))
                 /\ In endpoint (ModuleMetadata.endpoints m))
             <-> Spec.selects filter (getTagFromPath path) = true))
  /\ (forall n segment rest,
         Spec.noSlash segment = true -> segment <> "" ->
         getTagFromPath (Spec.slashes n ++ segment ++ "/" ++ rest)
         = Words.upperFirst (Words.withoutBraces segment)
         /\ getTagFromPath (Spec.slashes n ++ segment)
            = Words.upperFirst (Words.withoutBraces segment))
  /\ (forall n, getTagFromPath (Spec.slashes n) = "Default")
  /\ (forall x rest,
         Spec.noSlash x = true ->
         Spec.allChars (fun c => negb (Words.isBrace c)) x = true ->
         getTagFromPath ("/" ++ "{" ++ x ++ "}" ++ "/" ++ rest) = Words.upperFirst x
         /\ getTagFromPath ("/" ++ "{" ++ x ++ "}") = Words.upperFirst x)
  /\ getTagFromPath "/{id}/x" = "Id"
  /\ getTagFromPath "/user-{id}s" = "User-ids".
Proof.
  split; [apply mapToModules_filtered|].
  split; [reflexivity|].
  split;
    [| split;
       [apply getTagFromPath_words
       | split;
         [apply getTagFromPath_no_segment
         | split; [apply getTagFromPath_parameter | split; reflexivity]]]].
  intros path endpoint Hin Htags.
  assert (Hmodule : forall m,
             In m (snd (mapToModules this api (Some filter))) ->
             In endpoint (ModuleMetadata.endpoints m)
             <-> ModuleMetadata.tag m = getTagFromPath path).
  { intros m Hm. rewrite mapToModules_filtered_modules in Hm.
    apply in_map_iff in Hm as (tag & <- & _). cbn [Spec.moduleOf ModuleMetadata.endpoints ModuleMetadata.tag].
    now apply untagged_endpoint_module. }
  split; [now apply effectiveTags_untagged|].
  split; [exact Hmodule|].
  split.
  - intros (m & Hm & Hep).
    apply (Hmodule m Hm) in Hep. rewrite <- Hep.
    rewrite mapToModules_filtered in Hm. now apply filter_In in Hm.
  - intros Hsel.
    exists (Spec.moduleOf (extractSchemas this api) api (getTagFromPath path)).
    split.
    + rewrite mapToModules_filtered_modules. apply in_map, filter_In.
      split; [|exact Hsel].
      apply distinct_In, in_map_iff. exists (getTagFromPath path, endpoint).
      split; [reflexivity|].
      apply In_taggedEndpoints. exists path. split; [exact Hin|].
      rewrite (effectiveTags_untagged _ _ Htags). now left.
    + cbn [Spec.moduleOf ModuleMetadata.endpoints].
      now apply (untagged_endpoint_module api path _ endpoint Hin Htags).
Qed.

Lemma mapToModules_filter_law_witness :
  snd (mapToModules SwaggerMapper.new Examples.shopApi (Some ["Products"]))
  = List.filter (fun m => Spec.selects ["Products"] (ModuleMetadata.tag m))
      (snd (mapToModules SwaggerMapper.new Examples.shopApi None))
  /\ effectiveTags "/products"
       (mapEndpoint "/products" "POST" (Examples.operationReturning None None))
     = [getTagFromPath "/products"]
  /\ (In (mapEndpoint "/products" "POST" (Examples.operationReturning None None))
         (ModuleMetadata.endpoints
            (Spec.moduleOf (extractSchemas SwaggerMapper.new Examples.shopApi)
               Examples.shopApi "Products"))
      <-> ModuleMetadata.tag
            (Spec.moduleOf (extractSchemas SwaggerMapper.new Examples.shopApi)
               Examples.shopApi "Products")
          = getTagFromPath "/products")
  /\ (exists m,
         In m (snd (mapToModules SwaggerMapper.new Examples.shopApi (Some ["Products"])))
         /\ In (mapEndpoint "/products" "POST" (Examples.operationReturning None None))
              (ModuleMetadata.endpoints m))
  /\ getTagFromPath ("/" ++ "products" ++ "/" ++ "{id}") = "Products"
  /\ getTagFromPath ("/" ++ "products") = "Products"
  /\ getTagFromPath ("/" ++ "{id}" ++ "/" ++ "x") = "Id"
  /\ getTagFromPath ("/" ++ "{" ++ "shop" ++ "}") = "Shop".
Proof.
  destruct (mapToModules_filter_law SwaggerMapper.new Examples.shopApi ["Products"])
    as (Hlaw & _ & Huntagged & Hinferred & _ & Hparameter & _).
  destruct (Huntagged "/products"
              (mapEndpoint "/products" "POST" (Examples.operationReturning None None)))
    as (Htags & Hmodule & Hselected).
  { right. left. reflexivity. }
  { reflexivity. }
  split; [exact Hlaw | split; [exact Htags | split; [| split; [| split; [| split; [| split]]]]]].
  - apply Hmodule. left. reflexivity.
  - apply Hselected. reflexivity.
  - apply (Hinferred 1 "products" "{id}"); [reflexivity | discriminate].
  - apply (Hinferred 1 "products" "{id}"); [reflexivity | discriminate].
  - apply (Hinferred 1 "{id}" "x"); [reflexivity | discriminate].
  - apply (Hparameter "shop" ""); reflexivity.
Defined.

Lemma fold_add_nil (l : list string) :
  forall s, fold_left JSSet.add l s = [] -> s = [] /\ l = [].
Proof.
  induction l as [|x l IH]; intros s H; simpl in H; [now split|].
  apply IH in H as [Hadd _]. unfold JSSet.add in Hadd.
  destruct (JSSet.has s x) eqn:E.
  - subst s. discriminate E.
  - now destruct s.
Qed.

Lemma taggedEndpoints_nil (api : Doc.Api.t) :
  Spec.taggedEndpoints api = [] <-> Spec.endpointsOf api = [].
Proof.
  unfold Spec.taggedEndpoints. split.
  - destruct (Spec.endpointsOf api) as [|[path endpoint] rest]; [reflexivity|].
    simpl. intros H. apply app_eq_nil in H as [H _].
    apply map_eq_nil in H. now apply effectiveTags_nonempty in H.
  - now intros ->.
Qed.

(** C10.  With a filter that is present and empty the run returns no module,
    whatever the document.  With no filter it returns one module per distinct
    tag of the document, so it returns no module only for a document without
    operations.  On the example document the unfiltered run gives the
    modules Users and Products, the run with the empty filter none. *)
Theorem mapToModules_empty_filter (this : SwaggerMapper.t) (api : Doc.Api.t) :
  snd (mapToModules this api (Some [])) = []
  /\ snd (mapToModules this api None)
     = map (Spec.moduleOf (extractSchemas this api) api)
         (Spec.distinct (map fst (Spec.taggedEndpoints api)))
  /\ (snd (mapToModules this api None) = [] <-> Spec.endpointsOf api = [])
  /\ map ModuleMetadata.tag (snd (mapToModules SwaggerMapper.new Examples.shopApi None))
     = ["Users"; "Products"]
  /\ snd (mapToModules SwaggerMapper.new Examples.shopApi (Some [])) = [].
Proof.
  split; [| split; [apply mapToModules_all | split; [| split; reflexivity]]].
  - rewrite mapToModules_filtered_modules.
    now rewrite (filter_ext _ (fun _ => false)), filter_false
      by (intros tag; reflexivity).
  - rewrite mapToModules_all, <- taggedEndpoints_nil. split.
    + intros H%map_eq_nil. unfold Spec.distinct in H.
      apply fold_add_nil in H as [_ H]. now apply map_eq_nil in H.
    + now intros ->.
Qed.

End Grouping.

(** ** Call names in words *)

Section CallNames.
Import JS Naming.
#[local] Arguments String.append : simpl nomatch.





Lemma joined_append (first : string) (others : list (Words.Separator * string)) :
  Words.joined first others = first ++ Words.joined "" others.
Proof.
  destruct others as [|[s w] others]; cbn [Words.joined]; [now rewrite append_nil_r|].
  reflexivity.
Qed.



Lemma capitalize_upperFirst (s : string) : capitalize s = Words.upperFirst s.
Proof. destruct s as [|c r]; [reflexivity | apply capitalize_cons]. Qed.











End CallNames.

(** ** The template registry *)

Section Templates.
Import TemplateEngine.

Variable readFile : string -> option string.
Variable compile : string -> HandlebarsTemplateDelegate.
Variable convertToJavaScript : string -> string.

(** A load that did not throw registered every entry and kept what was
    registered before. *)
Lemma loadEntries_registers (entries : list (string * string)) :
  forall this this',
    loadEntries readFile compile entries this = (this', None) ->
    forall library,
      In library (map fst entries) \/ is_Some (templates this !! library) ->
      is_Some (templates this' !! library).
Proof.
  induction entries as [|[lib filename] rest IH]; intros this this' Hload library Hin.
  - injection Hload as <-. destruct Hin as [[] | H]; exact H.
  - cbn [loadEntries] in Hload.
    destruct (readFile filename) as [content|]; [|discriminate Hload].
    apply (IH _ _ Hload). cbn [templates].
    destruct (decide (lib = library)) as [-> | Hne].
    + right. rewrite lookup_insert_eq. now eexists.
    + destruct Hin as [[Heq | Hin] | Hsome].
      * cbn in Heq. congruence.
      * now left.
      * right. now rewrite lookup_insert_ne.
Qed.

Lemma generateModule_not_found_iff (this : TemplateEngine.t)
  (module : ModuleMetadata.t) (library : string) (language : LanguageChoice) :
  Spec.isUnknownLibrary (generateModule convertToJavaScript this module library language)
  = true
  <-> templates this !! library = None.
Proof.
  unfold generateModule.
  destruct (templates this !! library) as [template|].
  - split; [|discriminate].
    destruct (template module); [destruct language|]; discriminate.
  - split; reflexivity.
Qed.

(** C9.  Rendering a module throws the error of an unknown library exactly
    when the registry has no template for the selected library, and the
    error names that library; after a load of the templates that did not
    throw, rendering for any of the four library choices does not throw this
    error. *)
Theorem generateModule_unknown_library_iff :
  (forall this module library language,
      Spec.isUnknownLibrary
        (generateModule convertToJavaScript this module library language) = true
      <-> templates this !! library = None)
  /\ (forall this module library language,
         templates this !! library = None ->
         generateModule convertToJavaScript this module library language
         = Throw (TemplateNotFound library))
  /\ (forall this this' module library language,
         loadTemplates readFile compile this = (this', None) ->
         In library Spec.supportedLibraries ->
         Spec.isUnknownLibrary
           (generateModule convertToJavaScript this' module library language) = false).
Proof.
  split; [| split].
  - apply generateModule_not_found_iff.
  - intros this module library language Hnone. unfold generateModule.
    destruct (templates this !! library) eqn:E; [congruence | reflexivity].
  - intros this this' module library language Hload Hin.
    apply not_true_is_false. rewrite generateModule_not_found_iff.
    assert (Hsome : is_Some (templates this' !! library)).
    { apply (loadEntries_registers _ _ _ Hload). left. exact Hin. }
    destruct Hsome as [template ->]. discriminate.
Qed.

End Templates.

Lemma generateModule_unknown_library_witness :
  Spec.isUnknownLibrary
    (TemplateEngine.generateModule (fun code => code) TemplateEngine.new
       (ModuleMetadata.mk "Users" "Users" [] []) "zustand" typescript) = true
  /\ TemplateEngine.generateModule (fun code => code) TemplateEngine.new
       (ModuleMetadata.mk "Users" "Users" [] []) "mobx" javascript
     = TemplateEngine.Throw (TemplateEngine.TemplateNotFound "mobx")
  /\ Spec.isUnknownLibrary
       (TemplateEngine.generateModule (fun code => code)
          (fst (TemplateEngine.loadTemplates
                  (fun filename => Some filename) (fun content _ => Some content)
                  TemplateEngine.new))
          (ModuleMetadata.mk "Users" "Users" [] []) "zustand" typescript) = false.
Proof.
  destruct (generateModule_unknown_library_iff
              (fun filename => Some filename) (fun content _ => Some content)
              (fun code => code)) as (Hiff & Hthrown & Hloaded).
  split; [| split].
  - apply Hiff. reflexivity.
  - apply Hthrown. reflexivity.
  - apply (Hloaded TemplateEngine.new).
    + reflexivity.
    + now left.
Defined.

(** * Further properties *)

(** ** Names: call names, module names, folder and file names *)

Section MoreNames.
Import JS Naming SwaggerMapper.
#[local] Arguments String.append : simpl nomatch.

Ltac each_character c :=
  destruct c as [[] [] [] [] [] [] [] []]; vm_compute;
  try (let H := fresh in intros H; first [discriminate H | clear H]);
  first [reflexivity | repeat split].

(** The segments of two paths joined by a slash are the segments of the
    first and then those of the second. *)
Lemma pathSegments_join (a b : string) :
  pathSegments (a ++ "/" ++ b) = (pathSegments a ++ pathSegments b)%list.
Proof.
  unfold pathSegments.
  change (a ++ "/" ++ b) with (a ++ String "/" b).
  now rewrite split_app_sep, List.filter_app.
Qed.

Lemma join_app (l1 l2 : list string) : join (l1 ++ l2) = join l1 ++ join l2.
Proof.
  induction l1 as [|x l1 IH]; simpl; [reflexivity|].
  now rewrite IH, append_assoc.
Qed.

Lemma pathToFunctionName_no_method (path : string) :
  pathToFunctionName path "" = join (map Spec.token (pathSegments path)).
Proof. now rewrite pathToFunctionName_tokens. Qed.

(** X1.  The call name reads the path by its non-empty segments only: the
    name of two paths joined by a slash is the name of the first followed by
    the tokens of the second, and a slash in front, a slash at the end or a
    doubled slash changes nothing. *)
Theorem pathToFunctionName_slashes (a b method : string) :
  pathToFunctionName (a ++ "/" ++ b) method
  = pathToFunctionName a method ++ pathToFunctionName b ""
  /\ pathToFunctionName ("/" ++ a) method = pathToFunctionName a method
  /\ pathToFunctionName (a ++ "/") method = pathToFunctionName a method
  /\ pathToFunctionName (a ++ "/" ++ "/" ++ b) method
     = pathToFunctionName (a ++ "/" ++ b) method.
Proof.
  assert (Hjoin : forall x y,
             pathToFunctionName (x ++ "/" ++ y) method
             = pathToFunctionName x method ++ pathToFunctionName y "").
  { intros x y.
    rewrite pathToFunctionName_no_method, !pathToFunctionName_tokens.
    now rewrite pathSegments_join, map_app, join_app, append_assoc. }
  split; [apply Hjoin | split; [| split]].
  - reflexivity.
  - change (a ++ "/") with (a ++ "/" ++ "").
    rewrite Hjoin. change (pathToFunctionName "" "") with "".
    apply append_nil_r.
  - rewrite (Hjoin a ("/" ++ b)), (Hjoin a b). reflexivity.
Qed.

(** *** Module names *)

Lemma upperChar_wordChar (c : ascii) :
  Props.wordChar (upperChar c) = Props.wordChar c.
Proof. each_character c. Qed.

Lemma upperChar_twice (c : ascii) : upperChar (upperChar c) = upperChar c.
Proof. each_character c. Qed.

Lemma capitalize_empty : capitalize "" = "".
Proof. reflexivity. Qed.

Lemma capitalize_wordChars (s : string) :
  Spec.allChars Props.wordChar (capitalize s) = Spec.allChars Props.wordChar s.
Proof.
  destruct s as [|c r]; [reflexivity|].
  rewrite capitalize_cons. cbn [Spec.allChars]. now rewrite upperChar_wordChar.
Qed.

Lemma capitalize_twice (s : string) : capitalize (capitalize s) = capitalize s.
Proof.
  destruct s as [|c r]; [reflexivity|].
  now rewrite !capitalize_cons, upperChar_twice.
Qed.

(** The pieces between separators hold no separator. *)
Lemma splitRuns_wordChars (str : string) :
  forall afterSeparator,
    forallb (Spec.allChars Props.wordChar) (splitRuns afterSeparator str) = true.
Proof.
  induction str as [|c r IH]; intros afterSeparator; [reflexivity|].
  cbn [splitRuns]. destruct (isTagSeparator c) eqn:Ec.
  - destruct afterSeparator; [apply IH|]. cbn [forallb Spec.allChars]. apply IH.
  - specialize (IH false). destruct (splitRuns false r) as [|h t].
    + cbn. unfold Props.wordChar. now rewrite Ec.
    + cbn [forallb Spec.allChars] in *. unfold Props.wordChar at 1. now rewrite Ec.
Qed.

Lemma join_capitalized_wordChars (pieces : list string) :
  forallb (Spec.allChars Props.wordChar) pieces = true ->
  Spec.allChars Props.wordChar (join (map (fun word => capitalize word) pieces)) = true.
Proof.
  induction pieces as [|p rest IH]; [reflexivity|].
  cbn [forallb map join]. intros [Hp Hrest]%andb_prop.
  now rewrite allChars_app, capitalize_wordChars, Hp, IH.
Qed.

(** A string without separators is one piece. *)
Lemma splitRuns_one_piece (str : string) :
  Spec.allChars Props.wordChar str = true -> splitRuns false str = [str].
Proof.
  induction str as [|c r IH]; [reflexivity|].
  cbn [Spec.allChars splitRuns]. intros [Hc Hr]%andb_prop.
  unfold Props.wordChar in Hc. apply negb_true_iff in Hc.
  now rewrite Hc, (IH Hr).
Qed.

Lemma capitalize_join_capitalized (pieces : list string) :
  capitalize (join (map (fun word => capitalize word) pieces))
  = join (map (fun word => capitalize word) pieces).
Proof.
  induction pieces as [|p rest IH]; [reflexivity|].
  cbn [map join]. destruct p as [|c r].
  - exact IH.
  - rewrite capitalize_cons. cbn [String.append].
    now rewrite capitalize_cons, upperChar_twice.
Qed.

(** X2.  A module name holds no white space, dash or underscore, whatever
    the tag, and naming a module name again gives it back. *)
Theorem tagToModuleName_normal_form (tag : string) :
  Spec.allChars Props.wordChar (tagToModuleName tag) = true
  /\ tagToModuleName (tagToModuleName tag) = tagToModuleName tag.
Proof.
  assert (Hword : Spec.allChars Props.wordChar (tagToModuleName tag) = true).
  { unfold tagToModuleName. apply join_capitalized_wordChars, splitRuns_wordChars. }
  split; [exact Hword|].
  unfold tagToModuleName at 1. rewrite (splitRuns_one_piece _ Hword).
  cbn [map join]. rewrite append_nil_r.
  unfold tagToModuleName. apply capitalize_join_capitalized.
Qed.

Lemma splitRuns_separator_choice (a b : string) (c d : ascii) :
  isTagSeparator c = true -> isTagSeparator d = true ->
  forall afterSeparator,
    splitRuns afterSeparator (a ++ String c b)
    = splitRuns afterSeparator (a ++ String d b).
Proof.
  intros Hc Hd. induction a as [|x a IH]; intros afterSeparator.
  - cbn [String.append splitRuns]. now rewrite Hc, Hd.
  - cbn [String.append splitRuns]. now rewrite !IH.
Qed.

Lemma splitRuns_separator_run (a b : string) (c d : ascii) :
  isTagSeparator c = true -> isTagSeparator d = true ->
  forall afterSeparator,
    splitRuns afterSeparator (a ++ String c (String d b))
    = splitRuns afterSeparator (a ++ String c b).
Proof.
  intros Hc Hd. induction a as [|x a IH]; intros afterSeparator.
  - cbn [String.append splitRuns]. now rewrite Hc, Hd.
  - cbn [String.append splitRuns]. now rewrite !IH.
Qed.

(** X3.  The module name does not tell which separator stood between two
    words, nor how many: tags that differ only there are given the same
    module name. *)
Theorem tagToModuleName_separators (a b : string) (c d : ascii) :
  isTagSeparator c = true -> isTagSeparator d = true ->
  tagToModuleName (a ++ String c b) = tagToModuleName (a ++ String d b)
  /\ tagToModuleName (a ++ String c (String d b)) = tagToModuleName (a ++ String c b).
Proof.
  intros Hc Hd. unfold tagToModuleName. split.
  - now rewrite (splitRuns_separator_choice a b c d Hc Hd).
  - now rewrite (splitRuns_separator_run a b c d Hc Hd).
Qed.

Lemma tagToModuleName_separators_witness :
  tagToModuleName "User Management" = tagToModuleName "User-Management"
  /\ tagToModuleName "User -Management" = tagToModuleName "User Management".
Proof.
  apply (tagToModuleName_separators "User" "Management" " " "-"); reflexivity.
Defined.

End MoreNames.

(** ** Folder and file names *)

Section OutputNames.
Import JS Output.
#[local] Arguments String.append : simpl nomatch.

Ltac each_character c :=
  destruct c as [[] [] [] [] [] [] [] []]; vm_compute;
  try (let H := fresh in intros H; first [discriminate H | clear H]);
  first [reflexivity | repeat split].

Lemma lowerChar_kebabChar (c : ascii) :
  isSpaceOrUnderscore c = false -> Props.kebabChar (lowerChar c) = true.
Proof. each_character c. Qed.

Lemma lowerChar_fixed (c : ascii) : isUpperLetter c = false -> lowerChar c = c.
Proof. each_character c. Qed.

Lemma dashForRuns_no_space (str : string) :
  forall inRun,
    Spec.allChars (fun c => negb (isSpaceOrUnderscore c)) (dashForRuns inRun str) = true.
Proof.
  induction str as [|c r IH]; intros inRun; [reflexivity|].
  cbn [dashForRuns]. destruct (isSpaceOrUnderscore c) eqn:Ec.
  - destruct inRun; [apply IH|]. cbn [Spec.allChars]. apply IH.
  - cbn [Spec.allChars]. now rewrite Ec, IH.
Qed.

Lemma toLowerCase_kebabChars (str : string) :
  Spec.allChars (fun c => negb (isSpaceOrUnderscore c)) str = true ->
  Spec.allChars Props.kebabChar (toLowerCase str) = true.
Proof.
  induction str as [|c r IH]; [reflexivity|].
  cbn [Spec.allChars]. intros [Hc Hr]%andb_prop. apply negb_true_iff in Hc.
  change (toLowerCase (String c r)) with (String (lowerChar c) (toLowerCase r)).
  cbn [Spec.allChars]. now rewrite (lowerChar_kebabChar c Hc), (IH Hr).
Qed.

(** A string of kebab characters goes through the three steps unchanged. *)
Lemma kebabChar_parts (c : ascii) :
  Props.kebabChar c = true -> isUpperLetter c = false /\ isSpaceOrUnderscore c = false.
Proof.
  unfold Props.kebabChar. intros [H1 H2]%andb_prop.
  now apply negb_true_iff in H1, H2.
Qed.

Lemma dashBetweenCases_fixed (str : string) :
  Spec.allChars Props.kebabChar str = true -> dashBetweenCases str = str.
Proof.
  induction str as [|c r IH]; [reflexivity|].
  cbn [Spec.allChars]. intros [Hc Hr]%andb_prop.
  cbn [dashBetweenCases]. destruct r as [|d r']; [reflexivity|].
  assert (Hd : isUpperLetter d = false).
  { cbn [Spec.allChars] in Hr. apply andb_prop in Hr as [Hd _].
    now apply kebabChar_parts in Hd. }
  rewrite Hd, andb_false_r. now rewrite (IH Hr).
Qed.

Lemma dashForRuns_fixed (str : string) :
  Spec.allChars Props.kebabChar str = true -> dashForRuns false str = str.
Proof.
  induction str as [|c r IH]; [reflexivity|].
  cbn [Spec.allChars]. intros [Hc Hr]%andb_prop.
  apply kebabChar_parts in Hc as [_ Hc].
  cbn [dashForRuns]. now rewrite Hc, (IH Hr).
Qed.

Lemma toLowerCase_fixed (str : string) :
  Spec.allChars Props.kebabChar str = true -> toLowerCase str = str.
Proof.
  induction str as [|c r IH]; [reflexivity|].
  cbn [Spec.allChars]. intros [Hc Hr]%andb_prop.
  apply kebabChar_parts in Hc as [Hc _].
  change (toLowerCase (String c r)) with (String (lowerChar c) (toLowerCase r)).
  now rewrite (lowerChar_fixed c Hc), (IH Hr).
Qed.

(** X4.  A folder name holds no upper-case letter, white space or
    underscore, whatever the module name; a name that is already of that form
    is its own folder name, so naming a folder name again gives it back. *)
Theorem toKebabCase_normal_form (str : string) :
  Spec.allChars Props.kebabChar (toKebabCase str) = true
  /\ (Spec.allChars Props.kebabChar str = true -> toKebabCase str = str)
  /\ toKebabCase (toKebabCase str) = toKebabCase str.
Proof.
  assert (Hform : forall s, Spec.allChars Props.kebabChar (toKebabCase s) = true).
  { intros s. unfold toKebabCase. apply toLowerCase_kebabChars, dashForRuns_no_space. }
  assert (Hfixed : forall s, Spec.allChars Props.kebabChar s = true -> toKebabCase s = s).
  { intros s Hs. unfold toKebabCase.
    now rewrite (dashBetweenCases_fixed s Hs), (dashForRuns_fixed s Hs),
      (toLowerCase_fixed s Hs). }
  split; [apply Hform | split].
  - apply Hfixed.
  - apply Hfixed. apply Hform.
Qed.

Lemma toKebabCase_normal_form_witness :
  toKebabCase "UserManagement" = "user-management"
  /\ toKebabCase "user-management" = "user-management".
Proof.
  destruct (toKebabCase_normal_form "user-management") as (_ & Hfixed & _).
  split; [reflexivity | apply Hfixed; reflexivity].
Defined.

(** *** File names and their extension *)

Lemma noDot_app (a b : string) :
  Props.noDot (a ++ b) = Props.noDot a && Props.noDot b.
Proof. apply allChars_app. Qed.

Lemma lowerChar_dot (c : ascii) :
  negb (Ascii.eqb (lowerChar c) ".") = negb (Ascii.eqb c ".").
Proof. each_character c. Qed.

Lemma lowerFirst_noDot (moduleName : string) :
  Props.noDot (lowerFirst moduleName) = Props.noDot moduleName.
Proof.
  destruct moduleName as [|c r]; [reflexivity|].
  unfold lowerFirst. rewrite sliceFrom_cons.
  unfold Props.noDot. cbn [charAt0 toLowerCase mapChars String.append Spec.allChars].
  now rewrite lowerChar_dot.
Qed.

(** Cutting the first occurrence of the extension from a stem without dots
    followed by the extension leaves the stem. *)
Lemma replaceFirst_extension (stem : string) (language : LanguageChoice) :
  Props.noDot stem = true ->
  SwaggerMapper.replaceFirst (stem ++ getFileExtension language)
    (getFileExtension language) ""
  = stem.
Proof.
  unfold Props.noDot.
  induction stem as [|c r IH]; [now destruct language|].
  cbn [Spec.allChars]. intros [Hc Hr]%andb_prop. apply negb_true_iff in Hc.
  change (String c r ++ getFileExtension language)
    with (String c (r ++ getFileExtension language)).
  cbn [SwaggerMapper.replaceFirst].
  assert (Hprefix : String.prefix (getFileExtension language)
                      (String c (r ++ getFileExtension language)) = false).
  { destruct language; cbn [getFileExtension String.prefix];
      (destruct (ascii_dec "." c) as [<- | _]; [discriminate Hc | reflexivity]). }
  now rewrite Hprefix, (IH Hr).
Qed.

(** X5.  For a module name without a dot, the file name without its
    extension as the index file computes it, followed by the extension, is
    the module's file name, for every library and both languages. *)
Theorem indexFileName_extension (moduleName library : string)
  (language : LanguageChoice) :
  Props.noDot moduleName = true ->
  indexFileName moduleName library language ++ getFileExtension language
  = getModuleFileName moduleName library language
  /\ Props.noDot (indexFileName moduleName library language) = true.
Proof.
  intros Hname. unfold indexFileName, getModuleFileName.
  destruct (String.eqb library "zustand");
    [| destruct (String.eqb library "redux-toolkit");
       [| destruct (String.eqb library "axios-hooks" || String.eqb library "fetch-api")]].
  - rewrite <- !append_assoc, replaceFirst_extension; [split; [reflexivity|]|];
      rewrite !noDot_app, Hname; reflexivity.
  - rewrite <- !append_assoc, replaceFirst_extension; [split; [reflexivity|]|];
      rewrite !noDot_app, lowerFirst_noDot, Hname; reflexivity.
  - rewrite <- !append_assoc, replaceFirst_extension; [split; [reflexivity|]|];
      rewrite !noDot_app, Hname; reflexivity.
  - rewrite replaceFirst_extension by exact Hname. now split.
Qed.

Lemma indexFileName_extension_witness :
  indexFileName "Users" "redux-toolkit" typescript ++ getFileExtension typescript
  = getModuleFileName "Users" "redux-toolkit" typescript
  /\ Props.noDot (indexFileName "Users" "redux-toolkit" typescript) = true.
Proof. apply (indexFileName_extension "Users" "redux-toolkit" typescript). reflexivity. Defined.

End OutputNames.

(** ** Type names *)

Section MoreTypeNames.
Import JS SwaggerMapper.
#[local] Arguments String.append : simpl nomatch.

(** Induction along the items of a schema node. *)
Lemma Schema_items_ind (P : Doc.Schema -> Prop) :
  (forall schema, (forall items, Doc.items schema = Some items -> P items) -> P schema) ->
  forall schema, P schema.
Proof.
  intros Hstep. fix IH 1. intros schema. apply Hstep.
  destruct schema as [ref type [items|] properties required]; cbn [Doc.items].
  - intros items' [= <-]. apply IH.
  - discriminate.
Qed.

Lemma orDefault_nonempty (a : option string) (b : string) :
  b <> "" -> orDefault a b <> "".
Proof.
  intros Hb. destruct a as [s|]; [|exact Hb].
  cbn [orDefault]. unfold orElse, truthy.
  destruct (String.eqb_spec s ""); [exact Hb | assumption].
Qed.

Lemma append_nonempty_r (a b : string) : b <> "" -> a ++ b <> "".
Proof. destruct a; [now cbn | discriminate]. Qed.

Lemma getTypeFromSchema_nonempty (schema : option Doc.Schema) :
  getTypeFromSchema schema <> "".
Proof.
  destruct schema as [schema|]; [|discriminate].
  cbn [getTypeFromSchema]. destruct (truthyRef schema);
    apply orDefault_nonempty; discriminate.
Qed.

Lemma getSchemaName_nonempty (schema : Doc.Schema) : getSchemaName schema <> "".
Proof.
  induction schema as [schema IH] using Schema_items_ind.
  rewrite getSchemaName_unfold.
  destruct (truthyRef schema); [apply orDefault_nonempty; discriminate|].
  destruct (isArrayType schema), (Doc.items schema);
    first [apply append_nonempty_r; discriminate | apply getTypeFromSchema_nonempty].
Qed.

Lemma typeOfProperty_unfold (property : Doc.Schema) :
  CodeGenerator.typeOfProperty property
  = if isArrayType property
    then match Doc.items property with
         | Some items => CodeGenerator.typeOfProperty items
         | None => "any"
         end ++ "[]"
    else orDefault
           (match Doc.type property with
            | Some ty => JSMap.get CodeGenerator.typeMap ty
            | None => None
            end) "any".
Proof. now destruct property. Qed.

Lemma typeOfProperty_nonempty (property : Doc.Schema) :
  CodeGenerator.typeOfProperty property <> "".
Proof.
  rewrite typeOfProperty_unfold. destruct (isArrayType property).
  - apply append_nonempty_r. discriminate.
  - apply orDefault_nonempty. discriminate.
Qed.

(** X6.  No resolver ever names a type by the empty string: the names of
    parameters, of request bodies, of responses and of properties in the
    types file are never empty, so the truthiness tests that
    [getSchemasForModule] makes on schema names never skip one. *)
Theorem type_names_never_empty :
  (forall schema, getTypeFromSchema schema <> "")
  /\ (forall schema, getSchemaName schema <> "")
  /\ (forall property, CodeGenerator.getTypeScriptType property <> "")
  /\ (forall requestBody metadata,
         mapRequestBody requestBody = Some metadata ->
         truthy (RequestBodyMetadata.schema metadata) = true
         /\ truthy (RequestBodyMetadata.contentType metadata) = true)
  /\ (forall response name,
         getResponseSchema response = Some name -> truthy name = true).
Proof.
  assert (Htruthy : forall s, s <> "" -> truthy s = true).
  { intros s Hs. unfold truthy. now destruct (String.eqb_spec s ""). }
  split; [apply getTypeFromSchema_nonempty|].
  split; [apply getSchemaName_nonempty|].
  split.
  { intros [property|]; [apply typeOfProperty_nonempty | discriminate]. }
  split.
  - intros [requestBody|] metadata; [|discriminate].
    cbn [mapRequestBody]. intros [= <-]. cbn. split; apply Htruthy.
    + destruct (match JSMap.get _ _ with Some mediaType => _ | None => None end);
        [apply getSchemaName_nonempty | discriminate].
    + apply orDefault_nonempty. discriminate.
  - intros response name. unfold getResponseSchema.
    destruct (Doc.Response.content response) as [content|]; [|discriminate].
    destruct (match JSMap.get content "application/json" with
              | Some mediaType => Some mediaType
              | None => _
              end) as [mediaType|]; [|discriminate].
    destruct (Doc.MediaType.schema mediaType) as [schema|]; [|discriminate].
    intros [= <-]. apply Htruthy, getSchemaName_nonempty.
Qed.

Lemma type_names_never_empty_witness :
  truthy "any" = true
  /\ truthy "application/json" = true
  /\ truthy "T[]" = true.
Proof.
  destruct type_names_never_empty as (_ & _ & _ & Hbody & Hresponse).
  destruct (Hbody (Some (Doc.RequestBody.mk None None))
              (RequestBodyMetadata.mk false "application/json" "any") eq_refl)
    as [Hschema Hcontent].
  split; [exact Hschema | split; [exact Hcontent|]].
  apply (Hresponse
           (Spec.responseWith (Spec.arrayOf (Spec.referenceTo "#/components/schemas/T")))).
  reflexivity.
Defined.

(** The two tables agree on every type. *)
Lemma typeMaps_agree (type : option string) :
  typeMapAt type
  = match type with
    | Some ty => JSMap.get CodeGenerator.typeMap ty
    | None => None
    end.
Proof.
  destruct type as [ty|]; [|reflexivity].
  unfold typeMapAt, typeMap, CodeGenerator.typeMap. cbn [JSMap.get].
  destruct (String.eqb_spec "string" ty) as [<- | _]; [reflexivity|].
  destruct (String.eqb_spec "number" ty) as [<- | _]; [reflexivity|].
  destruct (String.eqb_spec "integer" ty) as [<- | _]; [reflexivity|].
  destruct (String.eqb_spec "boolean" ty) as [<- | _]; [reflexivity|].
  destruct (String.eqb_spec "array" ty) as [<- | _]; [reflexivity|].
  destruct (String.eqb_spec "object" ty) as [<- | _]; reflexivity.
Qed.

Lemma referenceFree_unfold (schema : Doc.Schema) :
  Props.referenceFree schema
  = match truthyRef schema with
    | Some _ => false
    | None =>
        match Doc.items schema with
        | Some items => Props.referenceFree items
        | None => true
        end
    end.
Proof. now destruct schema. Qed.

(** X7.  On a node without references, on it or on the items below it, the
    mapper's schema name and the type that the types file writes for the node
    are the same; on a node that only refers to a schema they differ, the
    types file writing [any]. *)
Theorem schema_name_is_types_file_type :
  (forall schema,
      Props.referenceFree schema = true ->
      getSchemaName schema = CodeGenerator.getTypeScriptType (Some schema))
  /\ (forall target,
         CodeGenerator.getTypeScriptType (Some (Spec.referenceTo target)) = "any").
Proof.
  split; [| reflexivity].
  intros schema. induction schema as [schema IH] using Schema_items_ind.
  rewrite referenceFree_unfold, getSchemaName_unfold.
  cbn [CodeGenerator.getTypeScriptType]. rewrite typeOfProperty_unfold.
  destruct (truthyRef schema) eqn:Href; [discriminate|].
  intros Hfree. destruct (isArrayType schema) eqn:Harray.
  - destruct (Doc.items schema) as [items|].
    + now rewrite (IH items eq_refl Hfree).
    + unfold getTypeFromSchema. rewrite Href. unfold isArrayType in Harray.
      destruct (Doc.type schema) as [ty|]; [|discriminate].
      apply String.eqb_eq in Harray. now subst ty.
  - unfold getTypeFromSchema. rewrite Href, typeMaps_agree.
    now destruct (Doc.items schema).
Qed.

Lemma schema_name_is_types_file_type_witness :
  getSchemaName
    (Spec.arrayOf (Doc.mkSchema None (Some "integer") None None None))
  = CodeGenerator.getTypeScriptType
      (Some (Spec.arrayOf (Doc.mkSchema None (Some "integer") None None None))).
Proof.
  apply (proj1 schema_name_is_types_file_type). reflexivity.
Defined.

End MoreTypeNames.

(** ** The catalog over several runs *)

Section MoreCatalog.
Import JS SwaggerMapper.
#[local] Arguments String.append : simpl nomatch.

(** The two passes of [extractSchemas] are one pass over the definitions of
    [components.schemas] followed by those of [definitions]. *)
Lemma extractSchemas_one_pass (this : SwaggerMapper.t) (api : Doc.Api.t) :
  schemas (extractSchemas this api)
  = indexSchemas
      (orEmpty (componentsSchemas api) ++ orEmpty (Doc.Api.definitions api))
      (schemas this).
Proof.
  unfold extractSchemas, indexSchemas. rewrite fold_left_app. cbn [schemas].
  now destruct (componentsSchemas api), (Doc.Api.definitions api).
Qed.

Lemma indexSchemas_snoc (container : list (string * Doc.Schema))
  (name : string) (raw : Doc.Schema) (catalog : JSMap.t SchemaMetadata.t) :
  indexSchemas (container ++ [(name, raw)]) catalog
  = JSMap.set (indexSchemas container catalog) name (schemaRecord name raw).
Proof. unfold indexSchemas. now rewrite fold_left_app. Qed.

Lemma get_not_in_keys {V} (m : JSMap.t V) (k : string) :
  ~ In k (JSMap.keys m) -> JSMap.get m k = None.
Proof.
  intros Hk. destruct (JSMap.get m k) eqn:E; [|reflexivity].
  exfalso. apply Hk, has_in_keys. unfold JSMap.has. now rewrite E.
Qed.

(** Two maps with the same keys in the same order and the same value under
    every key are the same map. *)
Lemma map_extensionality {V} (m1 : JSMap.t V) :
  forall m2,
    JSMap.keys m1 = JSMap.keys m2 ->
    List.NoDup (JSMap.keys m1) ->
    (forall k, JSMap.get m1 k = JSMap.get m2 k) ->
    m1 = m2.
Proof.
  induction m1 as [|[k v] r1 IH]; intros [|[k' v'] r2] Hkeys Hnodup Hget;
    try discriminate; [reflexivity|].
  injection Hkeys as <- Hkeys.
  inversion Hnodup as [|? ? Hk Hr]; subst.
  pose proof (Hget k) as Hv. cbn in Hv. rewrite String.eqb_refl in Hv.
  injection Hv as <-. f_equal.
  apply IH; [exact Hkeys | exact Hr |].
  intros k0. destruct (String.eqb_spec k k0) as [<- | Hne].
  - rewrite !get_not_in_keys; [reflexivity | now rewrite <- Hkeys | exact Hk].
  - specialize (Hget k0). cbn in Hget.
    now destruct (String.eqb_spec k k0).
Qed.

Lemma get_indexSchemas_determined (container : list (string * Doc.Schema))
  (name : string) :
  forall m1 m2,
    JSMap.get m1 name = JSMap.get m2 name ->
    JSMap.get (indexSchemas container m1) name
    = JSMap.get (indexSchemas container m2) name.
Proof.
  induction container as [|[k raw] rest IH]; intros m1 m2 Hget; [exact Hget|].
  change (indexSchemas ((k, raw) :: rest) ?m)
    with (indexSchemas rest (JSMap.set m k (schemaRecord k raw))).
  apply IH. destruct (String.eqb_spec k name) as [-> | Hne].
  - now rewrite !get_set_eq.
  - now rewrite !get_set_ne.
Qed.

Lemma get_indexSchemas_again (container : list (string * Doc.Schema))
  (catalog : JSMap.t SchemaMetadata.t) (name : string) :
  JSMap.get (indexSchemas container (indexSchemas container catalog)) name
  = JSMap.get (indexSchemas container catalog) name.
Proof.
  induction container as [|[k raw] rest IH] using rev_ind; [reflexivity|].
  rewrite !indexSchemas_snoc.
  destruct (String.eqb_spec k name) as [-> | Hne].
  - now rewrite !get_set_eq.
  - rewrite !get_set_ne by exact Hne.
    rewrite <- IH. apply get_indexSchemas_determined.
    now rewrite get_set_ne.
Qed.

Lemma keys_indexSchemas_grow (container : list (string * Doc.Schema)) :
  forall catalog,
    Props.startsWithList (JSMap.keys catalog)
      (JSMap.keys (indexSchemas container catalog))
    /\ (forall k, In k (map fst container) ->
                  In k (JSMap.keys (indexSchemas container catalog))).
Proof.
  induction container as [|[k raw] rest IH]; intros catalog.
  - split; [exists []; now rewrite app_nil_r | intros k []].
  - change (indexSchemas ((k, raw) :: rest) catalog)
      with (indexSchemas rest (JSMap.set catalog k (schemaRecord k raw))).
    destruct (IH (JSMap.set catalog k (schemaRecord k raw))) as [[more Hmore] Hin].
    assert (Hset : Props.startsWithList (JSMap.keys catalog)
                     (JSMap.keys (JSMap.set catalog k (schemaRecord k raw)))).
    { rewrite keys_set. destruct (JSMap.has catalog k).
      - exists []. now rewrite app_nil_r.
      - now exists [k]. }
    destruct Hset as [one Hone]. split.
    + exists (one ++ more)%list. now rewrite Hmore, Hone, app_assoc.
    + intros k0 [<- | Hk0]; [|now apply Hin].
      rewrite Hmore. apply in_or_app. left.
      apply has_in_keys. unfold JSMap.has. now rewrite get_set_eq.
Qed.

Lemma keys_indexSchemas_same (container : list (string * Doc.Schema)) :
  forall catalog,
    (forall k, In k (map fst container) -> In k (JSMap.keys catalog)) ->
    JSMap.keys (indexSchemas container catalog) = JSMap.keys catalog.
Proof.
  induction container as [|[k raw] rest IH]; intros catalog Hin; [reflexivity|].
  change (indexSchemas ((k, raw) :: rest) catalog)
    with (indexSchemas rest (JSMap.set catalog k (schemaRecord k raw))).
  assert (Hset : JSMap.keys (JSMap.set catalog k (schemaRecord k raw))
                 = JSMap.keys catalog).
  { rewrite keys_set.
    now rewrite (proj2 (has_in_keys catalog k) (Hin k (or_introl eq_refl))). }
  rewrite IH, Hset; [reflexivity|].
  intros k0 Hk0. rewrite Hset. apply Hin. now right.
Qed.

Lemma extractSchemas_again (this : SwaggerMapper.t) (api : Doc.Api.t) :
  List.NoDup (JSMap.keys (schemas this)) ->
  extractSchemas (extractSchemas this api) api = extractSchemas this api.
Proof.
  intros Hnodup.
  assert (Hschemas : schemas (extractSchemas (extractSchemas this api) api)
                     = schemas (extractSchemas this api)).
  { rewrite (extractSchemas_one_pass (extractSchemas this api)),
      (extractSchemas_one_pass this).
    set (container := (orEmpty (componentsSchemas api)
                       ++ orEmpty (Doc.Api.definitions api))%list).
    assert (Hkeys : JSMap.keys (indexSchemas container
                                  (indexSchemas container (schemas this)))
                    = JSMap.keys (indexSchemas container (schemas this))).
    { apply keys_indexSchemas_same. apply keys_indexSchemas_grow. }
    apply map_extensionality.
    - exact Hkeys.
    - rewrite Hkeys. now apply NoDup_keys_indexSchemas.
    - apply get_indexSchemas_again. }
  destruct (extractSchemas (extractSchemas this api) api) as [s1],
    (extractSchemas this api) as [s2].
  cbn in Hschemas. now subst.
Qed.

(** X8.  Indexing the same document a second time changes nothing in the
    catalog, so a second call of [mapToModules] on the mapper that the first
    call left, with the same document and filter, returns the same modules
    and leaves the same mapper. *)
Theorem mapToModules_again (this : SwaggerMapper.t) (api : Doc.Api.t)
  (selectedTags : option (list string)) :
  List.NoDup (JSMap.keys (schemas this)) ->
  extractSchemas (extractSchemas this api) api = extractSchemas this api
  /\ mapToModules (fst (mapToModules this api selectedTags)) api selectedTags
     = mapToModules this api selectedTags.
Proof.
  intros Hnodup. split; [now apply extractSchemas_again|].
  unfold mapToModules. cbn [fst]. now rewrite extractSchemas_again.
Qed.

Lemma mapToModules_again_witness :
  mapToModules (fst (mapToModules SwaggerMapper.new Examples.shopApi None))
    Examples.shopApi None
  = mapToModules SwaggerMapper.new Examples.shopApi None.
Proof.
  apply (mapToModules_again SwaggerMapper.new Examples.shopApi None).
  constructor.
Defined.

(** X9.  A mapper never forgets: after [extractSchemas] the catalog starts
    with the names it had, in the same order, the names of the document
    follow, and a name that the document does not define keeps its record.
    A mapper that is used for a second document still holds the records of
    the first. *)
Theorem extractSchemas_keeps_earlier_records (this : SwaggerMapper.t)
  (api : Doc.Api.t) :
  Props.startsWithList (JSMap.keys (schemas this))
    (JSMap.keys (schemas (extractSchemas this api)))
  /\ (forall name,
         In name (map fst (orEmpty (componentsSchemas api)))
         \/ In name (map fst (orEmpty (Doc.Api.definitions api))) ->
         In name (JSMap.keys (schemas (extractSchemas this api))))
  /\ (forall name,
         ~ In name (map fst (orEmpty (componentsSchemas api))) ->
         ~ In name (map fst (orEmpty (Doc.Api.definitions api))) ->
         JSMap.get (schemas (extractSchemas this api)) name
         = JSMap.get (schemas this) name).
Proof.
  rewrite extractSchemas_one_pass.
  destruct (keys_indexSchemas_grow
              (orEmpty (componentsSchemas api) ++ orEmpty (Doc.Api.definitions api))
              (schemas this)) as [Hprefix Hin].
  split; [exact Hprefix | split].
  - intros name Hname. apply Hin. rewrite map_app. now apply in_or_app.
  - intros name Hc Hd. apply get_indexSchemas_other.
    rewrite map_app. intros [H | H]%in_app_or; contradiction.
Qed.

Lemma extractSchemas_keeps_earlier_records_witness :
  In "User"
    (JSMap.keys
       (schemas
          (extractSchemas (extractSchemas SwaggerMapper.new Examples.shopApi)
             Examples.arrayApi)))
  /\ JSMap.get
       (schemas
          (extractSchemas (extractSchemas SwaggerMapper.new Examples.shopApi)
             Examples.arrayApi))
       "User"
     = JSMap.get (schemas (extractSchemas SwaggerMapper.new Examples.shopApi)) "User".
Proof.
  destruct (extractSchemas_keeps_earlier_records
              (extractSchemas SwaggerMapper.new Examples.shopApi) Examples.arrayApi)
    as ([rest Hrest] & _ & Hkept).
  split.
  - rewrite Hrest. apply in_or_app. left. now left.
  - apply Hkept; cbn.
    + intros [H | []]. discriminate H.
    + intros [].
Defined.

Lemma In_set {V} (m : JSMap.t V) (k k' : string) (v v' : V) :
  In (k, v) (JSMap.set m k' v') -> (k, v) = (k', v') \/ In (k, v) m.
Proof.
  induction m as [|[k0 v0] m IH]; cbn.
  - intros [H | []]. now left.
  - destruct (String.eqb_spec k0 k') as [-> | Hne]; cbn.
    + intros [H | H]; [left; congruence | right; now right].
    + intros [H | H]; [right; now left|].
      destruct (IH H) as [Heq | Hin]; [now left | right; now right].
Qed.

Lemma keyedByName_indexSchemas (container : list (string * Doc.Schema)) :
  forall catalog,
    Props.keyedByName catalog -> Props.keyedByName (indexSchemas container catalog).
Proof.
  induction container as [|[k raw] rest IH]; intros catalog Hkeyed; [exact Hkeyed|].
  change (indexSchemas ((k, raw) :: rest) catalog)
    with (indexSchemas rest (JSMap.set catalog k (schemaRecord k raw))).
  apply IH. intros name record [[= -> ->] | Hin]%In_set.
  - reflexivity.
  - now apply Hkeyed.
Qed.

(** X10.  Every record that [extractSchemas] stores is stored under its own
    name: a catalog whose records are keyed by their names stays so, and the
    catalog of a fresh mapper is so after any document.  The interface name
    in the types file, which is the key, is therefore the record's name. *)
Theorem extractSchemas_keyed_by_name (this : SwaggerMapper.t) (api : Doc.Api.t) :
  (Props.keyedByName (schemas this) ->
   Props.keyedByName (schemas (extractSchemas this api)))
  /\ Props.keyedByName (schemas (extractSchemas SwaggerMapper.new api)).
Proof.
  assert (H : forall mapper,
             Props.keyedByName (schemas mapper) ->
             Props.keyedByName (schemas (extractSchemas mapper api))).
  { intros mapper Hkeyed. rewrite extractSchemas_one_pass.
    now apply keyedByName_indexSchemas. }
  split; [apply H | apply H; intros name record []].
Qed.

Lemma extractSchemas_keyed_by_name_witness :
  SchemaMetadata.name
    (schemaRecord "User" (Doc.mkSchema None (Some "object") None None None))
  = "User".
Proof.
  apply (proj1 (extractSchemas_keyed_by_name
                  (extractSchemas SwaggerMapper.new Examples.shopApi) Examples.arrayApi)).
  - apply (extractSchemas_keyed_by_name SwaggerMapper.new Examples.shopApi).
  - left. reflexivity.
Defined.

End MoreCatalog.

(** ** The referenced schemas of a module *)

Section MoreReferences.
Import JS SwaggerMapper.
#[local] Arguments String.append : simpl nomatch.

Lemma lookup_names (catalog : JSMap.t SchemaMetadata.t) (names : list string) :
  Props.keyedByName catalog ->
  (forall name, In name names -> JSMap.has catalog name = true) ->
  map SchemaMetadata.name
    (flat_map
       (fun name =>
          match JSMap.get catalog name with
          | Some record => [record]
          | None => []
          end)
       names)
  = names.
Proof.
  intros Hkeyed. induction names as [|name rest IH]; intros Hhas; [reflexivity|].
  cbn [flat_map]. rewrite map_app, IH by (intros n Hn; apply Hhas; now right).
  specialize (Hhas name (or_introl eq_refl)). unfold JSMap.has in Hhas.
  destruct (JSMap.get catalog name) as [record|] eqn:E; [|discriminate].
  cbn. f_equal. apply Hkeyed. now apply get_In.
Qed.

(** X11.  In a catalog keyed by record names, the referenced schemas of a
    module carry pairwise distinct names, however many endpoints refer to the
    same schema; each is a record of the catalog, and each is named by a
    request-body or response schema of the module's endpoints with its first
    array suffix cut.  A name that the catalog lacks adds nothing. *)
Theorem getSchemasForModule_distinct (this : SwaggerMapper.t)
  (endpoints : list EndpointMetadata.t) :
  Props.keyedByName (schemas this) ->
  List.NoDup (map SchemaMetadata.name (getSchemasForModule this endpoints))
  /\ (forall record,
         In record (getSchemasForModule this endpoints) ->
         In (SchemaMetadata.name record, record) (schemas this)
         /\ exists schema,
             In schema (flat_map Spec.schemaRefs endpoints)
             /\ replaceFirst schema "[]" "" = SchemaMetadata.name record)
  /\ (forall schema,
         In schema (flat_map Spec.schemaRefs endpoints) ->
         JSMap.has (schemas this) (replaceFirst schema "[]" "") = true ->
         truthy schema = true ->
         In (replaceFirst schema "[]" "")
           (map SchemaMetadata.name (getSchemasForModule this endpoints))).
Proof.
  intros Hkeyed.
  assert (Hnames : map SchemaMetadata.name (getSchemasForModule this endpoints)
                   = Props.foundNames this endpoints).
  { rewrite getSchemasForModule_collects. apply lookup_names; [exact Hkeyed|].
    intros name Hname. apply (proj1 (distinct_In _ _)) in Hname.
    now apply filter_In in Hname. }
  split; [rewrite Hnames; apply distinct_NoDup | split].
  - intros record Hrecord.
    assert (Hname : In (SchemaMetadata.name record) (Props.foundNames this endpoints)).
    { rewrite <- Hnames. now apply in_map. }
    split.
    + destruct (getSchemasForModule_in_catalog _ _ _ Hrecord) as [name Hin].
      now rewrite (Hkeyed _ _ Hin).
    + apply (proj1 (distinct_In _ _)) in Hname.
      apply filter_In in Hname as [Hname _].
      apply in_map_iff in Hname as (schema & Heq & Hschema).
      apply filter_In in Hschema as [Hschema _]. now exists schema.
  - intros schema Hschema Hhas Htruthy. rewrite Hnames.
    apply distinct_In, filter_In. split; [|exact Hhas].
    apply in_map_iff. exists schema. split; [reflexivity|].
    now apply filter_In.
Qed.

Lemma getSchemasForModule_distinct_witness :
  List.NoDup
    (map SchemaMetadata.name
       (getSchemasForModule (extractSchemas SwaggerMapper.new Examples.shopApi)
          (Spec.endpointsTagged Examples.shopApi "Users")))
  /\ In "User"
       (map SchemaMetadata.name
          (getSchemasForModule (extractSchemas SwaggerMapper.new Examples.shopApi)
             (Spec.endpointsTagged Examples.shopApi "Users"))).
Proof.
  destruct (getSchemasForModule_distinct
              (extractSchemas SwaggerMapper.new Examples.shopApi)
              (Spec.endpointsTagged Examples.shopApi "Users"))
    as (Hnodup & _ & Hfound).
  { intros name record [[= <- <-] | []]. reflexivity. }
  split; [exact Hnodup|].
  apply (Hfound "User"); [left|..]; reflexivity.
Defined.

End MoreReferences.

(** ** Modules for any tag selection *)

Section MoreGrouping.
Import JS Naming SwaggerMapper.
#[local] Arguments String.append : simpl nomatch.

(** The modules of a run, with or without a filter: one per distinct tag
    that is not skipped, in the order of first appearance. *)
Lemma mapToModules_modules (this : SwaggerMapper.t) (api : Doc.Api.t)
  (selectedTags : option (list string)) :
  snd (mapToModules this api selectedTags)
  = map (Spec.moduleOf (extractSchemas this api) api)
      (List.filter (fun tag => negb (skipped selectedTags tag))
         (Spec.distinct (map fst (Spec.taggedEndpoints api)))).
Proof.
  destruct selectedTags as [filter|].
  - rewrite mapToModules_filtered_modules. f_equal. apply filter_ext.
    intros tag. rewrite skipped_selects. now destruct (Spec.selects filter tag).
  - rewrite mapToModules_all. f_equal. cbn [skipped negb].
    induction (Spec.distinct (map fst (Spec.taggedEndpoints api))) as [|tag l IH];
      [reflexivity|].
    cbn [List.filter]. now rewrite <- IH.
Qed.

Lemma module_tags (this : SwaggerMapper.t) (api : Doc.Api.t) (tags : list string) :
  map ModuleMetadata.tag (map (Spec.moduleOf this api) tags) = tags.
Proof. rewrite map_map. cbn [Spec.moduleOf ModuleMetadata.tag]. apply map_id. Qed.

Lemma In_modules (this : SwaggerMapper.t) (api : Doc.Api.t)
  (selectedTags : option (list string)) (m : ModuleMetadata.t) :
  In m (snd (mapToModules this api selectedTags))
  <-> exists tag,
      m = Spec.moduleOf (extractSchemas this api) api tag
      /\ skipped selectedTags tag = false
      /\ exists endpoint, In (tag, endpoint) (Spec.taggedEndpoints api).
Proof.
  rewrite mapToModules_modules, in_map_iff. split.
  - intros (tag & <- & [Htag Hkept]%filter_In). exists tag.
    split; [reflexivity|]. split; [now destruct (skipped selectedTags tag)|].
    apply (proj1 (distinct_In _ _)) in Htag.
    apply in_map_iff in Htag as ([t endpoint] & Heq & Hin). cbn in Heq. subst t.
    now exists endpoint.
  - intros (tag & -> & Hkept & endpoint & Hin). exists tag. split; [reflexivity|].
    apply filter_In. split; [|now rewrite Hkept].
    apply distinct_In, in_map_iff. now exists (tag, endpoint).
Qed.

(** X12.  Whatever the tag selection, the modules of a run have pairwise
    distinct tags; each has at least one endpoint, a tag the selection does
    not skip, and the module name made from its tag; its endpoints are
    exactly the endpoints of the document that are filed under its tag; and
    an endpoint is in the module of each of its tags that the selection does
    not skip, so a run neither loses nor invents an endpoint. *)
Theorem modules_partition_endpoints (this : SwaggerMapper.t) (api : Doc.Api.t)
  (selectedTags : option (list string)) :
  List.NoDup (map ModuleMetadata.tag (snd (mapToModules this api selectedTags)))
  /\ (forall m,
         In m (snd (mapToModules this api selectedTags)) ->
         (0 <? length (ModuleMetadata.endpoints m))%nat = true
         /\ skipped selectedTags (ModuleMetadata.tag m) = false
         /\ ModuleMetadata.moduleName m = tagToModuleName (ModuleMetadata.tag m)
         /\ ModuleMetadata.schemas m
            = getSchemasForModule (extractSchemas this api) (ModuleMetadata.endpoints m)
         /\ forall endpoint,
             In endpoint (ModuleMetadata.endpoints m)
             <-> exists path,
                 In (path, endpoint) (Spec.endpointsOf api)
                 /\ In (ModuleMetadata.tag m) (effectiveTags path endpoint))
  /\ (forall path endpoint tag,
         In (path, endpoint) (Spec.endpointsOf api) ->
         In tag (effectiveTags path endpoint) ->
         skipped selectedTags tag = false ->
         exists m,
           In m (snd (mapToModules this api selectedTags))
           /\ ModuleMetadata.tag m = tag
           /\ In endpoint (ModuleMetadata.endpoints m)).
Proof.
  split; [| split].
  - rewrite mapToModules_modules, module_tags.
    apply List.NoDup_filter, distinct_NoDup.
  - intros m (tag & -> & Hkept & endpoint & Hin)%In_modules.
    cbn [Spec.moduleOf ModuleMetadata.endpoints ModuleMetadata.tag
           ModuleMetadata.moduleName ModuleMetadata.schemas].
    split; [|split; [exact Hkept | split; [reflexivity | split; [reflexivity|]]]].
    + apply In_endpointsTagged in Hin.
      now destruct (Spec.endpointsTagged api tag).
    + intros e. now rewrite In_endpointsTagged, In_taggedEndpoints.
  - intros path endpoint tag Hin Htag Hkept.
    assert (Htagged : In (tag, endpoint) (Spec.taggedEndpoints api))
      by (apply In_taggedEndpoints; now exists path).
    exists (Spec.moduleOf (extractSchemas this api) api tag).
    split; [|split; [reflexivity | now apply In_endpointsTagged]].
    apply In_modules. exists tag. split; [reflexivity|].
    split; [exact Hkept | now exists endpoint].
Qed.

(** *** The endpoint records *)

Lemma toUpperCase_httpMethods (method : string) :
  In method httpMethods -> In (toUpperCase method) Props.methodNames.
Proof.
  intros Hin. repeat (destruct Hin as [<- | Hin]; [vm_compute; tauto|]).
  destruct Hin.
Qed.

Lemma toLowerCase_methodNames (method : string) :
  In method Props.methodNames -> In (toLowerCase method) httpMethods.
Proof.
  intros Hin. repeat (destruct Hin as [<- | Hin]; [vm_compute; tauto|]).
  destruct Hin.
Qed.

Lemma orElse_nonempty (a b : string) : b <> "" -> orElse a b <> "".
Proof. intros Hb. unfold orElse, truthy. now destruct a. Qed.

Lemma pathToFunctionName_nonempty (path method : string) :
  In method Props.methodNames -> pathToFunctionName path method <> "".
Proof.
  intros Hin. rewrite pathToFunctionName_tokens.
  repeat (destruct Hin as [<- | Hin]; [discriminate|]). destruct Hin.
Qed.

(** X13.  Every endpoint record that [mapToModules] builds carries the path
    it was read under and one of the five upper-case method names, the
    method key it was read under being the lower-case form; its function
    name is the one [pathToFunctionName] makes of that path and method, so it
    is not empty and starts with the lower-case method; its operation id is
    never empty; and its tags are the declared ones or none. *)
Theorem endpoint_records_well_formed (api : Doc.Api.t) (path : string)
  (endpoint : EndpointMetadata.t) :
  In (path, endpoint) (Spec.endpointsOf api) ->
  EndpointMetadata.path endpoint = path
  /\ In (EndpointMetadata.method endpoint) Props.methodNames
  /\ In (toLowerCase (EndpointMetadata.method endpoint)) httpMethods
  /\ EndpointMetadata.functionName endpoint
     = pathToFunctionName path (EndpointMetadata.method endpoint)
  /\ (exists rest,
         EndpointMetadata.functionName endpoint
         = toLowerCase (EndpointMetadata.method endpoint) ++ rest)
  /\ EndpointMetadata.functionName endpoint <> ""
  /\ EndpointMetadata.operationId endpoint <> ""
  /\ exists pathItem operation,
      In (path, Some pathItem) (orEmpty (Doc.Api.paths api))
      /\ Doc.PathItem.at_ pathItem (toLowerCase (EndpointMetadata.method endpoint))
         = Some operation
      /\ endpoint = mapEndpoint path (EndpointMetadata.method endpoint) operation.
Proof.
  unfold Spec.endpointsOf. rewrite in_flat_map.
  intros ([p [pathItem|]] & Hpath & Hin); [|destruct Hin].
  apply in_flat_map in Hin as (method & Hmethod & Hin).
  destruct (Doc.PathItem.at_ pathItem method) as [operation|] eqn:Hat; [|destruct Hin].
  destruct Hin as [[= <- <-] | []].
  cbn [mapEndpoint EndpointMetadata.path EndpointMetadata.method
         EndpointMetadata.functionName EndpointMetadata.operationId].
  pose proof (toUpperCase_httpMethods method Hmethod) as Hupper.
  pose proof (pathToFunctionName_nonempty p _ Hupper) as Hname.
  assert (Hlower : toLowerCase (toUpperCase method) = method).
  { repeat (destruct Hmethod as [<- | Hmethod]; [reflexivity|]). destruct Hmethod. }
  split; [reflexivity|]. split; [exact Hupper|].
  split; [now apply toLowerCase_methodNames|].
  split; [reflexivity|].
  split; [rewrite pathToFunctionName_tokens; eauto|].
  split; [exact Hname|].
  split.
  - unfold orDefault. destruct (Doc.Operation.operationId operation);
      [now apply orElse_nonempty | exact Hname].
  - exists pathItem, operation. rewrite Hlower. now repeat split.
Qed.

Lemma endpoint_records_well_formed_witness :
  In ("/users/{id}", mapEndpoint "/users/{id}" "GET"
                  (Examples.operationReturning (Some ["Users"])
                     (Some (Spec.referenceTo "#/components/schemas/User"))))
    (Spec.endpointsOf Examples.shopApi)
  /\ EndpointMetadata.functionName
       (mapEndpoint "/users/{id}" "GET"
          (Examples.operationReturning (Some ["Users"])
             (Some (Spec.referenceTo "#/components/schemas/User"))))
     = "getUsersById".
Proof.
  assert (Hin : In ("/users/{id}", mapEndpoint "/users/{id}" "GET"
                  (Examples.operationReturning (Some ["Users"])
                     (Some (Spec.referenceTo "#/components/schemas/User"))))
    (Spec.endpointsOf Examples.shopApi)) by (left; reflexivity).
  split; [exact Hin|].
  destruct (endpoint_records_well_formed _ _ _ Hin) as (_ & _ & _ & Hname & _).
  rewrite Hname. reflexivity.
Defined.

End MoreGrouping.

(** ** The tags offered for selection *)

Section OfferedTags.
Import JS Naming SwaggerMapper SwaggerParserService.
#[local] Arguments String.append : simpl nomatch.

Lemma insertSorted_In (x y : string) (l : list string) :
  In y (insertSorted x l) <-> y = x \/ In y l.
Proof.
  induction l as [|z l IH]; simpl; [intuition congruence|].
  destruct (String.leb x z); simpl; [intuition congruence|].
  rewrite IH. intuition congruence.
Qed.

Lemma sort_In (y : string) (l : list string) : In y (sort l) <-> In y l.
Proof.
  induction l as [|x l IH]; simpl; [reflexivity|].
  rewrite insertSorted_In, IH. intuition congruence.
Qed.

Lemma insertSorted_NoDup (x : string) (l : list string) :
  ~ In x l -> List.NoDup l -> List.NoDup (insertSorted x l).
Proof.
  induction l as [|z l IH]; intros Hx Hl; simpl.
  - constructor; [intros [] | constructor].
  - destruct (String.leb x z); [now constructor|].
    inversion Hl as [|? ? Hz Hl']; subst. constructor.
    + rewrite insertSorted_In. intros [-> | Hin]; [apply Hx; now left | contradiction].
    + apply IH; [intros Hin; apply Hx; now right | exact Hl'].
Qed.

Lemma sort_NoDup (l : list string) : List.NoDup l -> List.NoDup (sort l).
Proof.
  induction l as [|x l IH]; intros Hl; simpl; [constructor|].
  inversion Hl; subst. apply insertSorted_NoDup; [now rewrite sort_In | now apply IH].
Qed.

Lemma sort_length (l : list string) : length (sort l) = length l.
Proof.
  induction l as [|x l IH]; simpl; [reflexivity|]. rewrite <- IH.
  generalize (sort l) as sorted. intros sorted.
  induction sorted as [|z sorted IH']; simpl; [reflexivity|].
  destruct (String.leb x z); simpl; [reflexivity | now rewrite IH'].
Qed.

Lemma ltb_of_leb (x y : string) : String.leb x y = true -> x <> y -> String.ltb x y = true.
Proof.
  unfold String.leb, String.ltb. intros Hle Hne.
  destruct (String.compare x y) eqn:E; [|reflexivity|discriminate].
  now apply String.compare_eq_iff in E.
Qed.

Lemma ltb_of_not_leb (x y : string) : String.leb x y = false -> String.ltb y x = true.
Proof.
  unfold String.leb, String.ltb. rewrite (String.compare_antisym x y).
  now destruct (String.compare y x).
Qed.

Lemma ascending_insertSorted (x : string) (l : list string) :
  ~ In x l -> Props.ascending l = true -> Props.ascending (insertSorted x l) = true.
Proof.
  induction l as [|z l IH]; intros Hx Hl; [reflexivity|].
  cbn [insertSorted]. destruct (String.leb x z) eqn:E.
  - cbn [Props.ascending] in *.
    rewrite (ltb_of_leb x z E) by (intros ->; apply Hx; now left). exact Hl.
  - cbn [Props.ascending] in Hl. apply andb_true_iff in Hl as [Hhead Hrest].
    assert (Hrec : Props.ascending (insertSorted x l) = true)
      by (apply IH; [intros Hin; apply Hx; now right | exact Hrest]).
    cbn [Props.ascending]. rewrite Hrec, andb_true_r.
    destruct l as [|w l]; cbn [insertSorted]; [now apply ltb_of_not_leb|].
    destruct (String.leb x w); [now apply ltb_of_not_leb | exact Hhead].
Qed.

Lemma ascending_sort (l : list string) : List.NoDup l -> Props.ascending (sort l) = true.
Proof.
  induction l as [|x l IH]; intros Hl; [reflexivity|].
  inversion Hl; subst. cbn [sort fold_right].
  apply ascending_insertSorted; [now rewrite sort_In | now apply IH].
Qed.

(** The loops of [extractTags] collect the declared tags of the endpoints
    that [mapToModules] builds. *)
Lemma extractTags_declared (api : Doc.Api.t) :
  extractTags api = sort (Spec.distinct (Props.declaredTags api)).
Proof.
  unfold extractTags, Spec.distinct, Props.declaredTags, Spec.endpointsOf. f_equal.
  rewrite fold_left_flat_map.
  destruct (Doc.Api.paths api) as [paths|]; [|reflexivity].
  cbn [orEmpty]. rewrite fold_left_flat_map.
  apply fold_left_pointwise. intros tags [path [pathItem|]]; [|reflexivity].
  rewrite fold_left_flat_map. apply fold_left_pointwise. intros tags' method.
  destruct (Doc.PathItem.at_ pathItem method) as [operation|]; [|reflexivity].
  cbn [fold_left mapEndpoint EndpointMetadata.tags].
  now destruct (Doc.Operation.tags operation).
Qed.

Lemma In_declaredTags (api : Doc.Api.t) (tag : string) :
  In tag (Props.declaredTags api)
  <-> exists path endpoint,
      In (path, endpoint) (Spec.endpointsOf api)
      /\ In tag (EndpointMetadata.tags endpoint).
Proof.
  unfold Props.declaredTags. rewrite in_flat_map. split.
  - intros ([path endpoint] & Hin & Htag). now exists path, endpoint.
  - intros (path & endpoint & Hin & Htag). now exists (path, endpoint).
Qed.

Lemma In_extractTags (api : Doc.Api.t) (tag : string) :
  In tag (extractTags api) <-> In tag (Props.declaredTags api).
Proof. now rewrite extractTags_declared, sort_In, distinct_In. Qed.

Lemma effectiveTags_declared (path tag : string) (endpoint : EndpointMetadata.t) :
  In tag (EndpointMetadata.tags endpoint) ->
  effectiveTags path endpoint = EndpointMetadata.tags endpoint.
Proof.
  unfold effectiveTags. now destruct (EndpointMetadata.tags endpoint).
Qed.

Lemma In_effectiveTags (path tag : string) (endpoint : EndpointMetadata.t) :
  In tag (effectiveTags path endpoint)
  <-> In tag (EndpointMetadata.tags endpoint)
      \/ (EndpointMetadata.tags endpoint = [] /\ tag = getTagFromPath path).
Proof.
  unfold effectiveTags.
  destruct (EndpointMetadata.tags endpoint) as [|t ts]; cbn.
  - split; [intros [<- | []]; now right | intros [[] | [_ ->]]; now left].
  - split; [now left | intros [H | [H _]]; [exact H | discriminate H]].
Qed.

(** X14.  The tags offered for selection are strictly ascending in the order
    of the code units, so they are sorted and pairwise distinct; a tag is
    offered exactly when an operation under one of the five method keys
    declares it, which is when an endpoint record of the mapper carries it;
    tags inferred from paths are not offered. *)
Theorem extractTags_sorted_declared (api : Doc.Api.t) :
  Props.ascending (extractTags api) = true
  /\ List.NoDup (extractTags api)
  /\ length (extractTags api) = length (Spec.distinct (Props.declaredTags api))
  /\ forall tag,
      In tag (extractTags api)
      <-> exists path endpoint,
          In (path, endpoint) (Spec.endpointsOf api)
          /\ In tag (EndpointMetadata.tags endpoint).
Proof.
  split; [| split; [| split]].
  - rewrite extractTags_declared. apply ascending_sort, distinct_NoDup.
  - rewrite extractTags_declared. apply sort_NoDup, distinct_NoDup.
  - now rewrite extractTags_declared, sort_length.
  - intros tag. now rewrite In_extractTags, In_declaredTags.
Qed.

(** X15.  The tags of the modules of an unfiltered run are the offered tags
    together with the tags inferred for the endpoints that declare none:
    every offered tag names a module, and a module whose tag is not offered
    is one made for untagged endpoints. *)
Theorem module_tags_offered_or_inferred (this : SwaggerMapper.t) (api : Doc.Api.t)
  (tag : string) :
  In tag (map ModuleMetadata.tag (snd (mapToModules this api None)))
  <-> In tag (extractTags api)
      \/ exists path endpoint,
          In (path, endpoint) (Spec.endpointsOf api)
          /\ EndpointMetadata.tags endpoint = []
          /\ tag = getTagFromPath path.
Proof.
  rewrite mapToModules_all, module_tags, distinct_In, in_map_iff. split.
  - intros ([t endpoint] & Heq & Hin). cbn in Heq. subst t.
    apply In_taggedEndpoints in Hin as (path & Hin & Htag).
    apply In_effectiveTags in Htag as [Htag | [Hnone ->]].
    + left. apply In_extractTags, In_declaredTags. now exists path, endpoint.
    + right. now exists path, endpoint.
  - intros [Htag | (path & endpoint & Hin & Hnone & ->)].
    + apply In_extractTags, In_declaredTags in Htag as (path & endpoint & Hin & Htag).
      exists (tag, endpoint). split; [reflexivity|].
      apply In_taggedEndpoints. exists path. split; [exact Hin|].
      apply In_effectiveTags. now left.
    + exists (getTagFromPath path, endpoint). split; [reflexivity|].
      apply In_taggedEndpoints. exists path. split; [exact Hin|].
      apply In_effectiveTags. now right.
Qed.

(** *** The run of [initCommand] *)

Lemma modules_nil (this : SwaggerMapper.t) (api : Doc.Api.t)
  (selectedTags : option (list string)) :
  snd (mapToModules this api selectedTags) = []
  <-> forall tag endpoint,
      In (tag, endpoint) (Spec.taggedEndpoints api) -> skipped selectedTags tag = true.
Proof.
  split.
  - intros Hnil tag endpoint Hin.
    destruct (skipped selectedTags tag) eqn:Hkept; [reflexivity|].
    assert (Hm : In (Spec.moduleOf (extractSchemas this api) api tag)
                   (snd (mapToModules this api selectedTags))).
    { apply In_modules. exists tag. split; [reflexivity|].
      split; [exact Hkept | now exists endpoint]. }
    rewrite Hnil in Hm. destruct Hm.
  - intros Hall.
    destruct (snd (mapToModules this api selectedTags)) as [|m ms] eqn:E; [reflexivity|].
    assert (Hm : In m (snd (mapToModules this api selectedTags)))
      by (rewrite E; now left).
    apply In_modules in Hm as (tag & _ & Hkept & endpoint & Hin).
    rewrite (Hall tag endpoint Hin) in Hkept. discriminate Hkept.
Qed.

Lemma modules_nil_unfiltered (this : SwaggerMapper.t) (api : Doc.Api.t) :
  snd (mapToModules this api None) = [] <-> Spec.endpointsOf api = [].
Proof.
  rewrite modules_nil, <- taggedEndpoints_nil. split.
  - intros Hall. destruct (Spec.taggedEndpoints api) as [|[tag endpoint] rest];
      [reflexivity|].
    specialize (Hall tag endpoint (or_introl eq_refl)). discriminate Hall.
  - intros -> tag endpoint [].
Qed.

Lemma skipped_chosen (choice : list string) (tag : string) :
  skipped (Some choice) tag = false <-> In tag choice.
Proof.
  cbn [skipped]. rewrite negb_false_iff, existsb_exists. split.
  - intros (t & Hin & <-%String.eqb_eq). exact Hin.
  - intros Hin. exists tag. split; [exact Hin | apply String.eqb_refl].
Qed.

Lemma selectedTags_cases (runTagSelection : list string -> list string)
  (api : Doc.Api.t) :
  (extractTags api = []
   /\ InitCommand.selectedTags runTagSelection InitCommand.selective api = None)
  \/ (extractTags api <> []
      /\ InitCommand.selectedTags runTagSelection InitCommand.selective api
         = Some (runTagSelection (extractTags api))).
Proof.
  unfold InitCommand.selectedTags.
  destruct (extractTags api) as [|tag tags]; [now left | right].
  split; [discriminate | reflexivity].
Qed.

(** X16.  The run of [initCommand] transforms the document into no module,
    and stops with the notice that there is nothing to generate, exactly when
    the document has no operation under the five method keys; this holds in
    both selection modes, provided the tag selection returns tags among the
    ones offered and at least one of them, as the check box with its
    validation does.  When no tag is offered the selective run is the run
    that generates everything. *)
Theorem initCommand_no_modules (runTagSelection : list string -> list string)
  (api : Doc.Api.t) :
  (forall tags tag, In tag (runTagSelection tags) -> In tag tags) ->
  (forall tags, tags <> [] -> runTagSelection tags <> []) ->
  (forall selectionMode,
      InitCommand.modules runTagSelection selectionMode api = []
      <-> Spec.endpointsOf api = [])
  /\ (extractTags api = [] ->
      InitCommand.modules runTagSelection InitCommand.selective api
      = InitCommand.modules runTagSelection InitCommand.generateAll api).
Proof.
  intros Hoffered Hnonempty. split.
  - intros [|]; unfold InitCommand.modules; [apply modules_nil_unfiltered|].
    destruct (selectedTags_cases runTagSelection api) as [[_ ->] | [Htags ->]];
      [apply modules_nil_unfiltered|].
    specialize (Hnonempty _ Htags). specialize (Hoffered (extractTags api)).
    destruct (runTagSelection (extractTags api)) as [|tag choice] eqn:Hchoice;
      [contradiction|].
    assert (Htag : In tag (extractTags api)) by (apply Hoffered; now left).
    apply In_extractTags, In_declaredTags in Htag as (path & endpoint & Hin & Htag).
    split.
    + intros Hnil. exfalso.
      assert (Hskipped : skipped (Some (tag :: choice)) tag = true).
      { apply (proj1 (modules_nil _ _ _) Hnil tag endpoint).
        apply In_taggedEndpoints. exists path. split; [exact Hin|].
        apply In_effectiveTags. now left. }
      assert (Hkept : skipped (Some (tag :: choice)) tag = false)
        by (apply skipped_chosen; now left).
      congruence.
    + intros Hnone. rewrite Hnone in Hin. destruct Hin.
  - intros Hnone. unfold InitCommand.modules.
    now destruct (selectedTags_cases runTagSelection api) as [[_ ->] | [Htags _]].
Qed.

Lemma initCommand_no_modules_witness :
  map ModuleMetadata.tag
    (InitCommand.modules (fun tags => tags) InitCommand.selective Examples.shopApi)
  = ["Users"]
  /\ (InitCommand.modules (fun tags => tags) InitCommand.selective Examples.shopApi = []
      <-> Spec.endpointsOf Examples.shopApi = []).
Proof.
  split; [reflexivity|].
  destruct (initCommand_no_modules (fun tags => tags) Examples.shopApi) as [Hiff _].
  - intros tags tag Hin. exact Hin.
  - intros tags Htags. exact Htags.
  - apply Hiff.
Defined.

(** X17.  In a selective run with tags on offer, every module carries a
    tag that was offered and chosen, and an endpoint is generated exactly
    under its declared tags that were chosen.  An endpoint that declares no
    tag, and whose inferred tag no operation declares, is in no module of a
    selective run, although the run that generates everything files it under
    the inferred tag. *)
Theorem selective_run_chosen_tags (runTagSelection : list string -> list string)
  (this : SwaggerMapper.t) (api : Doc.Api.t) :
  (forall tags tag, In tag (runTagSelection tags) -> In tag tags) ->
  extractTags api <> [] ->
  InitCommand.selectedTags runTagSelection InitCommand.selective api
  = Some (runTagSelection (extractTags api))
  /\ (forall m,
         In m (snd (mapToModules this api
                      (InitCommand.selectedTags runTagSelection InitCommand.selective api))) ->
         In (ModuleMetadata.tag m) (runTagSelection (extractTags api))
         /\ In (ModuleMetadata.tag m) (extractTags api))
  /\ (forall path endpoint,
         In (path, endpoint) (Spec.endpointsOf api) ->
         EndpointMetadata.tags endpoint = [] ->
         ~ In (getTagFromPath path) (extractTags api) ->
         (forall m,
             In m (snd (mapToModules this api
                          (InitCommand.selectedTags runTagSelection InitCommand.selective api))) ->
             ~ In endpoint (ModuleMetadata.endpoints m))
         /\ exists m,
             In m (snd (mapToModules this api None))
             /\ ModuleMetadata.tag m = getTagFromPath path
             /\ In endpoint (ModuleMetadata.endpoints m)).
Proof.
  intros Hoffered Htags.
  destruct (selectedTags_cases runTagSelection api) as [[Hnil _] | [_ Hselected]];
    [contradiction|].
  rewrite Hselected. split; [reflexivity|].
  assert (Hmodule : forall m,
             In m (snd (mapToModules this api (Some (runTagSelection (extractTags api))))) ->
             In (ModuleMetadata.tag m) (runTagSelection (extractTags api))
             /\ In (ModuleMetadata.tag m) (extractTags api)).
  { intros m (tag & -> & Hkept%skipped_chosen & _)%In_modules.
    cbn [Spec.moduleOf ModuleMetadata.tag]. split; [exact Hkept | now apply Hoffered]. }
  split; [exact Hmodule|].
  intros path endpoint Hin Hnone Hinferred. split.
  - intros m Hm Hendpoint. destruct (Hmodule m Hm) as [_ Htag].
    apply In_modules in Hm as (tag & -> & _).
    cbn [Spec.moduleOf ModuleMetadata.tag ModuleMetadata.endpoints] in *.
    apply (untagged_endpoint_module api path tag endpoint Hin Hnone) in Hendpoint.
    subst tag. contradiction.
  - exists (Spec.moduleOf (extractSchemas this api) api (getTagFromPath path)).
    split; [|split; [reflexivity|]].
    + apply In_modules. exists (getTagFromPath path). split; [reflexivity|].
      split; [reflexivity|]. exists endpoint.
      apply In_taggedEndpoints. exists path. split; [exact Hin|].
      apply In_effectiveTags. now right.
    + cbn [Spec.moduleOf ModuleMetadata.endpoints].
      now apply (untagged_endpoint_module api path _ endpoint Hin Hnone).
Qed.

Lemma selective_run_chosen_tags_witness :
  InitCommand.selectedTags (fun tags => tags) InitCommand.selective Examples.shopApi
  = Some ["Users"]
  /\ map ModuleMetadata.tag
       (snd (mapToModules SwaggerMapper.new Examples.shopApi
               (InitCommand.selectedTags (fun tags => tags) InitCommand.selective
                  Examples.shopApi)))
     = ["Users"]
  /\ map ModuleMetadata.tag (snd (mapToModules SwaggerMapper.new Examples.shopApi None))
     = ["Users"; "Products"].
Proof.
  destruct (selective_run_chosen_tags (fun tags => tags) SwaggerMapper.new
              Examples.shopApi) as (Hselected & _ & _).
  - intros tags tag Hin. exact Hin.
  - discriminate.
  - split; [exact Hselected | split; reflexivity].
Defined.

End OfferedTags.

(** ** Loading the templates *)

Section MoreTemplates.
Import TemplateEngine.

Variable readFile : string -> option string.
Variable compile : string -> HandlebarsTemplateDelegate.
Variable convertToJavaScript : string -> string.

(** The loop registers nothing under a library that is not among its
    entries, whether it throws or not. *)
Lemma loadEntries_other (entries : list (string * string)) (library : string) :
  ~ In library (map fst entries) ->
  forall this,
    templates (fst (loadEntries readFile compile entries this)) !! library
    = templates this !! library.
Proof.
  induction entries as [|[lib filename] rest IH]; intros Hnot this; [reflexivity|].
  cbn [loadEntries]. destruct (readFile filename) as [content|]; [|reflexivity].
  rewrite IH by (intros Hin; apply Hnot; now right).
  cbn [templates]. apply lookup_insert_ne. intros ->. apply Hnot. now left.
Qed.

(** The loop throws exactly when a file of its entries cannot be read, and
    then for the first such file. *)
Lemma loadEntries_throws (entries : list (string * string)) :
  forall this,
    match snd (loadEntries readFile compile entries this) with
    | None => forall filename, In filename (map snd entries) -> readFile filename <> None
    | Some e =>
        exists before library filename after,
          entries = (before ++ (library, filename) :: after)%list
          /\ e = ReadFailure filename
          /\ readFile filename = None
          /\ forall earlier, In earlier (map snd before) -> readFile earlier <> None
    end.
Proof.
  induction entries as [|[lib filename] rest IH]; intros this; [intros filename []|].
  cbn [loadEntries]. destruct (readFile filename) as [content|] eqn:Hread.
  - specialize (IH (mk (<[lib := compile content]> (templates this)))).
    destruct (snd (loadEntries readFile compile rest _)) as [e|].
    + destruct IH as (before & library & file & after & -> & -> & Hnone & Hbefore).
      exists ((lib, filename) :: before), library, file, after.
      split; [reflexivity|]. split; [reflexivity|]. split; [exact Hnone|].
      intros earlier [<- | Hin]; [cbn; congruence | now apply Hbefore].
    + intros file [<- | Hin]; [cbn; congruence | now apply IH].
  - cbn [snd]. exists [], lib, filename, rest. repeat split; [exact Hread|].
    intros earlier [].
Qed.

(** What a load that did not throw registered for an entry, when no library
    has two entries. *)
Lemma loadEntries_lookup (entries : list (string * string)) :
  List.NoDup (map fst entries) ->
  forall this library filename content,
    snd (loadEntries readFile compile entries this) = None ->
    In (library, filename) entries ->
    readFile filename = Some content ->
    templates (fst (loadEntries readFile compile entries this)) !! library
    = Some (compile content).
Proof.
  induction entries as [|[lib file] rest IH];
    intros Hnodup this library filename content Hload Hin Hread; [destruct Hin|].
  inversion Hnodup as [|? ? Hfresh Hrest]; subst.
  cbn [loadEntries] in *. destruct (readFile file) as [c|] eqn:Hfile; [|discriminate Hload].
  destruct Hin as [[= -> ->] | Hin].
  - rewrite (loadEntries_other rest library Hfresh). cbn [templates].
    rewrite lookup_insert_eq. congruence.
  - now apply (IH Hrest _ library filename content).
Qed.

(** Entries that are registered already are loaded without a change. *)
Lemma loadEntries_registered (entries : list (string * string)) (this : TemplateEngine.t) :
  (forall library filename,
      In (library, filename) entries ->
      exists content,
        readFile filename = Some content
        /\ templates this !! library = Some (compile content)) ->
  loadEntries readFile compile entries this = (this, None).
Proof.
  induction entries as [|[lib file] rest IH]; intros Hall; [reflexivity|].
  cbn [loadEntries].
  destruct (Hall lib file (or_introl eq_refl)) as (content & -> & Hlookup).
  rewrite (insert_id _ _ _ Hlookup). destruct this as [registry]. cbn [templates].
  apply IH. intros library filename Hin. apply Hall. now right.
Qed.

Lemma NoDup_templateFiles : List.NoDup (map fst templateFiles).
Proof.
  cbn. repeat constructor; cbn; intuition discriminate.
Qed.

Lemma templateFiles_readable (this : TemplateEngine.t) (library filename : string) :
  snd (loadTemplates readFile compile this) = None ->
  In (library, filename) templateFiles ->
  exists content, readFile filename = Some content.
Proof.
  intros Hload Hin. pose proof (loadEntries_throws templateFiles this) as Hthrows.
  unfold loadTemplates in Hload. rewrite Hload in Hthrows.
  destruct (readFile filename) as [content|] eqn:E; [now exists content|].
  exfalso. apply (Hthrows filename); [|exact E].
  apply in_map_iff. now exists (library, filename).
Qed.

(** X18.  [loadTemplates] resolves exactly when each of the four template
    files can be read; it then holds, for each library choice, the template
    compiled from the content of that library's file.  When it rejects, it
    does so for the first file in the order zustand, redux-toolkit,
    axios-hooks, fetch-api that cannot be read, and the files before it were
    read.  In either case what was registered under any other key is as it
    was. *)
Theorem loadTemplates_outcome (this : TemplateEngine.t) :
  (snd (loadTemplates readFile compile this) = None
   <-> forall filename, In filename (map snd templateFiles) -> readFile filename <> None)
  /\ (forall library filename content,
         snd (loadTemplates readFile compile this) = None ->
         In (library, filename) templateFiles ->
         readFile filename = Some content ->
         templates (fst (loadTemplates readFile compile this)) !! library
         = Some (compile content))
  /\ (forall e,
         snd (loadTemplates readFile compile this) = Some e ->
         exists before library filename after,
           templateFiles = (before ++ (library, filename) :: after)%list
           /\ e = ReadFailure filename
           /\ readFile filename = None
           /\ forall earlier, In earlier (map snd before) -> readFile earlier <> None)
  /\ (forall library,
         ~ In library Spec.supportedLibraries ->
         templates (fst (loadTemplates readFile compile this)) !! library
         = templates this !! library).
Proof.
  pose proof (loadEntries_throws templateFiles this) as Hthrows.
  unfold loadTemplates. split; [| split; [| split]].
  - split.
    + intros Hload. now rewrite Hload in Hthrows.
    + intros Hall.
      destruct (snd (loadEntries readFile compile templateFiles this)) as [e|];
        [|reflexivity].
      destruct Hthrows as (before & library & filename & after & Heq & _ & Hnone & _).
      exfalso. apply (Hall filename); [|exact Hnone].
      rewrite Heq, map_app. apply in_or_app. right. now left.
  - intros library filename content. apply loadEntries_lookup, NoDup_templateFiles.
  - intros e He. now rewrite He in Hthrows.
  - intros library Hnot. now apply loadEntries_other.
Qed.

(** X19.  After a load that resolved, a second load resolves and leaves the
    registry as it is, and rendering a module for one of the four library
    choices runs the template compiled from that library's file: it returns
    the rendered text, passed through the JavaScript conversion when the
    language is JavaScript, and throws what the template throws. *)
Theorem loadTemplates_then_generateModule (this : TemplateEngine.t) :
  snd (loadTemplates readFile compile this) = None ->
  loadTemplates readFile compile (fst (loadTemplates readFile compile this))
  = (fst (loadTemplates readFile compile this), None)
  /\ forall library filename module language,
      In (library, filename) templateFiles ->
      exists content,
        readFile filename = Some content
        /\ generateModule convertToJavaScript
             (fst (loadTemplates readFile compile this)) module library language
           = match compile content module with
             | None => Throw RenderFailure
             | Some code =>
                 Return
                   match language with
                   | javascript => convertToJavaScript code
                   | typescript => code
                   end
             end.
Proof.
  intros Hload.
  assert (Hlookup : forall library filename,
             In (library, filename) templateFiles ->
             exists content,
               readFile filename = Some content
               /\ templates (fst (loadTemplates readFile compile this)) !! library
                  = Some (compile content)).
  { intros library filename Hin.
    destruct (templateFiles_readable this library filename Hload Hin) as [content Hread].
    exists content. split; [exact Hread|].
    now apply (loadEntries_lookup templateFiles NoDup_templateFiles this library filename). }
  split.
  - now apply loadEntries_registered.
  - intros library filename module language Hin.
    destruct (Hlookup library filename Hin) as (content & Hread & Htemplate).
    exists content. split; [exact Hread|].
    unfold generateModule. unfold HandlebarsTemplateDelegate in *. rewrite Htemplate.
    destruct (compile content module); [now destruct language | reflexivity].
Qed.

End MoreTemplates.

Lemma loadTemplates_then_generateModule_witness :
  TemplateEngine.loadTemplates (fun filename => Some filename) (fun content _ => Some content)
    (fst (TemplateEngine.loadTemplates
            (fun filename => Some filename) (fun content _ => Some content)
            TemplateEngine.new))
  = (fst (TemplateEngine.loadTemplates
            (fun filename => Some filename) (fun content _ => Some content)
            TemplateEngine.new), None).
Proof.
  apply (loadTemplates_then_generateModule
           (fun filename => Some filename) (fun content _ => Some content)
           (fun code => code) TemplateEngine.new).
  reflexivity.
Defined.

(** ** The helpers of the templates and the file names of the modules *)

Section MoreHelpers.
Import JS Naming SwaggerMapper Output.
#[local] Arguments String.append : simpl nomatch.

Ltac each_character c :=
  destruct c as [[] [] [] [] [] [] [] []]; vm_compute;
  try (let H := fresh in intros H; first [discriminate H | clear H]);
  first [reflexivity | repeat split].

Lemma find_none_before {A} (test : A -> bool) (before : list A) (l : list A) :
  forallb (fun x => negb (test x)) before = true ->
  find test (before ++ l) = find test l.
Proof.
  induction before as [|x before IH]; [reflexivity|].
  cbn [forallb app find]. intros [Hx Hrest]%andb_prop.
  apply negb_true_iff in Hx. rewrite Hx. now apply IH.
Qed.

Lemma find_none {A} (test : A -> bool) (l : list A) :
  forallb (fun x => negb (test x)) l = true -> find test l = None.
Proof.
  intros Hall. rewrite <- (app_nil_r l). now rewrite find_none_before.
Qed.

Lemma orDefault_truthy (s fallback : string) :
  s <> "" -> orDefault (Some s) fallback = s.
Proof.
  intros Hs. cbn [orDefault]. unfold orElse, truthy.
  now destruct (String.eqb_spec s "").
Qed.

Lemma getResponseSchema_nonempty (response : Doc.Response.t) (name : string) :
  getResponseSchema response = Some name -> name <> "".
Proof.
  unfold getResponseSchema.
  destruct (Doc.Response.content response) as [responseContent|]; [|discriminate].
  destruct (match JSMap.get responseContent "application/json" with
            | Some mediaType => Some mediaType
            | None =>
                match firstKey responseContent with
                | Some k => JSMap.get responseContent k
                | None => None
                end
            end) as [mediaType|]; [|discriminate].
  destruct (Doc.MediaType.schema mediaType) as [schema|]; [|discriminate].
  intros [= <-]. apply getSchemaName_nonempty.
Qed.

(** X20.  The response type that the templates print for an endpoint is
    never empty.  It is the schema of the first response with status 200 or
    201 in the order of the responses, and any when that response has no
    schema or when there is no such response; a later response is not
    consulted even if the first success response has no schema.  For the
    responses that the mapper makes of an operation, it is the schema name
    of the first 200 or 201 response of the document. *)
Theorem getResponseType_first_success :
  (forall responses, Helpers.getResponseType responses <> "")
  /\ (forall before successResponse after,
         forallb (fun r => negb (Helpers.isSuccess r)) before = true ->
         Helpers.isSuccess successResponse = true ->
         Helpers.getResponseType (Some (before ++ successResponse :: after)%list)
         = orDefault (ResponseMetadata.schema successResponse) "any")
  /\ (forall responses,
         forallb (fun r => negb (Helpers.isSuccess r)) responses = true ->
         Helpers.getResponseType (Some responses) = "any")
  /\ (forall before statusCode response after,
         forallb (fun r => negb (Helpers.isSuccess r)) (mapResponses before) = true ->
         statusCode = "200" \/ statusCode = "201" ->
         Helpers.getResponseType
           (Some (mapResponses (before ++ (statusCode, response) :: after)%list))
         = match getResponseSchema response with
           | Some name => name
           | None => "any"
           end).
Proof.
  assert (Hfirst : forall before successResponse after,
             forallb (fun r => negb (Helpers.isSuccess r)) before = true ->
             Helpers.isSuccess successResponse = true ->
             Helpers.getResponseType (Some (before ++ successResponse :: after)%list)
             = orDefault (ResponseMetadata.schema successResponse) "any").
  { intros before r after Hbefore Hr. cbn [Helpers.getResponseType].
    rewrite find_none_before by exact Hbefore. cbn [find]. rewrite Hr.
    now destruct before. }
  split; [| split; [exact Hfirst | split]].
  - intros [responses|]; [|discriminate]. cbn [Helpers.getResponseType].
    destruct (length responses =? 0)%nat; [discriminate|].
    destruct (find Helpers.isSuccess responses);
      [apply orDefault_nonempty|]; discriminate.
  - intros responses Hall. cbn [Helpers.getResponseType].
    rewrite (find_none _ _ Hall). now destruct (length responses =? 0)%nat.
  - intros before statusCode response after Hbefore Hcode.
    unfold mapResponses at 1. rewrite map_app. cbn [map].
    fold (mapResponses before). fold (mapResponses after).
    rewrite Hfirst; [| exact Hbefore | now destruct Hcode as [-> | ->]].
    cbn [ResponseMetadata.schema].
    destruct (getResponseSchema response) as [name|] eqn:E; [|reflexivity].
    apply orDefault_truthy. now apply (getResponseSchema_nonempty response).
Qed.

(** *** Module names and the names of their files *)

Lemma upperChar_lowerChar (c : ascii) : upperChar (lowerChar c) = upperChar c.
Proof. each_character c. Qed.

Lemma lowerChar_upperChar (c : ascii) : lowerChar (upperChar c) = lowerChar c.
Proof. each_character c. Qed.

Lemma capitalize_lowerCase (str : string) :
  Helpers.capitalize (Helpers.lowerCase str) = Helpers.capitalize str.
Proof.
  destruct str as [|c r]; [reflexivity|].
  unfold Helpers.lowerCase. rewrite sliceFrom_cons.
  cbn [charAt0 toLowerCase mapChars String.append].
  unfold Helpers.capitalize. rewrite !sliceFrom_cons.
  cbn [charAt0 toUpperCase mapChars String.append]. now rewrite upperChar_lowerChar.
Qed.

Lemma lowerCase_capitalize (str : string) :
  Helpers.lowerCase (Helpers.capitalize str) = Helpers.lowerCase str.
Proof.
  destruct str as [|c r]; [reflexivity|].
  unfold Helpers.capitalize. rewrite sliceFrom_cons.
  cbn [charAt0 toUpperCase mapChars String.append].
  unfold Helpers.lowerCase. rewrite !sliceFrom_cons.
  cbn [charAt0 toLowerCase mapChars String.append]. now rewrite lowerChar_upperChar.
Qed.

Lemma capitalize_tagToModuleName (tag : string) :
  Helpers.capitalize (tagToModuleName tag) = tagToModuleName tag.
Proof. apply capitalize_join_capitalized. Qed.

Lemma append_cancel_l (p a b : string) : p ++ a = p ++ b -> a = b.
Proof.
  induction p as [|c p IH]; cbn [String.append]; [trivial|].
  intros [= H]. now apply IH.
Qed.

Lemma append_cancel_r (s a b : string) : a ++ s = b ++ s -> a = b.
Proof.
  revert b. induction a as [|c a IH]; intros [|d b] H; cbn [String.append] in H.
  - reflexivity.
  - apply (f_equal String.length) in H. cbn [String.length] in H.
    rewrite length_append in H. lia.
  - apply (f_equal String.length) in H. cbn [String.length] in H.
    rewrite length_append in H. lia.
  - injection H as -> H. f_equal. now apply IH.
Qed.

Lemma lowerFirst_capitalized (a b : string) :
  Helpers.capitalize a = a -> Helpers.capitalize b = b ->
  lowerFirst a = lowerFirst b -> a = b.
Proof.
  intros Ha Hb Heq. rewrite <- Ha, <- Hb, <- (capitalize_lowerCase a), <- (capitalize_lowerCase b).
  unfold Helpers.lowerCase. unfold lowerFirst in Heq. now rewrite Heq.
Qed.

(** X21.  On strings of ASCII characters the helper [capitalize] brings
    back what the helper [lowerCase] changed, and the other way round.  On
    the module names that the mapper makes of ASCII tags [capitalize] changes
    nothing and undoes [lowerCase]; and for each library and language two
    such modules get the same file name only when they have the same module
    name, also for redux-toolkit, whose file names start with the module
    name in lower-case-first form. *)
Theorem module_file_names :
  (forall str,
      Props.sevenBit str = true ->
      Helpers.capitalize (Helpers.lowerCase str) = Helpers.capitalize str
      /\ Helpers.lowerCase (Helpers.capitalize str) = Helpers.lowerCase str)
  /\ (forall tag,
         Props.sevenBit tag = true ->
         Helpers.capitalize (tagToModuleName tag) = tagToModuleName tag
         /\ Helpers.capitalize (Helpers.lowerCase (tagToModuleName tag))
            = tagToModuleName tag)
  /\ (forall tag tag' library language,
         Props.sevenBit tag = true ->
         Props.sevenBit tag' = true ->
         getModuleFileName (tagToModuleName tag) library language
         = getModuleFileName (tagToModuleName tag') library language ->
         tagToModuleName tag = tagToModuleName tag').
Proof.
  split; [| split].
  - intros str _. split; [apply capitalize_lowerCase | apply lowerCase_capitalize].
  - intros tag _. split; [apply capitalize_tagToModuleName|].
    rewrite capitalize_lowerCase. apply capitalize_tagToModuleName.
  - intros tag tag' library language _ _. unfold getModuleFileName.
    destruct (String.eqb library "zustand").
    { intros H%append_cancel_l. now apply append_cancel_r in H. }
    destruct (String.eqb library "redux-toolkit").
    { intros H. apply append_cancel_r in H.
      apply lowerFirst_capitalized; [apply capitalize_tagToModuleName .. | exact H]. }
    destruct (String.eqb library "axios-hooks" || String.eqb library "fetch-api").
    { intros H%append_cancel_l. now apply append_cancel_r in H. }
    apply append_cancel_r.
Qed.

Lemma module_file_names_witness :
  Helpers.capitalize (Helpers.lowerCase (tagToModuleName "user management"))
  = "UserManagement"
  /\ tagToModuleName "user management" = tagToModuleName "User_Management".
Proof.
  destruct module_file_names as (_ & Hround & Hfiles).
  split.
  - now rewrite (proj2 (Hround "user management" eq_refl)).
  - now apply (Hfiles "user management" "User_Management" "redux-toolkit" typescript).
Defined.

End MoreHelpers.

(** ** The calls of a run of [generate] *)

Section MoreGenerate.
Import Generate.
Import TemplateEngine (Return, Throw).

Variable FS : Type.
Variable ensureDir : Path -> FS -> option FS.
Variable writeFile : Path -> string -> FS -> option FS.
Variable prettierFormat : string -> string -> option string.
Variable convertToJavaScript : string -> string.
Variable templateEngine : TemplateEngine.t.

#[local] Abbreviation perform := (Generate.perform FS ensureDir writeFile).
#[local] Abbreviation await := (Generate.await FS ensureDir writeFile).
#[local] Abbreviation performAll calls :=
  (Generate.forEach FS calls (Generate.await FS ensureDir writeFile)).
#[local] Abbreviation render := (Generate.render convertToJavaScript templateEngine).
#[local] Abbreviation allRender :=
  (Generate.allRender convertToJavaScript templateEngine).
#[local] Abbreviation renderedCalls :=
  (Generate.renderedCalls prettierFormat convertToJavaScript templateEngine).
#[local] Abbreviation closingCalls := (Generate.closingCalls prettierFormat).
#[local] Abbreviation allCalls :=
  (Generate.allCalls prettierFormat convertToJavaScript templateEngine).
#[local] Abbreviation generateModule :=
  (Generate.generateModule FS ensureDir writeFile prettierFormat convertToJavaScript
     templateEngine).
#[local] Abbreviation generate :=
  (Generate.generate FS ensureDir writeFile prettierFormat convertToJavaScript
     templateEngine).

(** One step after another. *)
Lemma bind_run {A B} (m : M FS A) (f : A -> M FS B) (world : World FS) :
  mbind (MBind := M_bind FS) f m world
  = match m world with
    | Resolved a world => f a world
    | Rejected e done => Rejected e done
    end.
Proof. reflexivity. Qed.

Lemma performAll_app (first second : list FsCall) (world : World FS) :
  performAll (first ++ second)%list world
  = mbind (MBind := M_bind FS) (fun _ => performAll second) (performAll first) world.
Proof.
  revert world. induction first as [|call first IH]; intros world; [reflexivity|].
  cbn [app forEach]. rewrite !bind_run.
  destruct (await call world) as [[] world'|e done]; [|reflexivity].
  rewrite IH. now rewrite bind_run.
Qed.

(** A list of calls resolves with all of them done, or rejects at the first
    call that rejects, the calls before it done. *)
Lemma performAll_run (planned : list FsCall) :
  forall world,
    match performAll planned world with
    | Resolved _ world' => calls FS world' = (calls FS world ++ planned)%list
    | Rejected e done =>
        exists before call after,
          planned = (before ++ call :: after)%list
          /\ e = FsError call
          /\ done = (calls FS world ++ before)%list
    end.
Proof.
  induction planned as [|call planned IH]; intros world.
  - cbn. now rewrite app_nil_r.
  - cbn [forEach]. rewrite bind_run. unfold Generate.await at 1.
    destruct (perform call (fs FS world)) as [files|].
    + specialize (IH (mkWorld FS files (calls FS world ++ [call])%list)).
      destruct (performAll planned _) as [[] world'|e done].
      * cbn [calls] in IH. now rewrite IH, <- app_assoc.
      * destruct IH as (before & failing & after & -> & -> & ->).
        exists (call :: before), failing, after. cbn [calls].
        now rewrite <- app_assoc.
    + exists [], call, planned. now rewrite app_nil_r.
Qed.

Lemma performAll_resolves (planned : list FsCall) :
  (forall call files, perform call files <> None) ->
  forall world, exists world', performAll planned world = Resolved tt world'.
Proof.
  intros Hfs. induction planned as [|call planned IH]; intros world.
  - now exists world.
  - cbn [forEach]. rewrite bind_run. unfold Generate.await at 1.
    destruct (perform call (fs FS world)) as [files|] eqn:E; [apply IH|].
    now apply Hfs in E.
Qed.

(** The loop over modules that all render is the list of their calls. *)
Lemma forEach_rendered (context : GenerationContext.t) (modules : list ModuleMetadata.t) :
  allRender context modules ->
  forall world,
    forEach FS modules (fun module => generateModule module context) world
    = performAll (renderedCalls context modules) world.
Proof.
  induction modules as [|module rest IH]; intros Hall world; [reflexivity|].
  destruct (Hall module (or_introl eq_refl)) as [code Hcode].
  assert (Hrest : allRender context rest)
    by (intros m Hm; apply Hall; now right).
  cbn [forEach Generate.renderedCalls flat_map]. rewrite Hcode.
  rewrite performAll_app, !bind_run.
  unfold Generate.generateModule at 1. unfold Generate.render in Hcode. rewrite Hcode.
  cbn [Generate.moduleCalls forEach]. rewrite !bind_run.
  destruct (await _ world) as [[] world1|e done]; [|reflexivity].
  rewrite !bind_run.
  destruct (await _ world1) as [[] world2|e done]; [|reflexivity].
  cbn. now apply IH.
Qed.

(** The loop stops at the first module that throws. *)
Lemma forEach_throws (context : GenerationContext.t)
  (before after : list ModuleMetadata.t) (module : ModuleMetadata.t)
  (e : TemplateEngine.Error) :
  allRender context before ->
  render module context = Throw e ->
  forall world,
    forEach FS (before ++ module :: after)%list
      (fun module => generateModule module context) world
    = match performAll (renderedCalls context before) world with
      | Resolved _ world' => Rejected (TemplateError e) (calls FS world')
      | Rejected thrown done => Rejected thrown done
      end.
Proof.
  intros Hbefore Hthrow.
  induction before as [|m before IH]; intros world.
  - cbn [app forEach Generate.renderedCalls flat_map]. rewrite bind_run.
    unfold Generate.generateModule at 1. unfold Generate.render in Hthrow.
    now rewrite Hthrow.
  - destruct (Hbefore m (or_introl eq_refl)) as [code Hcode].
    assert (Hrest : allRender context before)
      by (intros m' Hm'; apply Hbefore; now right).
    cbn [app forEach Generate.renderedCalls flat_map]. rewrite Hcode.
    rewrite performAll_app, !bind_run.
    unfold Generate.generateModule at 1. unfold Generate.render in Hcode. rewrite Hcode.
    cbn [Generate.moduleCalls forEach]. rewrite !bind_run.
    destruct (await _ world) as [[] world1|thrown done]; [|reflexivity].
    rewrite !bind_run.
    destruct (await _ world1) as [[] world2|thrown done]; [|reflexivity].
    cbn. now apply IH.
Qed.

(** Either every module renders, or there is a first one that throws. *)
Lemma first_throw (context : GenerationContext.t) (modules : list ModuleMetadata.t) :
  allRender context modules
  \/ exists before module after e,
      modules = (before ++ module :: after)%list
      /\ allRender context before
      /\ render module context = Throw e.
Proof.
  induction modules as [|m rest IH]; [left; intros module []|].
  destruct (render m context) as [code|e] eqn:Hm.
  - destruct IH as [Hall | (before & module & after & e & -> & Hbefore & Hthrow)].
    + left. intros module [<- | Hin]; [now exists code | now apply Hall].
    + right. exists (m :: before), module, after, e. split; [reflexivity|].
      split; [|exact Hthrow].
      intros module' [<- | Hin]; [now exists code | now apply Hbefore].
  - right. exists [], m, rest, e. split; [reflexivity|].
    split; [intros module [] | exact Hm].
Qed.

(** The steps after the loop are the closing calls. *)
Lemma closing_steps (context : GenerationContext.t) (world : World FS) :
  mbind (MBind := M_bind FS)
    (fun _ =>
       mbind (MBind := M_bind FS)
         (fun _ => generateReadme FS ensureDir writeFile context)
         match WizardAnswers.language (GenerationContext.answers context) with
         | typescript => generateTypesFile FS ensureDir writeFile prettierFormat context
         | javascript => mret (MRet := M_ret FS) tt
         end)
    (generateIndexFile FS ensureDir writeFile prettierFormat
       (GenerationContext.modules context) context)
    world
  = performAll (closingCalls context) world.
Proof.
  unfold Generate.closingCalls, Generate.generateIndexFile, Generate.generateTypesFile,
    Generate.generateReadme.
  destruct (WizardAnswers.language (GenerationContext.answers context));
    cbn [app forEach]; rewrite !bind_run;
    destruct (await _ world) as [[] world1|e done]; try reflexivity;
    rewrite ?bind_run.
  - destruct (await _ world1) as [[] world2|e done]; [|reflexivity].
    rewrite !bind_run. now destruct (await _ world2) as [[] world3|e done].
  - unfold mret, M_ret. now destruct (await _ world1) as [[] world2|e done].
Qed.

(** A run in which every module renders is the list of all its calls. *)
Lemma generate_all_render (context : GenerationContext.t) (world : World FS) :
  allRender context (GenerationContext.modules context) ->
  generate context world = performAll (allCalls context) world.
Proof.
  intros Hall. unfold Generate.generate, Generate.allCalls.
  cbn [forEach]. rewrite !bind_run.
  destruct (await (EnsureDir []) world) as [[] world1|e done]; [|reflexivity].
  rewrite performAll_app, !bind_run, (forEach_rendered context _ Hall).
  destruct (performAll _ world1) as [[] world2|e done]; [|reflexivity].
  apply closing_steps.
Qed.

(** A run in which a module throws ends there. *)
Lemma generate_throws (context : GenerationContext.t) (world : World FS)
  (before after : list ModuleMetadata.t) (module : ModuleMetadata.t)
  (e : TemplateEngine.Error) :
  GenerationContext.modules context = (before ++ module :: after)%list ->
  allRender context before ->
  render module context = Throw e ->
  generate context world
  = match performAll (EnsureDir [] :: renderedCalls context before) world with
    | Resolved _ world' => Rejected (TemplateError e) (calls FS world')
    | Rejected thrown done => Rejected thrown done
    end.
Proof.
  intros Hmodules Hbefore Hthrow. unfold Generate.generate.
  cbn [forEach]. rewrite !bind_run.
  destruct (await (EnsureDir []) world) as [[] world1|thrown done]; [|reflexivity].
  rewrite !bind_run, Hmodules, (forEach_throws context before after module e Hbefore Hthrow).
  now destruct (performAll _ world1) as [[] world2|thrown done].
Qed.

Lemma renderedCalls_app (context : GenerationContext.t)
  (first second : list ModuleMetadata.t) :
  renderedCalls context (first ++ second)%list
  = (renderedCalls context first ++ renderedCalls context second)%list.
Proof. apply flat_map_app. Qed.

(** X22.  A run of [generate] on any file system, started with no call
    done.  When it resolves, every module rendered and the calls done are, in
    this order: the output directory; for each module in the order of the
    modules its folder, named by the kebab form of the module name, and its
    file under the file name of the library and language, with the formatted
    code; the index file; for TypeScript only the types file; the README.
    When it rejects with what the template engine threw, that was thrown for
    the first module that does not render, the calls done are the output
    directory and the folders and files of the modules before it, and
    neither the index file, the types file nor the README is written.  When
    it rejects because a call on the file system rejected, the calls done
    followed by that call are an initial part of the calls of the run in
    which nothing rejects.  On a file system that rejects no call, the run
    resolves exactly when every module renders, and never rejects for the
    file system. *)
Theorem generate_outcome (context : GenerationContext.t) (files : FS) :
  (forall world,
      generate context (mkWorld FS files []) = Resolved tt world ->
      allRender context (GenerationContext.modules context)
      /\ calls FS world = allCalls context)
  /\ (forall e done,
         generate context (mkWorld FS files []) = Rejected (TemplateError e) done ->
         exists before module after,
           GenerationContext.modules context = (before ++ module :: after)%list
           /\ allRender context before
           /\ render module context = Throw e
           /\ done = EnsureDir [] :: renderedCalls context before)
  /\ (forall call done,
         generate context (mkWorld FS files []) = Rejected (FsError call) done ->
         Props.startsWithList (done ++ [call])%list (allCalls context))
  /\ ((forall call files', perform call files' <> None) ->
      (allRender context (GenerationContext.modules context)
       <-> exists world, generate context (mkWorld FS files []) = Resolved tt world)
      /\ forall call done,
          generate context (mkWorld FS files []) <> Rejected (FsError call) done).
Proof.
  destruct (first_throw context (GenerationContext.modules context))
    as [Hall | (before & module & after & e & Hmodules & Hbefore & Hthrow)].
  - pose proof (generate_all_render context (mkWorld FS files []) Hall) as Hrun.
    pose proof (performAll_run (allCalls context) (mkWorld FS files [])) as Hcalls.
    rewrite <- Hrun in Hcalls.
    split; [| split; [| split]].
    + intros world Hworld. rewrite Hworld in Hcalls. now split.
    + intros e done He. rewrite He in Hcalls.
      destruct Hcalls as (? & ? & ? & _ & Hfs & _). discriminate Hfs.
    + intros call done Hcall. rewrite Hcall in Hcalls.
      destruct Hcalls as (before & failing & after & Hplan & [= <-] & ->).
      exists after. rewrite Hplan. cbn [calls app]. now rewrite <- app_assoc.
    + intros Hfs. split.
      * split; [intros _ | now intros _].
        destruct (performAll_resolves (allCalls context) Hfs (mkWorld FS files []))
          as [world Hworld].
        exists world. now rewrite Hrun.
      * intros call done Hcall.
        destruct (performAll_resolves (allCalls context) Hfs (mkWorld FS files []))
          as [world Hworld].
        rewrite Hrun, Hworld in Hcall. discriminate Hcall.
  - pose proof (generate_throws context (mkWorld FS files []) before after module e
                  Hmodules Hbefore Hthrow) as Hrun.
    pose proof (performAll_run (EnsureDir [] :: renderedCalls context before)
                  (mkWorld FS files [])) as Hcalls.
    assert (Hnot : ~ allRender context (GenerationContext.modules context)).
    { intros Hall. destruct (Hall module) as [code Hcode];
        [rewrite Hmodules; apply in_or_app; right; now left | congruence]. }
    destruct (performAll (EnsureDir [] :: renderedCalls context before)
                (mkWorld FS files [])) as [[] world'|thrown done'] eqn:Hprefix.
    + split; [| split; [| split]].
      * intros world Hworld. rewrite Hrun in Hworld. discriminate Hworld.
      * intros e' done He. rewrite Hrun in He. injection He as <- <-.
        exists before, module, after. now repeat split.
      * intros call done Hcall. rewrite Hrun in Hcall. discriminate Hcall.
      * intros Hfs. split.
        -- split; [intros Hall; contradiction|].
           intros [world Hworld]. rewrite Hrun in Hworld. discriminate Hworld.
        -- intros call done Hcall. rewrite Hrun in Hcall. discriminate Hcall.
    + destruct Hcalls as (done & failing & rest & Hplan & -> & ->).
      split; [| split; [| split]].
      * intros world Hworld. rewrite Hrun in Hworld. discriminate Hworld.
      * intros e' done'' He. rewrite Hrun in He. discriminate He.
      * intros call done'' Hcall. rewrite Hrun in Hcall. injection Hcall as <- <-.
        unfold Generate.allCalls. rewrite Hmodules, renderedCalls_app.
        exists (rest ++ renderedCalls context (module :: after) ++ closingCalls context)%list.
        cbn [calls app].
        change (EnsureDir [] :: (renderedCalls context before
                  ++ renderedCalls context (module :: after)) ++ closingCalls context)%list
          with ((EnsureDir [] :: renderedCalls context before)
                ++ renderedCalls context (module :: after) ++ closingCalls context)%list
          || idtac.
        rewrite <- (app_assoc (renderedCalls context before)), app_comm_cons, Hplan.
        now rewrite <- !app_assoc.
      * intros Hfs. exfalso.
        destruct (performAll_resolves (EnsureDir [] :: renderedCalls context before)
                    Hfs (mkWorld FS files [])) as [world Hworld].
        rewrite Hworld in Hprefix. discriminate Hprefix.
Qed.

End MoreGenerate.

Lemma generate_outcome_witness :
  exists world,
    Generate.generate unit (fun _ files => Some files) (fun _ _ files => Some files)
      (fun _ _ => None) (fun code => code)
      (fst (TemplateEngine.loadTemplates
              (fun filename => Some filename) (fun content _ => Some content)
              TemplateEngine.new))
      (Generate.GenerationContext.mk
         (Generate.WizardAnswers.mk "zustand" typescript "./src/api")
         [ModuleMetadata.mk "Users" "Users" [] []] [])
      (Generate.mkWorld unit tt [])
    = Generate.Resolved tt world.
Proof.
  destruct (generate_outcome unit (fun _ files => Some files) (fun _ _ files => Some files)
              (fun _ _ => None) (fun code => code)
              (fst (TemplateEngine.loadTemplates
                      (fun filename => Some filename) (fun content _ => Some content)
                      TemplateEngine.new))
              (Generate.GenerationContext.mk
                 (Generate.WizardAnswers.mk "zustand" typescript "./src/api")
                 [ModuleMetadata.mk "Users" "Users" [] []] [])
              tt) as (_ & _ & _ & Hfs).
  destruct Hfs as [Hiff _].
  - intros [path | path content] files'; discriminate.
  - apply Hiff. intros module [<- | []]. now exists "zustand.hbs".
Defined.
